(** * Apollo.io MCP server: response contract, rate limiter, tool dispatch
      and session transport

    A shallow embedding of the TypeScript sources

    - [types/tool-response.ts]        (module [Response]),
    - [utils/base-tool-handler.ts]    (module [BaseToolHandler]),
    - [tools/lead-tools.ts] and the other handler groups (module [Tools]),
    - [apollo-tools-orchestrator.ts]  (module [Orchestrator]),
    - [server-refactored.ts]          (modules [MCPServer] and [Endpoints]),
    - [config/tool-definitions.ts]    (module [ToolDefinitions]),
    - more of [tools/lead-tools.ts] and [tools/contact-tools.ts]
      (modules [LeadTools] and [ContactTools]),

    followed by the properties established about them. *)

From Stdlib Require Import ZArith String Ascii List Bool Lia.
From stdpp Require Import gmap strings list pretty.
Import ListNotations.

Open Scope string_scope.
Open Scope Z_scope.

(* ===================================================================== *)
(** * The fragment of JavaScript the sources rely on *)
(* ===================================================================== *)

Module JS.

(** JSON-like values: what a request can carry and what the handlers
    build.  [JNumber] stands for the safe integers among the JavaScript
    numbers (timestamps, lengths, limits); [NaN] is represented where it
    can arise, as the [None] of [ToNumber]. *)
#[warnings="-register-all"]
Inductive JSValue : Type :=
| JUndefined
| JNull
| JBool (b : bool)
| JNumber (n : Z)
| JString (s : string)
| JArray (elems : list JSValue)
| JObject (props : list (string * JSValue)).

(** A thrown value: an [Error] instance ([error instanceof Error]; only its
    [message] is ever read) or any other value. *)
Inductive Thrown : Type :=
| ErrorObject (message : string)
| NonError (value : JSValue).

(** The result of evaluating code that may throw. *)
Inductive Outcome (A : Type) : Type :=
| Returned (a : A)
| Threw (e : Thrown).
Arguments Returned {A} a.
Arguments Threw {A} e.

Definition bind {A B : Type} (c : Outcome A) (k : A -> Outcome B) : Outcome B :=
  match c with
  | Returned a => k a
  | Threw e => Threw e
  end.

Notation "'do' x <- c ;; k" := (bind c (fun x => k))
  (at level 10, x name, c at level 99, k at level 200).

(** [try { c } catch (e) { h e }] *)
Definition try_catch {A : Type} (c : Outcome A) (h : Thrown -> Outcome A) : Outcome A :=
  match c with
  | Returned a => Returned a
  | Threw e => h e
  end.

Definition TypeError (message : string) : Thrown := ErrorObject message.

(** The one error a conversion to a string can raise. *)
Definition conversion_error : Thrown :=
  TypeError "Cannot convert object to primitive value".

(** Truthiness ([!v] is [negb (truthy v)]). *)
Definition truthy (v : JSValue) : bool :=
  match v with
  | JUndefined | JNull => false
  | JBool b => b
  | JNumber n => negb (n =? 0)
  | JString s => negb (String.eqb s "")
  | JArray _ | JObject _ => true
  end.

(** [typeof v === 'object'] (which holds of [null] and of arrays). *)
Definition typeof_object (v : JSValue) : bool :=
  match v with
  | JNull | JArray _ | JObject _ => true
  | _ => false
  end.

(** [a || b] *)
Definition or_else (a b : JSValue) : JSValue := if truthy a then a else b.

(** The line feed of ['\n']. *)
Definition LF : string := String (ascii_of_nat 10) EmptyString.

(** [cases.includes(name)] for an array of strings. *)
Definition array_includes (cases : list string) (name : string) : bool :=
  existsb (String.eqb name) cases.

(** [switch (name) { case label: ...; default: ... }] *)
Fixpoint switch {A : Type} (name : string) (cases : list (string * A)) (default : A) : A :=
  match cases with
  | [] => default
  | (label, branch) :: rest =>
      if String.eqb name label then branch else switch name rest default
  end.

(** [s.includes(sub)] *)
Fixpoint includes (s sub : string) : bool :=
  if String.prefix sub s then true
  else match s with
       | EmptyString => false
       | String _ rest => includes rest sub
       end.

(** Own properties of a plain object; the first binding of a key is the
    one the object has. *)
Fixpoint own_property (props : list (string * JSValue)) (key : string) : option JSValue :=
  match props with
  | [] => None
  | (k, v) :: rest => if String.eqb k key then Some v else own_property rest key
  end.

(** Array elements are own properties under their canonical index. *)
Fixpoint array_index (elems : list JSValue) (i : nat) (key : string) : option JSValue :=
  match elems with
  | [] => None
  | v :: rest => if String.eqb key (pretty i) then Some v else array_index rest (S i) key
  end.

(** Property names every plain object inherits from [Object.prototype]. *)
Definition Object_prototype_names : list string :=
  [ "constructor"; "__defineGetter__"; "__defineSetter__"; "hasOwnProperty";
    "__lookupGetter__"; "__lookupSetter__"; "isPrototypeOf";
    "propertyIsEnumerable"; "toString"; "valueOf"; "__proto__";
    "toLocaleString" ].

(** Property names an array inherits from [Array.prototype] (ES2023). *)
Definition Array_prototype_names : list string :=
  [ "at"; "concat"; "copyWithin"; "fill"; "find"; "findIndex"; "findLast";
    "findLastIndex"; "lastIndexOf"; "pop"; "push"; "reverse"; "shift";
    "unshift"; "slice"; "sort"; "splice"; "includes"; "indexOf"; "join";
    "keys"; "entries"; "values"; "forEach"; "filter"; "flat"; "flatMap";
    "map"; "every"; "some"; "reduce"; "reduceRight"; "toReversed";
    "toSorted"; "toSpliced"; "with" ].

Definition name_in (names : list string) (key : string) : bool :=
  existsb (String.eqb key) names.

(** What [o[key]] finds on an object or an array: an own value, a
    built-in reached through the prototype chain (a function or an object,
    never [null] or [undefined]), or nothing. *)
Inductive Property : Type :=
| OwnValue (v : JSValue)
| BuiltIn
| Absent.

Definition get_property (o : JSValue) (key : string) : Property :=
  match o with
  | JObject props =>
      match own_property props key with
      | Some v => OwnValue v
      | None => if name_in Object_prototype_names key then BuiltIn else Absent
      end
  | JArray elems =>
      if String.eqb key "length" then OwnValue (JNumber (Z.of_nat (length elems)))
      else match array_index elems 0 key with
           | Some v => OwnValue v
           | None =>
               if name_in Array_prototype_names key || name_in Object_prototype_names key
               then BuiltIn else Absent
           end
  | _ => Absent
  end.

(** [key in o] for an object or an array [o]. *)
Definition has_property (o : JSValue) (key : string) : bool :=
  match get_property o key with
  | Absent => false
  | _ => true
  end.

(** [o[key] === null || o[key] === undefined] *)
Definition is_nullish (p : Property) : bool :=
  match p with
  | OwnValue JNull | OwnValue JUndefined | Absent => true
  | _ => false
  end.

(** The value of a property that no prototype defines ([jobTitle],
    [name], [people], ...): the own value, or [undefined]. *)
Definition own_value (o : JSValue) (key : string) : JSValue :=
  match o with
  | JObject props =>
      match own_property props key with
      | Some v => v
      | None => JUndefined
      end
  | _ => JUndefined
  end.

(** [o.key] for such a property: reading from [null] or [undefined]
    throws. *)
Definition read (o : JSValue) (key : string) : Outcome JSValue :=
  match o with
  | JUndefined =>
      Threw (TypeError ("Cannot read properties of undefined (reading '" +:+ key +:+ "')"))
  | JNull =>
      Threw (TypeError ("Cannot read properties of null (reading '" +:+ key +:+ "')"))
  | _ => Returned (own_value o key)
  end.

(** [elems.join(',')] given the conversion of one element: [null] and
    [undefined] elements contribute the empty string. *)
Section Join.
Variable convert : JSValue -> Outcome string.

Definition join_element (e : JSValue) : Outcome string :=
  match e with
  | JUndefined | JNull => Returned ""
  | _ => convert e
  end.

Fixpoint join (elems : list JSValue) : Outcome string :=
  match elems with
  | [] => Returned ""
  | e :: rest =>
      do s <- join_element e ;;
      match rest with
      | [] => Returned s
      | _ => do r <- join rest ;; Returned (s +:+ "," +:+ r)
      end
  end.
End Join.

(** [String(v)] and the conversion a template literal applies.  A plain
    object answers ["[object Object]"] unless it has an own [toString]
    property, which (coming from JSON) is not callable: the conversion
    then throws. An array joins the conversions of its elements. A
    number gives its decimal digits, which is what [String(n)] gives for
    the safe integers [JNumber] stands for; beyond them JavaScript rounds
    the digits or writes an exponent, which is not modelled. *)
Fixpoint ToString (v : JSValue) : Outcome string :=
  match v with
  | JUndefined => Returned "undefined"
  | JNull => Returned "null"
  | JBool true => Returned "true"
  | JBool false => Returned "false"
  | JNumber n => Returned (pretty n)
  | JString s => Returned s
  | JArray elems => join ToString elems
  | JObject props =>
      match own_property props "toString" with
      | Some _ => Threw conversion_error
      | None => Returned "[object Object]"
      end
  end.

(** [Number.isSafeInteger(n)] for an integer [n]: the numbers [JNumber]
    stands for, whose decimal digits [String(n)] gives in full. *)
Definition safe_integer (n : Z) : bool := Z.abs n <=? 9007199254740991.

(** What the runtime supplies and the sources never inspect:
    [JSON.stringify(data, null, 2)] as it appears inside a template
    literal, and the numeric value of a string ([None] is [NaN]). *)
Record Runtime : Type := {
  JSON_stringify : JSValue -> string;
  StringToNumber : string -> option Z
}.

(** [ToNumber], as applied by [Math.min]; [None] is [NaN]. *)
Definition ToNumber (rt : Runtime) (v : JSValue) : Outcome (option Z) :=
  match v with
  | JUndefined => Returned None
  | JNull => Returned (Some 0)
  | JBool b => Returned (Some (if b then 1 else 0))
  | JNumber n => Returned (Some n)
  | JString s => Returned (StringToNumber rt s)
  | JArray _ | JObject _ => bind (ToString v) (fun s => Returned (StringToNumber rt s))
  end.

(** [Math.min(a, b)] for a value [a] and a number [b]. *)
Definition Math_min (rt : Runtime) (a : JSValue) (b : Z) : Outcome (option Z) :=
  bind (ToNumber rt a) (fun n =>
    Returned (match n with
              | Some x => Some (Z.min x b)
              | None => None
              end)).

End JS.
Export JS.

(* ===================================================================== *)
(** * [types/tool-response.ts] *)
(* ===================================================================== *)

Module Response.

Record IToolContent : Type := {
  type : string;          (* always ['text'] *)
  text : string
}.

(** [IToolResponse]; the optional fields [errorCode] and [requestId] are
    options, and every producer sets [isError]. *)
Record IToolResponse : Type := {
  content : list IToolContent;
  isError : bool;
  errorCode : option string;
  requestId : option string
}.

(** The keys of [ERROR_CODES]. *)
Inductive ErrorCode : Type :=
| RATE_LIMIT_EXCEEDED
| INVALID_PARAMETERS
| API_ERROR
| AUTHENTICATION_FAILED
| NETWORK_ERROR
| MOCK_MODE
| INTERNAL_ERROR.

(** [ERROR_CODES[key]] *)
Definition ERROR_CODES (c : ErrorCode) : string :=
  match c with
  | RATE_LIMIT_EXCEEDED => "RATE_LIMIT_EXCEEDED"
  | INVALID_PARAMETERS => "INVALID_PARAMETERS"
  | API_ERROR => "API_ERROR"
  | AUTHENTICATION_FAILED => "AUTHENTICATION_FAILED"
  | NETWORK_ERROR => "NETWORK_ERROR"
  | MOCK_MODE => "MOCK_MODE"
  | INTERNAL_ERROR => "INTERNAL_ERROR"
  end.

(** The values of [ERROR_CODES]: the closed set of error codes. *)
Definition ERROR_CODE_values : list string :=
  [ "RATE_LIMIT_EXCEEDED"; "INVALID_PARAMETERS"; "API_ERROR";
    "AUTHENTICATION_FAILED"; "NETWORK_ERROR"; "MOCK_MODE"; "INTERNAL_ERROR" ].

(** [ToolResponseBuilder.success] *)
Definition success (text : string) (requestId : option string) : IToolResponse :=
  {| content := [ {| type := "text"; text := text |} ];
     isError := false;
     errorCode := None;
     requestId := requestId |}.

(** [ToolResponseBuilder.error] *)
Definition error (text : string) (errorCode : ErrorCode) (requestId : option string)
  : IToolResponse :=
  {| content := [ {| type := "text"; text := text |} ];
     isError := true;
     errorCode := Some (ERROR_CODES errorCode);
     requestId := requestId |}.

(** [ToolResponseBuilder.mockResponse] *)
Definition mockResponse (mockData : string) (requestId : option string) : IToolResponse :=
  {| content := [ {| type := "text"; text := "[MOCK MODE] " +:+ mockData |} ];
     isError := false;
     requestId := requestId;
     errorCode := None |}.

(** The shape every envelope is to have: [isError] exactly when an
    [errorCode] is present, and at least one content block. *)
Definition well_formed (r : IToolResponse) : Prop :=
  (isError r = true <-> errorCode r <> None) /\ content r <> [].

(** The text of the first content block. *)
Definition first_text (r : IToolResponse) : string :=
  match content r with
  | [] => ""
  | c :: _ => text c
  end.

End Response.
Export Response.

(* ===================================================================== *)
(** * [utils/base-tool-handler.ts] *)
(* ===================================================================== *)

Module BaseToolHandler.

(** The upstream client ([apollo-api-client.ts]) is an external
    collaborator; the handlers modelled here call only [searchPeople]. *)
Record ApolloAPIClient : Type := {
  searchPeople : JSValue -> Outcome JSValue
}.

(** The fields of a handler instance. [rateLimitTracker] is the
    [Map<string, number[]>] of admitted timestamps per tool name. *)
Record t : Type := {
  apiClient : option ApolloAPIClient;
  rateLimitTracker : gmap string (list Z);
  maxRequestsPerMinute : Z;
  isMockMode : bool
}.

Definition set_tracker (h : t) (tracker : gmap string (list Z)) : t :=
  {| apiClient := apiClient h;
     rateLimitTracker := tracker;
     maxRequestsPerMinute := maxRequestsPerMinute h;
     isMockMode := isMockMode h |}.

(** [constructor(apiClient, maxRequestsPerMinute = 60)]; [NODE_ENV_test]
    is [process.env.NODE_ENV === 'test']. *)
Definition new (NODE_ENV_test : bool) (client : option ApolloAPIClient)
    (maxRequests : option Z) : t :=
  {| apiClient := client;
     rateLimitTracker := ∅;
     maxRequestsPerMinute :=
       if NODE_ENV_test then 3
       else match maxRequests with
            | Some m => m
            | None => 60
            end;
     isMockMode := match client with
                   | None => true
                   | Some _ => false
                   end |}.

(** [requests.filter(timestamp => timestamp > windowStart)] *)
Definition recent (windowStart : Z) (requests : list Z) : list Z :=
  List.filter (fun timestamp => windowStart <? timestamp) requests.

(** [checkRateLimit(toolName)] at clock reading [now]: the handler after
    the call, and whether the call returned or threw. *)
Definition checkRateLimit (h : t) (toolName : string) (now : Z) : t * Outcome unit :=
  let windowStart := now - 60000 in
  let h1 :=
    match rateLimitTracker h !! toolName with
    | Some _ => h
    | None => set_tracker h (<[toolName := []]> (rateLimitTracker h))
    end in
  let requests := default [] (rateLimitTracker h1 !! toolName) in
  let recentRequests := recent windowStart requests in
  if Z.of_nat (length recentRequests) >=? maxRequestsPerMinute h1 then
    (h1, Threw (ErrorObject
       ("Rate limit exceeded for " +:+ toolName +:+ ". Maximum " +:+
        pretty (maxRequestsPerMinute h1) +:+ " requests per minute allowed.")))
  else
    (set_tracker h1 (<[toolName := (recentRequests ++ [now])%list]> (rateLimitTracker h1)),
     Returned tt).

(** The handler once [checkRateLimit] has made sure that the tool name
    has a bucket, and the message of the error it throws. *)
Definition with_bucket (h : t) (toolName : string) : t :=
  match rateLimitTracker h !! toolName with
  | Some _ => h
  | None => set_tracker h (<[toolName := []]> (rateLimitTracker h))
  end.

Definition rate_limit_message (toolName : string) (quota : Z) : string :=
  "Rate limit exceeded for " +:+ toolName +:+ ". Maximum " +:+
  pretty quota +:+ " requests per minute allowed.".

(** The timestamps the tracker holds for a tool name. *)
Definition bucket (h : t) (toolName : string) : list Z :=
  default [] (rateLimitTracker h !! toolName).

(** Successive calls of [checkRateLimit(toolName)] at the clock readings
    [times]: the handler afterwards and the readings that were admitted. *)
Fixpoint admitted_calls (h : t) (toolName : string) (times : list Z) : t * list Z :=
  match times with
  | [] => (h, [])
  | now :: rest =>
      let (h1, outcome) := checkRateLimit h toolName now in
      let (h2, log) := admitted_calls h1 toolName rest in
      (h2, match outcome with
           | Returned _ => now :: log
           | Threw _ => log
           end)
  end.

(** [handleError(error, toolName, requestId)]; [String(error)] is the one
    step that can itself throw. *)
Definition handleError (error : Thrown) (toolName : string) (requestId : option string)
  : Outcome IToolResponse :=
  match error with
  | ErrorObject message =>
      if includes message "Rate limit exceeded" then
        Returned (Response.error message RATE_LIMIT_EXCEEDED requestId)
      else if includes message "authentication" then
        Returned (Response.error
          ("Authentication failed for " +:+ toolName +:+ ": " +:+ message)
          AUTHENTICATION_FAILED requestId)
      else if includes message "network" || includes message "fetch" then
        Returned (Response.error
          ("Network error in " +:+ toolName +:+ ": " +:+ message)
          NETWORK_ERROR requestId)
      else
        Returned (Response.error
          ("API error in " +:+ toolName +:+ ": " +:+ message)
          API_ERROR requestId)
  | NonError value =>
      bind (ToString value) (fun s =>
        Returned (Response.error
          ("Internal error in " +:+ toolName +:+ ": " +:+ s)
          INTERNAL_ERROR requestId))
  end.

(** Whether [validateRequired] finds [field] missing: absent, [null] or
    [undefined]. *)
Definition is_missing (typedParams : JSValue) (field : string) : bool :=
  negb (has_property typedParams field) || is_nullish (get_property typedParams field).

(** The loop of [validateRequired] over [requiredFields]. *)
Fixpoint check_fields (typedParams : JSValue) (requiredFields : list string)
    (toolName : string) : Outcome unit :=
  match requiredFields with
  | [] => Returned tt
  | field :: rest =>
      if is_missing typedParams field
      then Threw (ErrorObject
             ("Missing required parameter for " +:+ toolName +:+ ": " +:+ field))
      else check_fields typedParams rest toolName
  end.

(** [validateRequired(params, requiredFields, toolName)] *)
Definition validateRequired (params : JSValue) (requiredFields : list string)
    (toolName : string) : Outcome JSValue :=
  if negb (truthy params) || negb (typeof_object params) then
    Threw (ErrorObject ("Invalid parameters for " +:+ toolName +:+ ": expected object"))
  else
    bind (check_fields params requiredFields toolName) (fun _ => Returned params).

(** [generateRequestId()]: [now] is the reading of [Date.now()] and
    [random] the digits [Math.random().toString(36).substr(2, 9)]. *)
Definition generateRequestId (now : Z) (random : string) : string :=
  "req_" +:+ pretty now +:+ "_" +:+ random.

(** [createSuccessResponse(data, message, requestId)] *)
Definition createSuccessResponse (rt : Runtime) (data : JSValue)
    (message : option string) (requestId : option string) : IToolResponse :=
  let formattedMessage :=
    match message with
    | Some m => if String.eqb m "" then "Operation completed successfully" else m
    | None => "Operation completed successfully"
    end in
  let responseText := formattedMessage +:+ LF +:+ LF +:+ JSON_stringify rt data in
  Response.success responseText requestId.

(** [createMockResponse(mockData, toolName, requestId)] *)
Definition createMockResponse (rt : Runtime) (mockData : JSValue) (toolName : string)
    (requestId : option string) : IToolResponse :=
  let mockMessage :=
    "Mock response for " +:+ toolName +:+ ":" +:+ LF +:+ LF +:+ JSON_stringify rt mockData in
  Response.mockResponse mockMessage requestId.

End BaseToolHandler.

(* ===================================================================== *)
(** * The handler groups: [tools/lead-tools.ts] and its siblings *)
(* ===================================================================== *)

Module Tools.
Import BaseToolHandler.

(** The public methods of [LeadTools], [ContactTools], [SequenceTools],
    [DealTools] and [AnalyticsTools]. *)
Inductive Tool : Type :=
| SearchLeads | SearchOrganizations | BulkEnrichContacts | BulkEnrichOrganizations
| EnrichContact | CreateContact | UpdateContact | SearchContacts | GetAccountData
| CreateEmailSequence | SearchSequences | UpdateSequence | GetSequenceStats
| AddContactsToSequence | RemoveContactsFromSequence
| CreateDeal | UpdateDeal | SearchDeals
| TrackEngagement | SearchNews | SearchJobPostings | GetApiUsage | CreateTask
| LogCall | SearchTasks.

Definition all_tools : list Tool :=
  [ SearchLeads; SearchOrganizations; BulkEnrichContacts; BulkEnrichOrganizations;
    EnrichContact; CreateContact; UpdateContact; SearchContacts; GetAccountData;
    CreateEmailSequence; SearchSequences; UpdateSequence; GetSequenceStats;
    AddContactsToSequence; RemoveContactsFromSequence;
    CreateDeal; UpdateDeal; SearchDeals;
    TrackEngagement; SearchNews; SearchJobPostings; GetApiUsage; CreateTask;
    LogCall; SearchTasks ].

(** The literal each method passes to [checkRateLimit], [validateRequired]
    and [handleError]. *)
Definition toolName (tool : Tool) : string :=
  match tool with
  | SearchLeads => "search-leads"
  | SearchOrganizations => "search-organizations"
  | BulkEnrichContacts => "bulk-enrich-contacts"
  | BulkEnrichOrganizations => "bulk-enrich-organizations"
  | EnrichContact => "enrich-contact"
  | CreateContact => "create-contact"
  | UpdateContact => "update-contact"
  | SearchContacts => "search-contacts"
  | GetAccountData => "get-account-data"
  | CreateEmailSequence => "create-email-sequence"
  | SearchSequences => "search-sequences"
  | UpdateSequence => "update-sequence"
  | GetSequenceStats => "get-sequence-stats"
  | AddContactsToSequence => "add-contacts-to-sequence"
  | RemoveContactsFromSequence => "remove-contacts-from-sequence"
  | CreateDeal => "create-deal"
  | UpdateDeal => "update-deal"
  | SearchDeals => "search-deals"
  | TrackEngagement => "track-engagement"
  | SearchNews => "search-news"
  | SearchJobPostings => "search-job-postings"
  | GetApiUsage => "get-api-usage"
  | CreateTask => "create-task"
  | LogCall => "log-call"
  | SearchTasks => "search-tasks"
  end.

(** The [requiredFields] each method passes to [validateRequired]. *)
Definition requiredFields (tool : Tool) : list string :=
  match tool with
  | BulkEnrichContacts => ["contacts"]
  | BulkEnrichOrganizations => ["organizations"]
  | EnrichContact => ["email"]
  | CreateContact => ["firstName"; "lastName"; "email"]
  | UpdateContact => ["contactId"]
  | GetAccountData => ["domain"]
  | CreateEmailSequence => ["name"; "contacts"]
  | UpdateSequence => ["sequenceId"]
  | GetSequenceStats => ["sequenceId"]
  | AddContactsToSequence => ["sequenceId"]
  | RemoveContactsFromSequence => ["sequenceId"; "contactIds"]
  | CreateDeal => ["name"; "value"; "stage"]
  | UpdateDeal => ["dealId"]
  | TrackEngagement => ["sequenceId"]
  | CreateTask => ["title"; "dueDate"]
  | LogCall => ["contactId"]
  | SearchLeads | SearchOrganizations | SearchContacts | SearchSequences
  | SearchDeals | SearchNews | SearchJobPostings | GetApiUsage | SearchTasks => []
  end.

(** What one call reads from its environment: the clock and the random
    digits of [generateRequestId], then the clock of [checkRateLimit]. *)
Record CallEnv : Type := {
  idTime : Z;
  idRandom : string;
  now : Z
}.

(** The part of a method between [validateRequired] and its [catch]: it
    ends in [createSuccessResponse(data, message, requestId)], of which it
    yields [data] and [message], or it throws. *)
Definition Body : Type :=
  BaseToolHandler.t -> CallEnv -> JSValue -> Outcome (JSValue * option string).

(** ** [LeadTools.searchLeads] *)

(** [generateMockLeads(jobTitle, industry, companySize, location, limit)].
    The loop [for (let i = 0; i < count; i++)] makes [count] rounds for an
    integer [count], the numbers of the embedding being integers, and none
    when [count] is not positive or is [NaN]. *)
Definition generateMockLeads (rt : Runtime)
    (jobTitle industry companySize location limit : JSValue) : Outcome (list JSValue) :=
  let limit := match limit with
               | JUndefined => JNumber 25
               | _ => limit
               end in
  do count <- Math_min rt limit 10 ;;
  let iterations := match count with
                    | Some c => Z.to_nat c
                    | None => 0%nat
                    end in
  Returned
    (map (fun i : nat =>
            let n := pretty (Z.of_nat i + 1) in
            JObject
              [ ("name", JString ("Lead " +:+ n));
                ("title", or_else jobTitle (JString "Executive"));
                ("company", JString ("Company " +:+ n));
                ("industry", or_else industry (JString "Various"));
                ("size", or_else companySize (JString "50-200"));
                ("location", or_else location (JString "United States"));
                ("email", JString ("lead" +:+ n +:+ "@example.com")) ])
         (seq 0 iterations)).

(** The template literal of [formatLeads] for one lead. *)
Definition formatLead (lead : JSValue) : Outcome string :=
  do name <- (do v <- read lead "name" ;; ToString v) ;;
  do title <- (do v <- read lead "title" ;; ToString v) ;;
  do company <- (do v <- read lead "company" ;; ToString v) ;;
  do industry <- (do v <- read lead "industry" ;; ToString v) ;;
  do size <- (do v <- read lead "size" ;; ToString v) ;;
  do location <- (do v <- read lead "location" ;; ToString v) ;;
  Returned ("• " +:+ name +:+ " - " +:+ title +:+ " at " +:+ company +:+ " (" +:+
            industry +:+ ", " +:+ size +:+ " employees, " +:+ location +:+ ")").

Fixpoint map_outcome {A B : Type} (f : A -> Outcome B) (l : list A) : Outcome (list B) :=
  match l with
  | [] => Returned []
  | a :: rest => do b <- f a ;; do bs <- map_outcome f rest ;; Returned (b :: bs)
  end.

(** [formatLeads(leads)]: [leads.map(...).join('\n')]; anything but an
    array has no callable [map]. *)
Definition formatLeads (leads : JSValue) : Outcome string :=
  match leads with
  | JArray elems =>
      do lines <- map_outcome formatLead elems ;;
      Returned (String.concat LF lines)
  | _ => Threw (TypeError "leads.map is not a function")
  end.

(** The body of [searchLeads], from the destructuring of [params] to the
    arguments of [createSuccessResponse]. *)
Definition searchLeads_body (rt : Runtime) : Body := fun h env params =>
  let jobTitle := own_value params "jobTitle" in
  let industry := own_value params "industry" in
  let companySize := own_value params "companySize" in
  let location := own_value params "location" in
  let limit := match own_value params "limit" with
               | JUndefined => JNumber 25
               | v => v
               end in
  if negb (truthy jobTitle) && negb (truthy industry)
     && negb (truthy companySize) && negb (truthy location)
  then Threw (ErrorObject "At least one search criterion must be provided")
  else
    let mock :=
      do leads <- generateMockLeads rt jobTitle industry companySize location limit ;;
      Returned (JArray leads) in
    do results <-
      match apiClient h with
      | Some client =>
          if negb (isMockMode h) then
            try_catch
              (let optional v := if truthy v then JArray [v] else JUndefined in
               let searchParams :=
                 JObject [ ("job_titles", optional jobTitle);
                           ("industries", optional industry);
                           ("company_sizes", optional companySize);
                           ("locations", optional location);
                           ("limit", limit) ] in
               do response <- searchPeople client searchParams ;;
               do people <- read response "people" ;;
               Returned (or_else people (JArray [])))
              (fun apiError => mock)
          else mock
      | None => mock
      end ;;
    do count <- ToString (match get_property results "length" with
                       | OwnValue v => v
                       | _ => JUndefined
                       end) ;;
    do formatted <- formatLeads results ;;
    Returned
      (results,
       Some ("Found " +:+ count +:+ " leads matching your criteria:" +:+ LF +:+ LF +:+
             formatted)).

(** ** The shape every public method has

    [const requestId = this.generateRequestId();
     try { this.checkRateLimit(name);
           const params = this.validateRequired(args, fields, name);
           ... return this.createSuccessResponse(data, message, requestId); }
     catch (error) { return this.handleError(error, name, requestId); }] *)
Definition method (rt : Runtime) (name : string) (fields : list string) (body : Body)
    (h : BaseToolHandler.t) (env : CallEnv) (args : JSValue)
  : BaseToolHandler.t * Outcome IToolResponse :=
  let requestId := generateRequestId (idTime env) (idRandom env) in
  let (h1, admitted) := checkRateLimit h name (now env) in
  (h1,
   try_catch
     (do _ <- admitted ;;
      do params <- validateRequired args fields name ;;
      do result <- body h1 env params ;;
      Returned (createSuccessResponse rt (fst result) (snd result) (Some requestId)))
     (fun error => handleError error name (Some requestId))).

(** The bodies: [searchLeads] as written above, the other methods by
    their business logic [business], which builds data from the validated
    parameters and is left open. *)
Definition body_of (rt : Runtime) (business : Tool -> Body) (tool : Tool) : Body :=
  match tool with
  | SearchLeads => searchLeads_body rt
  | _ => business tool
  end.

(** The envelopes a method can hand back: a success, or an error whose
    code is neither [MOCK_MODE] nor [INVALID_PARAMETERS]. *)
Definition handler_envelope (e : IToolResponse) : Prop :=
  (exists text requestId, e = Response.success text requestId)
  \/ (exists text code requestId,
         e = Response.error text code requestId
         /\ code <> MOCK_MODE /\ code <> INVALID_PARAMETERS).

(** [handler.<method>(args)] for the method [tool]. *)
Definition call (rt : Runtime) (business : Tool -> Body) (tool : Tool)
    (h : BaseToolHandler.t) (env : CallEnv) (args : JSValue)
  : BaseToolHandler.t * Outcome IToolResponse :=
  method rt (toolName tool) (requiredFields tool) (body_of rt business tool) h env args.

(** [LeadTools.searchLeads(args)] *)
Definition searchLeads (rt : Runtime) (h : BaseToolHandler.t) (env : CallEnv)
    (args : JSValue) : BaseToolHandler.t * Outcome IToolResponse :=
  method rt "search-leads" [] (searchLeads_body rt) h env args.

End Tools.

(* ===================================================================== *)
(** * [apollo-tools-orchestrator.ts] *)
(* ===================================================================== *)

Module Orchestrator.
Import BaseToolHandler Tools.

Record t : Type := {
  leadTools : BaseToolHandler.t;
  contactTools : BaseToolHandler.t;
  sequenceTools : BaseToolHandler.t;
  dealTools : BaseToolHandler.t;
  analyticsTools : BaseToolHandler.t
}.

(** [getMaxRequestsPerMinute()] *)
Definition getMaxRequestsPerMinute (NODE_ENV_test : bool) : Z :=
  if NODE_ENV_test then 3 else 60.

(** [constructor(apiKey)]. The local [apiClient] is still [null] when the
    five handlers are constructed, with or without a key: the dynamic
    import assigns it only afterwards, and the handlers keep the [null]
    they were given. *)
Definition new (NODE_ENV_test : bool) (apiKey : option string) : t :=
  let apiClient : option ApolloAPIClient := None in
  let maxRequestsPerMinute := getMaxRequestsPerMinute NODE_ENV_test in
  {| leadTools := BaseToolHandler.new NODE_ENV_test apiClient (Some maxRequestsPerMinute);
     contactTools := BaseToolHandler.new NODE_ENV_test apiClient (Some maxRequestsPerMinute);
     sequenceTools := BaseToolHandler.new NODE_ENV_test apiClient (Some maxRequestsPerMinute);
     dealTools := BaseToolHandler.new NODE_ENV_test apiClient (Some maxRequestsPerMinute);
     analyticsTools := BaseToolHandler.new NODE_ENV_test apiClient (Some maxRequestsPerMinute) |}.

(** [request.params] of a [CallToolRequest]: [arguments] is a record of
    values or [undefined]. *)
Record CallToolRequest : Type := {
  name : string;
  arguments : option (list (string * JSValue))
}.

Definition isLeadTool (name : string) : bool :=
  array_includes
    ["search-leads"; "search-organizations"; "bulk-enrich-contacts";
     "bulk-enrich-organizations"] name.

Definition isContactTool (name : string) : bool :=
  array_includes
    ["enrich-contact"; "create-contact"; "update-contact"; "search-contacts";
     "get-account-data"] name.

Definition isSequenceTool (name : string) : bool :=
  array_includes
    ["create-email-sequence"; "search-sequences"; "update-sequence";
     "get-sequence-stats"; "add-contacts-to-sequence";
     "remove-contacts-from-sequence"] name.

Definition isDealTool (name : string) : bool :=
  array_includes ["create-deal"; "update-deal"; "search-deals"] name.

Definition isAnalyticsTool (name : string) : bool :=
  array_includes
    ["track-engagement"; "search-news"; "search-job-postings"; "get-api-usage";
     "create-task"; "log-call"; "search-tasks"] name.

(** A call on one of the five handler objects, with the object updated. *)
Definition Result : Type := (t * Outcome IToolResponse)%type.

Definition on_leadTools (o : t)
    (m : BaseToolHandler.t -> BaseToolHandler.t * Outcome IToolResponse) : Result :=
  let (h, r) := m (leadTools o) in
  ({| leadTools := h; contactTools := contactTools o; sequenceTools := sequenceTools o;
      dealTools := dealTools o; analyticsTools := analyticsTools o |}, r).

Definition on_contactTools (o : t)
    (m : BaseToolHandler.t -> BaseToolHandler.t * Outcome IToolResponse) : Result :=
  let (h, r) := m (contactTools o) in
  ({| leadTools := leadTools o; contactTools := h; sequenceTools := sequenceTools o;
      dealTools := dealTools o; analyticsTools := analyticsTools o |}, r).

Definition on_sequenceTools (o : t)
    (m : BaseToolHandler.t -> BaseToolHandler.t * Outcome IToolResponse) : Result :=
  let (h, r) := m (sequenceTools o) in
  ({| leadTools := leadTools o; contactTools := contactTools o; sequenceTools := h;
      dealTools := dealTools o; analyticsTools := analyticsTools o |}, r).

Definition on_dealTools (o : t)
    (m : BaseToolHandler.t -> BaseToolHandler.t * Outcome IToolResponse) : Result :=
  let (h, r) := m (dealTools o) in
  ({| leadTools := leadTools o; contactTools := contactTools o;
      sequenceTools := sequenceTools o; dealTools := h;
      analyticsTools := analyticsTools o |}, r).

Definition on_analyticsTools (o : t)
    (m : BaseToolHandler.t -> BaseToolHandler.t * Outcome IToolResponse) : Result :=
  let (h, r) := m (analyticsTools o) in
  ({| leadTools := leadTools o; contactTools := contactTools o;
      sequenceTools := sequenceTools o; dealTools := dealTools o;
      analyticsTools := h |}, r).

Section Dispatch.
Variable rt : Runtime.
Variable business : Tool -> Body.

Definition callLeadTool (o : t) (env : CallEnv) (name : string) (args : JSValue) : Result :=
  switch name
    [ ("search-leads", on_leadTools o (fun h => call rt business SearchLeads h env args));
      ("search-organizations",
        on_leadTools o (fun h => call rt business SearchOrganizations h env args));
      ("bulk-enrich-contacts",
        on_leadTools o (fun h => call rt business BulkEnrichContacts h env args));
      ("bulk-enrich-organizations",
        on_leadTools o (fun h => call rt business BulkEnrichOrganizations h env args)) ]
    (o, Threw (ErrorObject ("Invalid lead tool: " +:+ name))).

Definition callContactTool (o : t) (env : CallEnv) (name : string) (args : JSValue)
  : Result :=
  switch name
    [ ("enrich-contact",
        on_contactTools o (fun h => call rt business EnrichContact h env args));
      ("create-contact",
        on_contactTools o (fun h => call rt business CreateContact h env args));
      ("update-contact",
        on_contactTools o (fun h => call rt business UpdateContact h env args));
      ("search-contacts",
        on_contactTools o (fun h => call rt business SearchContacts h env args));
      ("get-account-data",
        on_contactTools o (fun h => call rt business GetAccountData h env args)) ]
    (o, Threw (ErrorObject ("Invalid contact tool: " +:+ name))).

Definition callSequenceTool (o : t) (env : CallEnv) (name : string) (args : JSValue)
  : Result :=
  switch name
    [ ("create-email-sequence",
        on_sequenceTools o (fun h => call rt business CreateEmailSequence h env args));
      ("search-sequences",
        on_sequenceTools o (fun h => call rt business SearchSequences h env args));
      ("update-sequence",
        on_sequenceTools o (fun h => call rt business UpdateSequence h env args));
      ("get-sequence-stats",
        on_sequenceTools o (fun h => call rt business GetSequenceStats h env args));
      ("add-contacts-to-sequence",
        on_sequenceTools o (fun h => call rt business AddContactsToSequence h env args));
      ("remove-contacts-from-sequence",
        on_sequenceTools o
          (fun h => call rt business RemoveContactsFromSequence h env args)) ]
    (o, Threw (ErrorObject ("Invalid sequence tool: " +:+ name))).

Definition callDealTool (o : t) (env : CallEnv) (name : string) (args : JSValue) : Result :=
  switch name
    [ ("create-deal", on_dealTools o (fun h => call rt business CreateDeal h env args));
      ("update-deal", on_dealTools o (fun h => call rt business UpdateDeal h env args));
      ("search-deals", on_dealTools o (fun h => call rt business SearchDeals h env args)) ]
    (o, Threw (ErrorObject ("Invalid deal tool: " +:+ name))).

Definition callAnalyticsTool (o : t) (env : CallEnv) (name : string) (args : JSValue)
  : Result :=
  switch name
    [ ("track-engagement",
        on_analyticsTools o (fun h => call rt business TrackEngagement h env args));
      ("search-news",
        on_analyticsTools o (fun h => call rt business SearchNews h env args));
      ("search-job-postings",
        on_analyticsTools o (fun h => call rt business SearchJobPostings h env args));
      ("get-api-usage",
        on_analyticsTools o (fun h => call rt business GetApiUsage h env args));
      ("create-task",
        on_analyticsTools o (fun h => call rt business CreateTask h env args));
      ("log-call", on_analyticsTools o (fun h => call rt business LogCall h env args));
      ("search-tasks",
        on_analyticsTools o (fun h => call rt business SearchTasks h env args)) ]
    (o, Threw (ErrorObject ("Invalid analytics tool: " +:+ name))).

(** [dispatchTool(toolName, args)] *)
Definition dispatchTool (o : t) (env : CallEnv) (toolName : string) (args : JSValue)
  : Result :=
  if isLeadTool toolName then callLeadTool o env toolName args
  else if isContactTool toolName then callContactTool o env toolName args
  else if isSequenceTool toolName then callSequenceTool o env toolName args
  else if isDealTool toolName then callDealTool o env toolName args
  else if isAnalyticsTool toolName then callAnalyticsTool o env toolName args
  else (o, Returned (Response.error ("Unknown tool: " +:+ toolName)
                       INVALID_PARAMETERS None)).

(** [handleToolError(toolName, error)] *)
Definition handleToolError (toolName : string) (error : Thrown) : Outcome IToolResponse :=
  let internal :=
    do detail <- match error with
                 | ErrorObject message => Returned message
                 | NonError value => ToString value
                 end ;;
    Returned (Response.error ("Internal error in " +:+ toolName +:+ ": " +:+ detail)
                INTERNAL_ERROR None) in
  match error with
  | ErrorObject message =>
      if includes message "Rate limit exceeded" then
        Returned (Response.error message RATE_LIMIT_EXCEEDED None)
      else if includes message "authentication" then
        Returned (Response.error message AUTHENTICATION_FAILED None)
      else if includes message "Missing required" then
        Returned (Response.error message INVALID_PARAMETERS None)
      else internal
  | NonError _ => internal
  end.

(** [handleToolCall(request)] *)
Definition handleToolCall (o : t) (env : CallEnv) (request : CallToolRequest) : Result :=
  match arguments request with
  | None =>
      (o, Returned (Response.error "Missing required parameters" INVALID_PARAMETERS None))
  | Some args =>
      let (o1, outcome) := dispatchTool o env (name request) (JObject args) in
      (o1, try_catch outcome (handleToolError (name request)))
  end.

(** Successive calls [handleToolCall(request)], one per environment: the
    orchestrator afterwards and what each call handed back. *)
Fixpoint tool_calls (o : t) (request : CallToolRequest) (envs : list CallEnv)
  : t * list (Outcome IToolResponse) :=
  match envs with
  | [] => (o, [])
  | env :: rest =>
      let (o1, outcome) := handleToolCall o env request in
      let (o2, outcomes) := tool_calls o1 request rest in
      (o2, outcome :: outcomes)
  end.

End Dispatch.

(** Whether [dispatchTool] finds a handler group for the name. *)
Definition registered (name : string) : bool :=
  isLeadTool name || isContactTool name || isSequenceTool name
  || isDealTool name || isAnalyticsTool name.

(** The handler object whose method [tool] is. *)
Definition handler_for (o : t) (tool : Tool) : BaseToolHandler.t :=
  match tool with
  | SearchLeads | SearchOrganizations | BulkEnrichContacts
  | BulkEnrichOrganizations => leadTools o
  | EnrichContact | CreateContact | UpdateContact | SearchContacts
  | GetAccountData => contactTools o
  | CreateEmailSequence | SearchSequences | UpdateSequence | GetSequenceStats
  | AddContactsToSequence | RemoveContactsFromSequence => sequenceTools o
  | CreateDeal | UpdateDeal | SearchDeals => dealTools o
  | TrackEngagement | SearchNews | SearchJobPostings | GetApiUsage | CreateTask
  | LogCall | SearchTasks => analyticsTools o
  end.

Definition on_handler_for (o : t) (tool : Tool)
    (m : BaseToolHandler.t -> BaseToolHandler.t * Outcome IToolResponse) : Result :=
  match tool with
  | SearchLeads | SearchOrganizations | BulkEnrichContacts
  | BulkEnrichOrganizations => on_leadTools o m
  | EnrichContact | CreateContact | UpdateContact | SearchContacts
  | GetAccountData => on_contactTools o m
  | CreateEmailSequence | SearchSequences | UpdateSequence | GetSequenceStats
  | AddContactsToSequence | RemoveContactsFromSequence => on_sequenceTools o m
  | CreateDeal | UpdateDeal | SearchDeals => on_dealTools o m
  | TrackEngagement | SearchNews | SearchJobPostings | GetApiUsage | CreateTask
  | LogCall | SearchTasks => on_analyticsTools o m
  end.

(** The envelopes [handleToolCall] can hand back. *)
Definition dispatch_envelope (e : IToolResponse) : Prop :=
  (exists text requestId, e = Response.success text requestId)
  \/ (exists text code requestId,
         e = Response.error text code requestId /\ code <> MOCK_MODE).

(** [getAvailableTools()] *)
Definition getAvailableTools : list string :=
  [ "search-leads"; "search-organizations"; "bulk-enrich-contacts";
    "bulk-enrich-organizations";
    "enrich-contact"; "create-contact"; "update-contact"; "search-contacts";
    "get-account-data";
    "create-email-sequence"; "search-sequences"; "update-sequence";
    "get-sequence-stats"; "add-contacts-to-sequence"; "remove-contacts-from-sequence";
    "create-deal"; "update-deal"; "search-deals";
    "track-engagement"; "search-news"; "search-job-postings"; "get-api-usage";
    "create-task"; "log-call"; "search-tasks" ].

End Orchestrator.

(* ===================================================================== *)
(** * [server-refactored.ts] *)
(* ===================================================================== *)

Module MCPServer.

(** A [StreamableHTTPServerTransport] object, by identity. *)
Definition Transport : Type := nat.

(** [createErrorResponse(message)] *)
Record ErrorResponse : Type := {
  jsonrpc : string;
  error_code : Z;
  error_message : string
}.

Definition createErrorResponse (message : string) : ErrorResponse :=
  {| jsonrpc := "2.0"; error_code := -32603; error_message := message |}.

(** What a request gets back: the response a transport wrote while
    handling it, or [res.status(status).json(body)]. *)
Inductive Reply : Type :=
| HandledBy (transport : Transport)
| Json (status : Z) (body : ErrorResponse).

(** What [this.transports[sessionId]] evaluates to. [transports] is a
    plain object: a key it does not store still resolves when
    [Object.prototype] defines it. *)
Inductive Lookup : Type :=
| Stored (transport : Transport)
| Inherited
| Undefined.

Definition transports_get (transports : gmap string Transport) (sessionId : string)
  : Lookup :=
  match transports !! sessionId with
  | Some transport => Stored transport
  | None => if name_in Object_prototype_names sessionId then Inherited else Undefined
  end.

(** [isInitializeRequest(body)] *)
Definition isInitializeRequest (body : JSValue) : bool :=
  if negb (truthy body) || negb (typeof_object body) then false
  else match get_property body "method" with
       | OwnValue (JString method) => String.eqb method "initialize"
       | _ => false
       end.

(** The collaborators of one POST: how an existing transport handles the
    request, and, for an initialization, the transport constructed, how
    [server.connect] and its [handleRequest] end, and the [sessionId] it
    then carries (a [randomUUID()], or [undefined]). *)
Record PostEnv : Type := {
  handleRequest : Transport -> Outcome unit;
  created : Transport;
  connect : Outcome unit;
  handleInitial : Outcome unit;
  newSessionId : option string
}.

(** [handlePostRequest(req, res)]: [sessionId] is the value of the
    [mcp-session-id] header and [body] is [req.body]. *)
Definition handlePostRequest (transports : gmap string Transport) (env : PostEnv)
    (sessionId : option string) (body : JSValue) : gmap string Transport * Reply :=
  let sessionId_truthy :=
    match sessionId with
    | Some s => negb (String.eqb s "")
    | None => false
    end in
  let found :=
    match sessionId with
    | Some s => if sessionId_truthy then transports_get transports s else Undefined
    | None => Undefined
    end in
  let attempt : Outcome (gmap string Transport * Reply) :=
    match found with
    | Stored transport =>
        do _ <- handleRequest env transport ;;
        Returned (transports, HandledBy transport)
    | Inherited => Threw (TypeError "transport.handleRequest is not a function")
    | Undefined =>
        if negb sessionId_truthy && isInitializeRequest body then
          let transport := created env in
          do _ <- connect env ;;
          do _ <- handleInitial env ;;
          Returned
            (match newSessionId env with
             | Some id =>
                 if String.eqb id "" then transports
                 else <[id := transport]> transports
             | None => transports
             end,
             HandledBy transport)
        else
          Returned
            (transports,
             Json 400 (createErrorResponse "Bad Request: invalid session ID or method."))
    end in
  match attempt with
  | Returned result => result
  | Threw _ => (transports, Json 500 (createErrorResponse "Internal server error."))
  end.

(** ** [streamMessages(transport)] and the heartbeat timer

    The notifications passed to [transport.send]. *)
Inductive Notification : Type :=
| ConnectionEstablished
| Heartbeat.

(** The timer behind [heartbeatInterval]. *)
Inductive Interval : Type :=
| NotSet
| Active
| Cleared.

(** The state of one stream: the calls of [transport.send] so far (oldest
    first), the timer, whether the [onClose] callback is registered, the
    heartbeat sends not yet settled, and how often [clearInterval] ran. *)
Record Stream : Type := {
  sent : list Notification;
  heartbeatInterval : Interval;
  onCloseRegistered : bool;
  pendingSends : nat;
  clearIntervalCalls : nat
}.

(** [clearInterval(heartbeatInterval)] *)
Definition clearInterval (s : Stream) : Stream :=
  {| sent := sent s;
     heartbeatInterval := match heartbeatInterval s with
                          | Active => Cleared
                          | i => i
                          end;
     onCloseRegistered := onCloseRegistered s;
     pendingSends := pendingSends s;
     clearIntervalCalls := S (clearIntervalCalls s) |}.

(** [transport.onClose(callback)] on the transport the server creates: a
    [StreamableHTTPServerTransport] of the SDK has an [onclose] property
    and no [onClose] method, so the call is a TypeError. *)
Definition StreamableHTTPServerTransport_onClose : Outcome unit :=
  Threw (TypeError "transport.onClose is not a function").

(** [streamMessages(transport)] up to its return, given how the first
    [transport.send] and the call [transport.onClose(callback)] end. The
    first notification is sent; when that fails the [catch] logs and
    nothing is set up. Otherwise the interval is started and
    [transport.onClose] is called: the callback is registered when the
    call returns; when it throws, the [catch] logs, the interval stays as
    started and no callback exists. *)
Definition streamMessages (firstSend : Outcome unit) (onClose : Outcome unit) : Stream :=
  match firstSend with
  | Returned _ =>
      {| sent := [ConnectionEstablished]; heartbeatInterval := Active;
         onCloseRegistered := match onClose with
                              | Returned _ => true
                              | Threw _ => false
                              end;
         pendingSends := 0; clearIntervalCalls := 0 |}
  | Threw _ =>
      {| sent := [ConnectionEstablished]; heartbeatInterval := NotSet;
         onCloseRegistered := false; pendingSends := 0; clearIntervalCalls := 0 |}
  end.

(** What can happen next to a stream: the interval callback runs, the
    continuation of a heartbeat [await transport.send(...)] runs (resolved
    or rejected), the channel closes. *)
Inductive Event : Type :=
| TimerFires
| SendSettles (rejected : bool)
| ChannelCloses.

(** One turn; [None] when the event cannot occur: a timer that is not
    active does not fire, a continuation needs a pending send. When the
    channel closes, the callback given to [transport.onClose] runs if one
    was registered, and nothing runs otherwise. *)
Definition step (s : Stream) (e : Event) : option Stream :=
  match e with
  | TimerFires =>
      match heartbeatInterval s with
      | Active =>
          Some {| sent := (sent s ++ [Heartbeat])%list;
                  heartbeatInterval := Active;
                  onCloseRegistered := onCloseRegistered s;
                  pendingSends := S (pendingSends s);
                  clearIntervalCalls := clearIntervalCalls s |}
      | _ => None
      end
  | SendSettles rejected =>
      match pendingSends s with
      | O => None
      | S n =>
          let s1 := {| sent := sent s;
                       heartbeatInterval := heartbeatInterval s;
                       onCloseRegistered := onCloseRegistered s;
                       pendingSends := n;
                       clearIntervalCalls := clearIntervalCalls s |} in
          Some (if rejected then clearInterval s1 else s1)
      end
  | ChannelCloses =>
      Some (if onCloseRegistered s then clearInterval s else s)
  end.

Fixpoint run (s : Stream) (events : list Event) : option Stream :=
  match events with
  | [] => Some s
  | e :: rest =>
      match step s e with
      | Some s1 => run s1 rest
      | None => None
      end
  end.

(** 1 once the timer is cleared, 0 before. *)
Definition cleared_count (s : Stream) : nat :=
  match heartbeatInterval s with
  | Cleared => 1
  | _ => 0
  end.

(** The number of turns of a run in which the timer goes from active to
    cleared. *)
Fixpoint cancellations (s : Stream) (events : list Event) : nat :=
  match events with
  | [] => 0
  | e :: rest =>
      match step s e with
      | Some s1 =>
          ((match heartbeatInterval s, heartbeatInterval s1 with
            | Active, Cleared => 1
            | _, _ => 0
            end) + cancellations s1 rest)%nat
      | None => 0
      end
  end.

End MCPServer.

(* ===================================================================== *)
(** * The sliding window in the words of the specification *)
(* ===================================================================== *)

Module SlidingWindow.
Import BaseToolHandler.

(** A call at [now] is admitted exactly when fewer than [quota] of the
    calls admitted so far lie strictly inside the trailing window of
    60000 ms (an age of exactly 60000 ms has expired). [history] is every
    admitted reading, never pruned. *)
Fixpoint admitted (quota : Z) (history : list Z) (times : list Z) : list Z :=
  match times with
  | [] => []
  | now :: rest =>
      if Z.of_nat (length (recent (now - 60000) history)) <? quota
      then now :: admitted quota (history ++ [now])%list rest
      else admitted quota history rest
  end.

(** The same rule call by call: [true] for a call that is admitted. *)
Fixpoint verdicts (quota : Z) (history : list Z) (times : list Z) : list bool :=
  match times with
  | [] => []
  | now :: rest =>
      if Z.of_nat (length (recent (now - 60000) history)) <? quota
      then true :: verdicts quota (history ++ [now])%list rest
      else false :: verdicts quota history rest
  end.

(** The admitted readings that fall in the window ending at [T]:
    [T - 60000 < t <= T]. *)
Definition in_window (T : Z) (log : list Z) : list Z :=
  List.filter (fun t => (T - 60000 <? t) && (t <=? T)) log.

(** Clock readings that never go back. *)
Fixpoint nondecreasing (times : list Z) : bool :=
  match times with
  | [] => true
  | a :: rest =>
      match rest with
      | [] => true
      | b :: _ => (a <=? b) && nondecreasing rest
      end
  end.

End SlidingWindow.

(* ===================================================================== *)
(** * Closed inputs for the examples *)
(* ===================================================================== *)

Module Fixture.
Import BaseToolHandler Tools Orchestrator.

(** A runtime whose answers stand for those of the engine; no result
    below depends on them. *)
Definition runtime : Runtime :=
  {| JSON_stringify := fun _ => "{}"; StringToNumber := fun _ => None |}.

(** Business logic that returns an empty object and no message. *)
Definition business : Tool -> Body :=
  fun _ _ _ _ => Returned (JObject [], None).

Definition env (t : Z) : CallEnv :=
  {| idTime := t; idRandom := "k3v9x0q1z"; now := t |}.

(** The orchestrator as constructed outside the test environment,
    without an API key. *)
Definition orchestrator : Orchestrator.t := Orchestrator.new false None.

End Fixture.

(* ===================================================================== *)
(** * [config/tool-definitions.ts] *)
(* ===================================================================== *)

Module ToolDefinitions.

(** One entry of [toolDefinitions]: its [name], the keys of
    [inputSchema.properties] and [inputSchema.required]. *)
Record ToolDefinition : Type := {
  name : string;
  properties : list string;
  required : list string
}.

Definition toolDefinitions : list ToolDefinition :=
[
  {| name := "search-leads";
     properties := ["jobTitle"; "industry"; "companySize"; "location"; "limit"];
     required := [] |};
  {| name := "search-organizations";
     properties := ["industry"; "employeeCount"; "revenue"; "location";
                    "technologies"; "limit"];
     required := [] |};
  {| name := "bulk-enrich-contacts";
     properties := ["contacts"; "revealPersonalEmails"; "revealPhoneNumbers"];
     required := ["contacts"] |};
  {| name := "bulk-enrich-organizations";
     properties := ["organizations"];
     required := ["organizations"] |};
  {| name := "enrich-contact";
     properties := ["email"; "linkedinUrl"];
     required := ["email"] |};
  {| name := "create-contact";
     properties := ["firstName"; "lastName"; "email"; "title"; "company";
                    "phone"; "linkedinUrl"; "accountId"];
     required := ["firstName"; "lastName"; "email"] |};
  {| name := "update-contact";
     properties := ["contactId"];
     required := ["contactId"] |};
  {| name := "search-contacts";
     properties := ["query"; "accountId"; "jobTitle"; "company";
                    "lastContactedDays"; "limit"];
     required := [] |};
  {| name := "get-account-data";
     properties := ["domain"; "includeContacts"];
     required := ["domain"] |};
  {| name := "create-email-sequence";
     properties := ["name"; "contacts"; "templateIds"; "delayDays"];
     required := ["name"; "contacts"] |};
  {| name := "search-sequences";
     properties := ["query"; "status"; "createdAfter"; "createdBefore"; "limit"];
     required := [] |};
  {| name := "update-sequence";
     properties := ["sequenceId"; "name"; "status"; "templateIds"; "delayDays"];
     required := ["sequenceId"] |};
  {| name := "get-sequence-stats";
     properties := ["sequenceId"; "startDate"; "endDate"];
     required := ["sequenceId"] |};
  {| name := "add-contacts-to-sequence";
     properties := ["sequenceId"; "contactIds"; "emails"];
     required := ["sequenceId"] |};
  {| name := "remove-contacts-from-sequence";
     properties := ["sequenceId"; "contactIds"];
     required := ["sequenceId"; "contactIds"] |};
  {| name := "create-deal";
     properties := ["name"; "value"; "stage"; "contactId"; "accountId";
                    "closeDate"; "probability"; "description"];
     required := ["name"; "value"; "stage"] |};
  {| name := "update-deal";
     properties := ["dealId"];
     required := ["dealId"] |};
  {| name := "search-deals";
     properties := ["stage"; "minValue"; "maxValue"; "accountId"; "contactId";
                    "closeDateStart"; "closeDateEnd"; "limit"];
     required := [] |};
  {| name := "track-engagement";
     properties := ["sequenceId"; "startDate"; "endDate"];
     required := ["sequenceId"] |};
  {| name := "search-news";
     properties := ["query"; "organizationId"; "industry"; "startDate";
                    "endDate"; "limit"];
     required := [] |};
  {| name := "search-job-postings";
     properties := ["query"; "company"; "location"; "jobTitle"; "department";
                    "limit"];
     required := [] |};
  {| name := "get-api-usage";
     properties := ["startDate"; "endDate"];
     required := [] |};
  {| name := "create-task";
     properties := ["title"; "description"; "dueDate"; "priority"; "contactId";
                    "accountId"; "dealId"; "type"];
     required := ["title"; "dueDate"] |};
  {| name := "log-call";
     properties := ["contactId"; "callOutcome"; "callNotes"; "callDuration";
                    "followUpRequired"; "callDate"];
     required := ["contactId"] |};
  {| name := "search-tasks";
     properties := ["assignedTo"; "status"; "dueDateStart"; "dueDateEnd";
                    "contactId"; "accountId"; "dealId"; "priority"; "type";
                    "limit"];
     required := [] |}
].

End ToolDefinitions.

(* ===================================================================== *)
(** * More of the handler groups *)
(* ===================================================================== *)

Module LeadTools.
Import BaseToolHandler Tools.

(** The values that are neither arrays nor objects. *)
Definition primitive (v : JSValue) : bool :=
  match v with
  | JArray _ | JObject _ => false
  | _ => true
  end.

(** The primitive values the embedding prints digit for digit: every one
    but the numbers beyond the safe integers. *)
Definition printable (v : JSValue) : bool :=
  primitive v && match v with
                 | JNumber n => safe_integer n
                 | _ => true
                 end.

(** [generateMockOrganizations(industry, size, revenue, location, limit)] *)
Definition generateMockOrganizations (rt : Runtime)
    (industry size revenue location limit : JSValue) : Outcome (list JSValue) :=
  let limit := match limit with
               | JUndefined => JNumber 25
               | _ => limit
               end in
  do count <- Math_min rt limit 10 ;;
  let iterations := match count with
                    | Some c => Z.to_nat c
                    | None => 0%nat
                    end in
  Returned
    (map (fun i : nat =>
            let n := pretty (Z.of_nat i + 1) in
            JObject
              [ ("name", JString ("Organization " +:+ n));
                ("industry", or_else industry (JString "Various"));
                ("employeeCount", or_else size (JString "50-200"));
                ("revenue", or_else revenue (JString "$1M-$10M"));
                ("location", or_else location (JString "United States"));
                ("domain", JString ("org" +:+ n +:+ ".com")) ])
         (seq 0 iterations)).

(** The template literal of [formatOrganizations] for one organization. *)
Definition formatOrganization (org : JSValue) : Outcome string :=
  do name <- (do v <- read org "name" ;; ToString v) ;;
  do industry <- (do v <- read org "industry" ;; ToString v) ;;
  do employeeCount <- (do v <- read org "employeeCount" ;; ToString v) ;;
  do revenue <- (do v <- read org "revenue" ;; ToString v) ;;
  do location <- (do v <- read org "location" ;; ToString v) ;;
  Returned ("• " +:+ name +:+ " - " +:+ industry +:+ " (" +:+ employeeCount +:+
            " employees, " +:+ revenue +:+ ", " +:+ location +:+ ")").

(** [formatOrganizations(orgs)] for the array [orgs]. *)
Definition formatOrganizations (orgs : list JSValue) : Outcome string :=
  do lines <- map_outcome formatOrganization orgs ;;
  Returned (String.concat LF lines).

(** [!technologies || technologies.length === 0]: a truthy value has
    length 0 when it is the empty array or an object whose own [length] is
    the number 0. *)
Definition no_technologies (technologies : JSValue) : bool :=
  negb (truthy technologies)
  || match technologies with
     | JArray elems => match elems with
                       | [] => true
                       | _ => false
                       end
     | JObject props => match own_property props "length" with
                        | Some (JNumber n) => n =? 0
                        | _ => false
                        end
     | _ => false
     end.

(** The body of [searchOrganizations]. *)
Definition searchOrganizations_body (rt : Runtime) : Body := fun h env params =>
  let industry := own_value params "industry" in
  let employeeCount := own_value params "employeeCount" in
  let revenue := own_value params "revenue" in
  let location := own_value params "location" in
  let technologies := own_value params "technologies" in
  let limit := match own_value params "limit" with
               | JUndefined => JNumber 25
               | v => v
               end in
  if negb (truthy industry) && negb (truthy employeeCount) && negb (truthy revenue)
     && negb (truthy location) && no_technologies technologies
  then Threw (ErrorObject "At least one search parameter is required")
  else
    do mockResults <-
      generateMockOrganizations rt industry employeeCount revenue location limit ;;
    do formatted <- formatOrganizations mockResults ;;
    Returned
      (JArray mockResults,
       Some ("Found " +:+ pretty (Z.of_nat (length mockResults)) +:+
             " organizations matching your criteria:" +:+ LF +:+ LF +:+ formatted)).

(** [LeadTools.searchOrganizations(args)] *)
Definition searchOrganizations (rt : Runtime) (h : BaseToolHandler.t) (env : CallEnv)
    (args : JSValue) : BaseToolHandler.t * Outcome IToolResponse :=
  method rt "search-organizations" [] (searchOrganizations_body rt) h env args.

End LeadTools.

Module ContactTools.
Import BaseToolHandler Tools.

(** [email === 'nonexistent@example.com'] *)
Definition is_nonexistent (email : JSValue) : bool :=
  match email with
  | JString s => String.eqb s "nonexistent@example.com"
  | _ => false
  end.

(** The body of [enrichContact]. *)
Definition enrichContact_body : Body := fun h env params =>
  let email := own_value params "email" in
  let linkedinUrl := own_value params "linkedinUrl" in
  if is_nonexistent email then
    Returned (JNull, Some "Contact not found in Apollo.io database")
  else
    let enrichedData :=
      JObject
        [ ("email", email);
          ("name", JString "John Doe");
          ("title", JString "CEO");
          ("company", JString "JetVision");
          ("phone", JString "+1-555-0123");
          ("linkedIn", or_else linkedinUrl (JString "https://linkedin.com/in/johndoe"));
          ("twitter", JString "@johndoe") ] in
    Returned (enrichedData, Some "Successfully enriched contact data").

(** [ContactTools.enrichContact(args)] *)
Definition enrichContact (rt : Runtime) (h : BaseToolHandler.t) (env : CallEnv)
    (args : JSValue) : BaseToolHandler.t * Outcome IToolResponse :=
  method rt "enrich-contact" ["email"] enrichContact_body h env args.

(** [const { contactId, ...updates } = params; const updateData = { ...updates };
    delete updateData.contactId]: the own properties of [params] other than
    [key], in their order; those of an array are its elements under their
    indices. [validateRequired] has let through objects and arrays only. *)
Definition rest_without (key : string) (params : JSValue) : list (string * JSValue) :=
  match params with
  | JObject props => List.filter (fun p => negb (String.eqb (fst p) key)) props
  | JArray elems =>
      List.filter (fun p => negb (String.eqb (fst p) key))
        (imap (fun (i : nat) v => (pretty i, v)) elems)
  | _ => []
  end.

(** The body of [updateContact]. *)
Definition updateContact_body : Body := fun h env params =>
  let contactId := own_value params "contactId" in
  let updateData := JObject (rest_without "contactId" params) in
  do id <- ToString contactId ;;
  Returned (updateData, Some ("Contact " +:+ id +:+ " updated successfully")).

(** [ContactTools.updateContact(args)] *)
Definition updateContact (rt : Runtime) (h : BaseToolHandler.t) (env : CallEnv)
    (args : JSValue) : BaseToolHandler.t * Outcome IToolResponse :=
  method rt "update-contact" ["contactId"] updateContact_body h env args.

End ContactTools.

(* ===================================================================== *)
(** * More of [server-refactored.ts] *)
(* ===================================================================== *)

Module Endpoints.
Import BaseToolHandler Tools Orchestrator MCPServer.

(** The handler [setupToolHandlers] registers for [tools/list]. *)
Definition toolsList : list ToolDefinitions.ToolDefinition :=
  ToolDefinitions.toolDefinitions.



(** The collaborators of one GET: how the transport handles the request
    and how the first [transport.send] of [streamMessages] ends. *)
Record GetEnv : Type := {
  handleStream : Transport -> Outcome unit;
  firstSend : Transport -> Outcome unit
}.

(** [handleGetRequest(req, res)]: the reply, and the stream
    [streamMessages] sets up when it is reached, on a transport of the
    table, which [handlePostRequest] created as a
    [StreamableHTTPServerTransport]. Nothing is caught here: a failure of
    [transport.handleRequest] leaves the function as an exception. *)
Definition handleGetRequest (transports : gmap string Transport) (env : GetEnv)
    (sessionId : option string) : Outcome (Reply * option Stream) :=
  let found :=
    match sessionId with
    | Some s => if String.eqb s "" then Undefined else transports_get transports s
    | None => Undefined
    end in
  match found with
  | Undefined =>
      Returned (Json 400 (createErrorResponse "Bad Request: invalid session ID or method."),
                None)
  | Stored transport =>
      do _ <- handleStream env transport ;;
      Returned (HandledBy transport,
                Some (streamMessages (firstSend env transport)
                        StreamableHTTPServerTransport_onClose))
  | Inherited => Threw (TypeError "transport.handleRequest is not a function")
  end.

(** The heartbeats among the notifications sent. *)
Definition heartbeats (l : list Notification) : nat :=
  length (List.filter (fun n => match n with
                                | Heartbeat => true
                                | _ => false
                                end) l).

(** The turns of a run in which the interval callback ran. *)
Definition timer_fires (events : list Event) : nat :=
  length (List.filter (fun e => match e with
                                | TimerFires => true
                                | _ => false
                                end) events).

(** The turns of a run in which a heartbeat send settled. *)
Definition settled (events : list Event) : nat :=
  length (List.filter (fun e => match e with
                                | SendSettles _ => true
                                | _ => false
                                end) events).

End Endpoints.

(* ===================================================================== *)
(** * Properties *)
(* ===================================================================== *)

Import BaseToolHandler Tools Orchestrator SlidingWindow MCPServer.
Import LeadTools ContactTools Endpoints.

(** ** Strings and conversions *)

Section Strings.

Lemma prefix_append (s rest : string) : String.prefix s (s +:+ rest) = true.
Proof.
  induction s as [|a s IH]; simpl.
  - destruct rest; reflexivity.
  - destruct (ascii_dec a a) as [_|Hne]; [exact IH | congruence].
Qed.

Lemma includes_unfold (s sub : string) :
  includes s sub =
  if String.prefix sub s then true
  else match s with
       | EmptyString => false
       | String _ rest => includes rest sub
       end.
Proof. destruct s; reflexivity. Qed.

Lemma includes_here (sub rest : string) : includes (sub +:+ rest) sub = true.
Proof. rewrite (includes_unfold (sub +:+ rest) sub), prefix_append. reflexivity. Qed.

Lemma includes_prepend (before s sub : string) :
  includes s sub = true -> includes (before +:+ s) sub = true.
Proof.
  intros H. induction before as [|a before IH].
  - exact H.
  - rewrite (includes_unfold (String a before +:+ s) sub).
    destruct (String.prefix sub _); [reflexivity | exact IH].
Qed.

Lemma includes_self (sub : string) : includes sub sub = true.
Proof.
  rewrite includes_unfold.
  replace (String.prefix sub sub) with true; [reflexivity|].
  symmetry. induction sub as [|a sub IH]; simpl; [reflexivity|].
  destruct (ascii_dec a a); [exact IH | congruence].
Qed.

Lemma includes_suffix (before sub : string) : includes (before +:+ sub) sub = true.
Proof. apply includes_prepend, includes_self. Qed.

End Strings.

Section JSFacts.

Lemma join_throws (convert : JSValue -> Outcome string) (elems : list JSValue) :
  Forall (fun x => forall e, convert x = Threw e -> e = conversion_error) elems ->
  forall e, join convert elems = Threw e -> e = conversion_error.
Proof.
  induction 1 as [|x rest Hx _ IH]; intros e; simpl; [discriminate|].
  unfold join_element.
  destruct (match x with
            | JUndefined | JNull => Returned ""
            | _ => convert x
            end) as [s|e'] eqn:Hhead; simpl.
  - destruct rest as [|y rest']; [discriminate|].
    destruct (join convert (y :: rest')) as [r|e'] eqn:Htail; simpl; [discriminate|].
    intros H. injection H as <-. apply IH. reflexivity.
  - intros H. injection H as <-. apply Hx.
    destruct x; try discriminate; exact Hhead.
Qed.

Lemma ToString_throws (v : JSValue) (e : Thrown) :
  ToString v = Threw e -> e = conversion_error.
Proof.
  revert v e. fix IH 1. intros v e.
  destruct v as [| |b|n|s|elems|props]; simpl; try discriminate.
  - destruct b; discriminate.
  - apply join_throws.
    induction elems as [|x rest IHrest]; constructor; [apply IH | exact IHrest].
  - destruct (own_property props "toString"); [|discriminate].
    intros H. injection H as <-. reflexivity.
Qed.

End JSFacts.

(** ** One call of the rate limiter *)

Section RateLimiter.

Lemma bucket_with_bucket h toolName key :
  bucket (with_bucket h toolName) key = bucket h key.
Proof.
  unfold with_bucket, bucket.
  destruct (rateLimitTracker h !! toolName) eqn:Hlook; [reflexivity|].
  simpl. destruct (decide (toolName = key)) as [->|Hne].
  - rewrite lookup_insert_eq, Hlook. reflexivity.
  - rewrite lookup_insert_ne by exact Hne. reflexivity.
Qed.

Lemma with_bucket_max h toolName :
  maxRequestsPerMinute (with_bucket h toolName) = maxRequestsPerMinute h.
Proof. unfold with_bucket. destruct (_ !! _); reflexivity. Qed.

Lemma with_bucket_apiClient h toolName :
  apiClient (with_bucket h toolName) = apiClient h.
Proof. unfold with_bucket. destruct (_ !! _); reflexivity. Qed.

Lemma with_bucket_isMockMode h toolName :
  isMockMode (with_bucket h toolName) = isMockMode h.
Proof. unfold with_bucket. destruct (_ !! _); reflexivity. Qed.

Lemma checkRateLimit_unfold h toolName now :
  checkRateLimit h toolName now =
  let h1 := with_bucket h toolName in
  let recentRequests := recent (now - 60000) (bucket h toolName) in
  if Z.of_nat (length recentRequests) >=? maxRequestsPerMinute h then
    (h1, Threw (ErrorObject (rate_limit_message toolName (maxRequestsPerMinute h))))
  else
    (set_tracker h1 (<[toolName := (recentRequests ++ [now])%list]> (rateLimitTracker h1)),
     Returned tt).
Proof.
  unfold checkRateLimit. fold (with_bucket h toolName).
  fold (bucket (with_bucket h toolName) toolName).
  rewrite bucket_with_bucket, with_bucket_max. reflexivity.
Qed.

Lemma checkRateLimit_rejects h toolName now :
  maxRequestsPerMinute h <= Z.of_nat (length (recent (now - 60000) (bucket h toolName))) ->
  checkRateLimit h toolName now =
    (with_bucket h toolName,
     Threw (ErrorObject (rate_limit_message toolName (maxRequestsPerMinute h)))).
Proof.
  intros Hfull. rewrite checkRateLimit_unfold. cbv zeta.
  destruct (Z.geb_spec (Z.of_nat (length (recent (now - 60000) (bucket h toolName))))
              (maxRequestsPerMinute h)); [reflexivity | lia].
Qed.

Lemma checkRateLimit_admits h toolName now :
  Z.of_nat (length (recent (now - 60000) (bucket h toolName))) < maxRequestsPerMinute h ->
  exists h',
    checkRateLimit h toolName now = (h', Returned tt)
    /\ bucket h' toolName = (recent (now - 60000) (bucket h toolName) ++ [now])%list
    /\ (forall key, key <> toolName -> bucket h' key = bucket h key)
    /\ maxRequestsPerMinute h' = maxRequestsPerMinute h
    /\ apiClient h' = apiClient h
    /\ isMockMode h' = isMockMode h.
Proof.
  intros Hroom. rewrite checkRateLimit_unfold. cbv zeta.
  destruct (Z.geb_spec (Z.of_nat (length (recent (now - 60000) (bucket h toolName))))
              (maxRequestsPerMinute h)); [lia|].
  eexists. split; [reflexivity|].
  repeat split; simpl.
  - unfold bucket at 1. simpl. rewrite lookup_insert_eq. reflexivity.
  - intros key Hne. unfold bucket at 1. simpl.
    rewrite lookup_insert_ne by congruence. apply bucket_with_bucket.
  - apply with_bucket_max.
  - apply with_bucket_apiClient.
  - apply with_bucket_isMockMode.
Qed.

(** A rejection needs a stored, non-empty bucket when the quota is positive. *)
Lemma with_bucket_id h toolName now :
  0 < maxRequestsPerMinute h ->
  maxRequestsPerMinute h <= Z.of_nat (length (recent (now - 60000) (bucket h toolName))) ->
  with_bucket h toolName = h.
Proof.
  intros Hpos Hfull. unfold with_bucket, bucket in *.
  destruct (rateLimitTracker h !! toolName); [reflexivity|].
  simpl in Hfull. lia.
Qed.

End RateLimiter.

(** ** The pruned bucket against the full history *)

Section Window.

Lemma recent_app w (a b : list Z) : recent w (a ++ b) = (recent w a ++ recent w b)%list.
Proof. unfold recent. apply List.filter_app. Qed.

Lemma recent_recent w w' (l : list Z) : w' <= w -> recent w (recent w' l) = recent w l.
Proof.
  intros Hle. unfold recent. induction l as [|t l IH]; simpl; [reflexivity|].
  destruct (Z.ltb_spec w' t); simpl.
  - rewrite IH. reflexivity.
  - destruct (Z.ltb_spec w t); [lia | exact IH].
Qed.

Lemma nondecreasing_tail a rest :
  nondecreasing (a :: rest) = true ->
  nondecreasing rest = true /\ (forall b, head rest = Some b -> a <= b).
Proof.
  simpl. destruct rest as [|b rest']; [intros _; split; [reflexivity | discriminate]|].
  intros H. apply andb_true_iff in H as [Hab Hrest]. split; [exact Hrest|].
  intros b' Hb. injection Hb as <-. lia.
Qed.

(** The pruned bucket and the full history agree on every window that
    can still be asked about. *)
Lemma admitted_calls_refine toolName (times : list Z) :
  forall h history floor,
    (forall w, floor <= w -> recent w (bucket h toolName) = recent w history) ->
    (forall t, head times = Some t -> floor <= t - 60000) ->
    nondecreasing times = true ->
    snd (admitted_calls h toolName times)
    = admitted (maxRequestsPerMinute h) history times.
Proof.
  induction times as [|now rest IH]; intros h history floor Hagree Hfloor Hsorted;
    [reflexivity|].
  simpl.
  destruct (nondecreasing_tail _ _ Hsorted) as [Hrest Hnext].
  assert (Hnow : floor <= now - 60000) by (apply Hfloor; reflexivity).
  rewrite <- (Hagree _ Hnow).
  destruct (Z.ltb_spec (Z.of_nat (length (recent (now - 60000) (bucket h toolName))))
              (maxRequestsPerMinute h)) as [Hroom|Hfull].
  - destruct (checkRateLimit_admits h toolName now Hroom)
      as (h' & Hcall & Hbucket & _ & Hmax & _).
    rewrite Hcall.
    destruct (admitted_calls h' toolName rest) as [h2 log] eqn:Hrec. simpl.
    f_equal. rewrite <- Hmax.
    change log with (snd (h2, log)). rewrite <- Hrec.
    apply (IH h' _ (now - 60000)); [|intros t Ht; specialize (Hnext t Ht); lia|exact Hrest].
    intros w Hw. rewrite Hbucket, !recent_app, recent_recent by exact Hw.
    rewrite Hagree by lia. reflexivity.
  - rewrite (checkRateLimit_rejects h toolName now Hfull).
    destruct (admitted_calls (with_bucket h toolName) toolName rest) as [h2 log] eqn:Hrec.
    simpl. rewrite <- (with_bucket_max h toolName).
    change log with (snd (h2, log)). rewrite <- Hrec.
    apply (IH _ _ (now - 60000)); [|intros t Ht; specialize (Hnext t Ht); lia|exact Hrest].
    intros w Hw. rewrite bucket_with_bucket. apply Hagree. lia.
Qed.

Lemma in_window_app T (a b : list Z) :
  in_window T (a ++ b) = (in_window T a ++ in_window T b)%list.
Proof. unfold in_window. apply List.filter_app. Qed.

Lemma in_window_recent T now (l : list Z) :
  now <= T -> (length (in_window T l) <= length (recent (now - 60000) l))%nat.
Proof.
  intros Hle. unfold in_window, recent.
  induction l as [|t l IH]; simpl; [lia|].
  destruct (Z.ltb_spec (T - 60000) t), (Z.leb_spec t T), (Z.ltb_spec (now - 60000) t);
    simpl; lia.
Qed.

(** No window ever holds more than [quota] admitted calls. *)
Lemma admitted_window_bound quota (times : list Z) :
  forall history,
    (forall T, Z.of_nat (length (in_window T history)) <= quota) ->
    forall T, Z.of_nat (length (in_window T (history ++ admitted quota history times)))
              <= quota.
Proof.
  induction times as [|now rest IH]; intros history Hbound T; simpl.
  - rewrite app_nil_r. apply Hbound.
  - destruct (Z.ltb_spec (Z.of_nat (length (recent (now - 60000) history))) quota)
      as [Hroom|Hfull]; [|apply IH, Hbound].
    change (now :: admitted quota (history ++ [now]) rest)
      with ([now] ++ admitted quota (history ++ [now]) rest)%list.
    rewrite app_assoc. apply IH. clear T. intros T.
    rewrite in_window_app, length_app.
    unfold in_window at 2. simpl.
    destruct (Z.ltb_spec (T - 60000) now), (Z.leb_spec now T); simpl;
      try (specialize (Hbound T); lia).
    pose proof (in_window_recent T now history ltac:(lia)). lia.
Qed.

End Window.

(** ** Dispatch to the handlers *)

Section Dispatching.
Variable rt : Runtime.
Variable business : Tool -> Body.

Lemma handleError_outcome error toolName requestId :
  match handleError error toolName requestId with
  | Returned e => handler_envelope e
  | Threw t => t = conversion_error
  end.
Proof.
  unfold handleError, handler_envelope.
  destruct error as [message|value].
  - repeat match goal with
           | |- context [if ?c then _ else _] => destruct c
           end; right; do 3 eexists; (split; [reflexivity | split; discriminate]).
  - destruct (ToString value) as [s|t] eqn:Hs; simpl.
    + right. do 3 eexists. split; [reflexivity | split; discriminate].
    + exact (ToString_throws _ _ Hs).
Qed.

Lemma method_outcome name fields body h env args :
  match snd (method rt name fields body h env args) with
  | Returned e => handler_envelope e
  | Threw t => t = conversion_error
  end.
Proof.
  unfold method.
  destruct (checkRateLimit h name (now env)) as [h1 admitted]. simpl.
  destruct admitted as [[]|e1]; simpl; [|apply handleError_outcome].
  destruct (validateRequired args fields name) as [params|e2]; simpl;
    [|apply handleError_outcome].
  destruct (body h1 env params) as [result|e3]; simpl; [|apply handleError_outcome].
  left. unfold createSuccessResponse. eauto.
Qed.

Lemma on_handler_for_snd o tool m :
  snd (on_handler_for o tool m) = snd (m (handler_for o tool)).
Proof.
  destruct tool; simpl;
    unfold on_leadTools, on_contactTools, on_sequenceTools, on_dealTools,
      on_analyticsTools;
    match goal with |- context [m ?h] => destruct (m h) end; reflexivity.
Qed.

Lemma dispatch_registered o env tool args :
  dispatchTool rt business o env (toolName tool) args
  = on_handler_for o tool (fun h => call rt business tool h env args).
Proof. destruct tool; reflexivity. Qed.

Lemma dispatch_unregistered o env name args :
  registered name = false ->
  dispatchTool rt business o env name args
  = (o, Returned (Response.error ("Unknown tool: " +:+ name) INVALID_PARAMETERS None)).
Proof.
  unfold registered. intros H.
  apply orb_false_iff in H as [H Ha]. apply orb_false_iff in H as [H Hd].
  apply orb_false_iff in H as [H Hs]. apply orb_false_iff in H as [Hl Hc].
  unfold dispatchTool. rewrite Hl, Hc, Hs, Hd, Ha. reflexivity.
Qed.

Lemma registered_names name :
  registered name = array_includes getAvailableTools name.
Proof.
  unfold registered, isLeadTool, isContactTool, isSequenceTool, isDealTool,
    isAnalyticsTool, array_includes, getAvailableTools. simpl.
  repeat match goal with
         | |- context [String.eqb name ?s] => destruct (String.eqb name s); simpl
         end; reflexivity.
Qed.

Lemma registered_tool name :
  registered name = true -> exists tool, name = toolName tool.
Proof.
  rewrite registered_names. unfold array_includes. intros H.
  apply existsb_exists in H as (label & Hin & Heq).
  apply String.eqb_eq in Heq. subst label.
  change getAvailableTools with (map toolName all_tools) in Hin.
  apply in_map_iff in Hin as (tool & <- & _). exists tool. reflexivity.
Qed.

Lemma toolName_registered tool : registered (toolName tool) = true.
Proof. destruct tool; reflexivity. Qed.

Lemma handleToolError_returns toolName message :
  exists text code,
    handleToolError toolName (ErrorObject message)
    = Returned (Response.error text code None) /\ code <> MOCK_MODE.
Proof.
  unfold handleToolError.
  repeat match goal with
         | |- context [if ?c then _ else _] => destruct c
         end; simpl; do 2 eexists; (split; [reflexivity | discriminate]).
Qed.

Lemma handleToolCall_returns o env request :
  exists o' e,
    handleToolCall rt business o env request = (o', Returned e)
    /\ dispatch_envelope e
    /\ (forall t, arguments request <> None ->
          snd (dispatchTool rt business o env (name request)
                 (JObject (default [] (arguments request)))) = Threw t ->
          isError e = true).
Proof.
  unfold handleToolCall, dispatch_envelope.
  destruct (arguments request) as [args|].
  2:{ do 2 eexists. split; [reflexivity|]. split; [|congruence].
      right. do 3 eexists. split; [reflexivity | discriminate]. }
  simpl.
  destruct (registered (name request)) eqn:Hreg.
  - apply registered_tool in Hreg as [tool ->].
    rewrite dispatch_registered.
    pose proof (on_handler_for_snd o tool
                  (fun h => call rt business tool h env (JObject args))) as Hsnd.
    destruct (on_handler_for o tool _) as [o1 outcome]. simpl in Hsnd. subst outcome.
    pose proof (method_outcome (toolName tool) (requiredFields tool)
                  (body_of rt business tool) (handler_for o tool) env (JObject args))
      as Hout.
    unfold call.
    destruct (snd (method rt _ _ _ _ _ _)) as [e|t]; simpl.
    + do 2 eexists. split; [reflexivity|]. split; [|discriminate].
      destruct Hout as [Hs | (text & code & rid & -> & Hc & _)]; [left; exact Hs|].
      right. eauto.
    + subst t. destruct (handleToolError_returns (toolName tool)
                           "Cannot convert object to primitive value")
        as (text & code & Heq & Hc).
      unfold conversion_error, TypeError. rewrite Heq.
      do 2 eexists. split; [reflexivity|]. split; [right; eauto|]. reflexivity.
  - rewrite dispatch_unregistered by exact Hreg. simpl.
    do 2 eexists. split; [reflexivity|]. split; [|discriminate].
    right. do 3 eexists. split; [reflexivity | discriminate].
Qed.

End Dispatching.

Lemma handleToolCall_registered (rt : Runtime) (business : Tool -> Body)
    (o : Orchestrator.t) (env : CallEnv) (tool : Tool) (props : list (string * JSValue)) :
  snd (handleToolCall rt business o env
         {| name := toolName tool; arguments := Some props |})
  = try_catch (snd (call rt business tool (handler_for o tool) env (JObject props)))
      (handleToolError (toolName tool)).
Proof.
  unfold handleToolCall. cbn [arguments name].
  rewrite dispatch_registered.
  rewrite <- (on_handler_for_snd o tool
                (fun h => call rt business tool h env (JObject props))).
  destruct (on_handler_for o tool _) as [o1 outcome]. reflexivity.
Qed.

Lemma handleError_is_error error toolName requestId e :
  handleError error toolName requestId = Returned e -> isError e = true.
Proof.
  unfold handleError. destruct error as [message|value].
  - repeat match goal with
           | |- context [if ?c then _ else _] => destruct c
           end; intros H; injection H as <-; reflexivity.
  - destruct (ToString value); simpl; [|discriminate].
    intros H; injection H as <-; reflexivity.
Qed.

Lemma validateRequired_returns params fields name p :
  validateRequired params fields name = Returned p -> p = params.
Proof.
  unfold validateRequired.
  destruct (negb (truthy params) || negb (typeof_object params)); [discriminate|].
  destruct (check_fields params fields name); simpl; [|discriminate].
  intros H. injection H as <-. reflexivity.
Qed.

(** A method answers with a success envelope only when its body returned. *)
Lemma method_success rt name fields body h env args e :
  snd (method rt name fields body h env args) = Returned e ->
  isError e = false ->
  exists result, body (fst (checkRateLimit h name (now env))) env args = Returned result.
Proof.
  unfold method.
  destruct (checkRateLimit h name (now env)) as [h1 admitted]. simpl.
  destruct admitted as [[]|e1]; simpl.
  2:{ intros H Hok. apply handleError_is_error in H. congruence. }
  destruct (validateRequired args fields name) as [params|e2] eqn:Hvalid; simpl.
  2:{ intros H Hok. apply handleError_is_error in H. congruence. }
  apply validateRequired_returns in Hvalid. subst params.
  destruct (body h1 env args) as [result|e3]; simpl.
  - intros _ _. exists result. reflexivity.
  - intros H Hok. apply handleError_is_error in H. congruence.
Qed.

Lemma handleToolCall_success rt business o env toolName args o' e :
  handleToolCall rt business o env {| name := toolName; arguments := Some args |}
    = (o', Returned e) ->
  isError e = false ->
  exists tool result,
    toolName = Tools.toolName tool
    /\ body_of rt business tool
         (fst (checkRateLimit (handler_for o tool) toolName (now env))) env (JObject args)
       = Returned result.
Proof.
  intros Hcall Hok.
  apply (f_equal snd) in Hcall. simpl in Hcall.
  destruct (registered toolName) eqn:Hreg.
  - apply registered_tool in Hreg as [tool ->]. exists tool.
    rewrite handleToolCall_registered in Hcall. unfold call in Hcall.
    destruct (snd (method rt _ _ _ _ _ _)) as [e1|t] eqn:Hmethod; simpl in Hcall.
    + injection Hcall as ->.
      destruct (method_success _ _ _ _ _ _ _ _ Hmethod Hok) as [result Hbody].
      exists result. split; [reflexivity | exact Hbody].
    + pose proof (method_outcome rt (Tools.toolName tool) (requiredFields tool)
                    (body_of rt business tool) (handler_for o tool) env (JObject args))
        as Hout.
      rewrite Hmethod in Hout. subst t.
      destruct (handleToolError_returns (Tools.toolName tool)
                  "Cannot convert object to primitive value") as (text & code & Heq & _).
      unfold conversion_error, TypeError in Hcall. rewrite Heq in Hcall.
      injection Hcall as <-. discriminate.
  - unfold handleToolCall in Hcall. cbn [arguments name] in Hcall.
    rewrite dispatch_unregistered in Hcall by exact Hreg.
    simpl in Hcall. injection Hcall as <-. discriminate.
Qed.

(** ** The response contract *)

(** C4. Every envelope the response builders produce has [isError] set
    exactly when an [errorCode] is present and has a non-empty content
    list; the envelopes of [success] and [mockResponse] carry no
    [errorCode], and the envelope of [error] carries one of the values of
    [ERROR_CODES]. *)
Theorem builders_well_formed (text : string) (code : ErrorCode) (requestId : option string) :
  well_formed (Response.success text requestId)
  /\ well_formed (Response.error text code requestId)
  /\ well_formed (Response.mockResponse text requestId)
  /\ errorCode (Response.success text requestId) = None
  /\ errorCode (Response.mockResponse text requestId) = None
  /\ (exists c, errorCode (Response.error text code requestId) = Some c
                /\ In c ERROR_CODE_values).
Proof.
  unfold well_formed; simpl.
  repeat split; try discriminate; try congruence.
  exists (ERROR_CODES code). split; [reflexivity|].
  destruct code; simpl; tauto.
Qed.

Lemma dispatch_envelope_closed (e : IToolResponse) :
  dispatch_envelope e ->
  well_formed e
  /\ (isError e = true -> exists c, errorCode e = Some c /\ In c ERROR_CODE_values)
  /\ errorCode e <> Some (ERROR_CODES MOCK_MODE).
Proof.
  intros [(text & rid & ->) | (text & code & rid & -> & Hcode)].
  - split; [|split].
    + unfold well_formed. simpl. split; [split; [discriminate | congruence] | discriminate].
    + discriminate.
    + discriminate.
  - split; [|split].
    + unfold well_formed. simpl. split; [split; [discriminate | reflexivity] | discriminate].
    + intros _. exists (ERROR_CODES code). split; [reflexivity|].
      destruct code; simpl; tauto.
    + simpl. destruct code; try discriminate. congruence.
Qed.

(** ** The dispatch boundary *)

(** C1. A [tools/call] request that carries an argument record always gets
    an envelope back from [handleToolCall] and never an exception, whatever
    the business logic of the handlers returns or throws, an [Error] or any
    other value: the envelope is well formed, an error envelope carries a
    code of the closed set, whenever [dispatchTool] throws the [catch] of
    [handleToolCall] turns the failure into an error envelope, and a
    success envelope is returned only when the name is that of a tool whose
    body returned, so that every failure ends in an error envelope. *)
Theorem handleToolCall_never_throws (rt : Runtime) (business : Tool -> Body)
    (o : Orchestrator.t) (env : CallEnv) (toolName : string)
    (args : list (string * JSValue)) :
  exists o' e,
    handleToolCall rt business o env {| name := toolName; arguments := Some args |}
      = (o', Returned e)
    /\ well_formed e
    /\ (isError e = true -> exists c, errorCode e = Some c /\ In c ERROR_CODE_values)
    /\ (forall t, snd (dispatchTool rt business o env toolName (JObject args)) = Threw t ->
          isError e = true)
    /\ (isError e = false ->
        exists tool result,
          toolName = Tools.toolName tool
          /\ body_of rt business tool
               (fst (checkRateLimit (handler_for o tool) toolName (now env)))
               env (JObject args)
             = Returned result).
Proof.
  destruct (handleToolCall_returns rt business o env
              {| name := toolName; arguments := Some args |})
    as (o' & e & Hcall & Henv & Hthrown).
  exists o', e. split; [exact Hcall|].
  destruct (dispatch_envelope_closed e Henv) as (Hwf & Hcode & _).
  split; [exact Hwf|]. split; [exact Hcode|]. split.
  - intros t Ht. apply (Hthrown t); [discriminate | exact Ht].
  - apply (handleToolCall_success rt business o env toolName args o' e Hcall).
Qed.

(** Business logic that throws an object which cannot even be converted to
    a string: the handler's own [catch] fails on it, [dispatchTool] throws,
    and [handleToolCall] still answers with an error envelope. *)
Lemma handleToolCall_never_throws_witness :
  let business : Tool -> Body :=
    fun _ _ _ _ => Threw (NonError (JObject [("toString", JNumber 1)])) in
  snd (dispatchTool Fixture.runtime business Fixture.orchestrator (Fixture.env 0)
         "get-api-usage" (JObject []))
  = Threw conversion_error
  /\ exists o' e,
       handleToolCall Fixture.runtime business Fixture.orchestrator (Fixture.env 0)
         {| name := "get-api-usage"; arguments := Some [] |} = (o', Returned e)
       /\ isError e = true.
Proof.
  intros business. split; [reflexivity|].
  destruct (handleToolCall_never_throws Fixture.runtime business Fixture.orchestrator
              (Fixture.env 0) "get-api-usage" [])
    as (o' & e & Hcall & _ & _ & Hthrown & _).
  exists o', e. split; [exact Hcall|].
  apply (Hthrown conversion_error). reflexivity.
Defined.

(** C3. For a name that none of [isLeadTool], [isContactTool],
    [isSequenceTool], [isDealTool] and [isAnalyticsTool] accepts, a call
    with an argument record leaves the orchestrator as it was and returns
    the error envelope with code [INVALID_PARAMETERS] and the text
    [Unknown tool: <name>], which contains the name. *)
Theorem unknown_tool_is_invalid_parameters (rt : Runtime) (business : Tool -> Body)
    (o : Orchestrator.t) (env : CallEnv) (toolName : string)
    (args : list (string * JSValue)) :
  registered toolName = false ->
  handleToolCall rt business o env {| name := toolName; arguments := Some args |}
    = (o, Returned (Response.error ("Unknown tool: " +:+ toolName) INVALID_PARAMETERS None))
  /\ errorCode (Response.error ("Unknown tool: " +:+ toolName) INVALID_PARAMETERS None)
     = Some "INVALID_PARAMETERS"
  /\ includes ("Unknown tool: " +:+ toolName) toolName = true.
Proof.
  intros Hreg. split; [|split; [reflexivity | apply includes_suffix]].
  unfold handleToolCall. cbn [arguments name].
  rewrite dispatch_unregistered by exact Hreg. reflexivity.
Qed.

Lemma unknown_tool_is_invalid_parameters_witness :
  registered "delete-account" = false
  /\ handleToolCall Fixture.runtime Fixture.business Fixture.orchestrator (Fixture.env 0)
       {| name := "delete-account"; arguments := Some [] |}
     = (Fixture.orchestrator,
        Returned (Response.error "Unknown tool: delete-account" INVALID_PARAMETERS None)).
Proof.
  split; [reflexivity|].
  apply (unknown_tool_is_invalid_parameters Fixture.runtime Fixture.business
           Fixture.orchestrator (Fixture.env 0) "delete-account" []).
  reflexivity.
Defined.

(** ** The rate limiter *)

(** C7. A call that [checkRateLimit] rejects leaves every bucket with the
    timestamps it had (and the whole handler unchanged when the quota is
    positive); a timestamp is appended, to the pruned bucket of that tool
    only, exactly when the call is admitted. *)
Theorem rejected_call_keeps_bucket (h : BaseToolHandler.t) (toolName : string) (now : Z) :
  let (h', outcome) := checkRateLimit h toolName now in
  match outcome with
  | Threw _ =>
      (forall key, bucket h' key = bucket h key)
      /\ (0 < maxRequestsPerMinute h -> h' = h)
  | Returned _ =>
      bucket h' toolName = (recent (now - 60000) (bucket h toolName) ++ [now])%list
      /\ (forall key, key <> toolName -> bucket h' key = bucket h key)
  end.
Proof.
  destruct (Z.lt_ge_cases
              (Z.of_nat (length (recent (now - 60000) (bucket h toolName))))
              (maxRequestsPerMinute h)) as [Hroom|Hfull].
  - destruct (checkRateLimit_admits h toolName now Hroom)
      as (h' & -> & Hbucket & Hothers & _).
    split; assumption.
  - rewrite (checkRateLimit_rejects h toolName now Hfull). split.
    + intros key. apply bucket_with_bucket.
    + intros Hpos. apply (with_bucket_id h toolName now Hpos Hfull).
Qed.

Lemma rate_limit_message_recognised (name : string) (quota : Z) :
  includes (rate_limit_message name quota) "Rate limit exceeded" = true.
Proof.
  exact (includes_here "Rate limit exceeded"
           (" for " +:+ name +:+ ". Maximum " +:+ pretty quota +:+
            " requests per minute allowed.")).
Qed.

Lemma method_rejects (rt : Runtime) (name : string) (fields : list string) (body : Body)
    (h : BaseToolHandler.t) (env : CallEnv) (args : JSValue) :
  maxRequestsPerMinute h
    <= Z.of_nat (length (recent (now env - 60000) (bucket h name))) ->
  method rt name fields body h env args
  = (with_bucket h name,
     Returned (Response.error (rate_limit_message name (maxRequestsPerMinute h))
                 RATE_LIMIT_EXCEEDED
                 (Some (generateRequestId (idTime env) (idRandom env))))).
Proof.
  intros Hfull. unfold method.
  rewrite (checkRateLimit_rejects h name (now env) Hfull).
  cbn [bind try_catch handleError].
  rewrite rate_limit_message_recognised. reflexivity.
Qed.

Lemma method_fst (rt : Runtime) (name : string) (fields : list string) (body : Body)
    (h : BaseToolHandler.t) (env : CallEnv) (args : JSValue) :
  fst (method rt name fields body h env args) = fst (checkRateLimit h name (now env)).
Proof. unfold method. destruct (checkRateLimit h name (now env)). reflexivity. Qed.

Lemma handler_for_called (o : Orchestrator.t) (called : Tool)
    (m : BaseToolHandler.t -> BaseToolHandler.t * Outcome IToolResponse) :
  handler_for (fst (on_handler_for o called m)) called = fst (m (handler_for o called)).
Proof.
  destruct called; simpl;
    unfold on_leadTools, on_contactTools, on_sequenceTools, on_dealTools,
      on_analyticsTools;
    match goal with |- context [m ?h] => destruct (m h) end; reflexivity.
Qed.

Lemma handleToolCall_fst_registered (rt : Runtime) (business : Tool -> Body)
    (o : Orchestrator.t) (env : CallEnv) (tool : Tool) (props : list (string * JSValue)) :
  fst (handleToolCall rt business o env
         {| name := toolName tool; arguments := Some props |})
  = fst (on_handler_for o tool (fun h => call rt business tool h env (JObject props))).
Proof.
  unfold handleToolCall. cbn [arguments name]. rewrite dispatch_registered.
  destruct (on_handler_for o tool _). reflexivity.
Qed.

Lemma method_returns (rt : Runtime) (name : string) (fields : list string) (body : Body)
    (h h' : BaseToolHandler.t) (env : CallEnv) (args : JSValue) (result : JSValue * option string) :
  checkRateLimit h name (now env) = (h', Returned tt) ->
  validateRequired args fields name = Returned args ->
  body h' env args = Returned result ->
  method rt name fields body h env args
  = (h', Returned (createSuccessResponse rt (fst result) (snd result)
                     (Some (generateRequestId (idTime env) (idRandom env))))).
Proof.
  intros Hcheck Hvalid Hbody. unfold method. rewrite Hcheck.
  cbn [bind]. rewrite Hvalid. cbn [bind]. rewrite Hbody. reflexivity.
Qed.

Lemma method_body_throws (rt : Runtime) (name : string) (fields : list string) (body : Body)
    (h h' : BaseToolHandler.t) (env : CallEnv) (args : JSValue) (e : Thrown) :
  checkRateLimit h name (now env) = (h', Returned tt) ->
  validateRequired args fields name = Returned args ->
  body h' env args = Threw e ->
  method rt name fields body h env args
  = (h', handleError e name (Some (generateRequestId (idTime env) (idRandom env)))).
Proof.
  intros Hcheck Hvalid Hbody. unfold method. rewrite Hcheck.
  cbn [bind]. rewrite Hvalid. cbn [bind]. rewrite Hbody. reflexivity.
Qed.

(** The state and the answer of one call of a registered tool. *)
Lemma handleToolCall_handler (rt : Runtime) (business : Tool -> Body)
    (o : Orchestrator.t) (env : CallEnv) (tool : Tool) (props : list (string * JSValue)) :
  handler_for (fst (handleToolCall rt business o env
                      {| name := toolName tool; arguments := Some props |})) tool
  = fst (checkRateLimit (handler_for o tool) (toolName tool) (now env)).
Proof.
  rewrite handleToolCall_fst_registered, handler_for_called.
  unfold call. apply method_fst.
Qed.

Lemma verdicts_admitted (quota : Z) (times : list Z) :
  forall history,
    length (verdicts quota history times) = length times
    /\ map fst (List.filter snd (combine times (verdicts quota history times)))
       = admitted quota history times.
Proof.
  induction times as [|now rest IH]; intros history; [split; reflexivity|].
  cbn [verdicts admitted].
  destruct (Z.of_nat (length (recent (now - 60000) history)) <? quota).
  - destruct (IH (history ++ [now])%list) as [Hlen Hmap].
    cbn [length combine List.filter snd map fst]. rewrite Hlen, Hmap. auto.
  - destruct (IH history) as [Hlen Hmap].
    cbn [length combine List.filter snd map fst]. rewrite Hlen, Hmap. auto.
Qed.

(** What a call of the sequence hands back, given the verdict of the
    sliding-window rule on it. *)
Lemma tool_calls_refine (rt : Runtime) (business : Tool -> Body) (tool : Tool)
    (props : list (string * JSValue)) (client : option ApolloAPIClient) (mock : bool)
    (quota : Z) (envs : list CallEnv) :
  validateRequired (JObject props) (requiredFields tool) (toolName tool)
    = Returned (JObject props) ->
  (forall h env,
      apiClient h = client -> isMockMode h = mock ->
      exists result, body_of rt business tool h env (JObject props) = Returned result) ->
  forall o history floor,
    apiClient (handler_for o tool) = client ->
    isMockMode (handler_for o tool) = mock ->
    maxRequestsPerMinute (handler_for o tool) = quota ->
    (forall w, floor <= w ->
       recent w (bucket (handler_for o tool) (toolName tool)) = recent w history) ->
    (forall env, head envs = Some env -> floor <= now env - 60000) ->
    nondecreasing (map now envs) = true ->
    Forall2
      (fun (call : CallEnv * bool) (outcome : Outcome IToolResponse) =>
         if snd call
         then exists e, outcome = Returned e /\ isError e = false /\ errorCode e = None
         else outcome
              = Returned (Response.error (rate_limit_message (toolName tool) quota)
                            RATE_LIMIT_EXCEEDED
                            (Some (generateRequestId (idTime (fst call))
                                     (idRandom (fst call))))))
      (combine envs (verdicts quota history (map now envs)))
      (snd (tool_calls rt business o
              {| name := toolName tool; arguments := Some props |} envs)).
Proof.
  intros Hvalid Hbody.
  induction envs as [|env rest IH];
    intros o history floor Hclient Hmock Hquota Hagree Hfloor Hsorted;
    [constructor|].
  cbn [map] in Hsorted.
  destruct (nondecreasing_tail _ _ Hsorted) as [Hrest Hnext].
  assert (Hnow : floor <= now env - 60000) by (apply Hfloor; reflexivity).
  assert (Hnext' : forall env', head rest = Some env' ->
                                now env - 60000 <= now env' - 60000).
  { intros env' Hhead. destruct rest as [|e1 rest']; [discriminate|].
    injection Hhead as ->. specialize (Hnext (now env') eq_refl). lia. }
  cbn [tool_calls map verdicts].
  pose proof (handleToolCall_handler rt business o env tool props) as Hstate.
  pose proof (handleToolCall_registered rt business o env tool props) as Hanswer.
  destruct (handleToolCall rt business o env
              {| name := toolName tool; arguments := Some props |}) as [o1 outcome].
  cbn [fst snd] in Hstate, Hanswer.
  destruct (tool_calls rt business o1
              {| name := toolName tool; arguments := Some props |} rest)
    as [o2 outcomes] eqn:Hrec.
  cbn [snd]. rewrite <- (Hagree _ Hnow).
  destruct (Z.ltb_spec
              (Z.of_nat (length (recent (now env - 60000)
                                   (bucket (handler_for o tool) (toolName tool)))))
              quota) as [Hroom|Hfull].
  - rewrite <- Hquota in Hroom.
    destruct (checkRateLimit_admits _ _ _ Hroom)
      as (h' & Hcheck & Hbucket & _ & Hmax & Hclient' & Hmock').
    rewrite Hcheck in Hstate. cbn [fst] in Hstate.
    destruct (Hbody h' env) as [result Hresult]; [congruence | congruence |].
    unfold call in Hanswer.
    rewrite (method_returns rt _ _ _ _ h' env _ result Hcheck Hvalid Hresult) in Hanswer.
    cbn [snd try_catch] in Hanswer.
    cbn [combine]. constructor.
    + cbn [snd]. exists (createSuccessResponse rt (fst result) (snd result)
                           (Some (generateRequestId (idTime env) (idRandom env)))).
      split; [exact Hanswer | split; reflexivity].
    + change outcomes with (snd (o2, outcomes)). rewrite <- Hrec.
      apply (IH o1 _ (now env - 60000)); rewrite ?Hstate; try congruence; try assumption.
      intros w Hw. rewrite Hbucket, !recent_app, recent_recent by exact Hw.
      rewrite Hagree by lia. reflexivity.
  - rewrite <- Hquota in Hfull.
    rewrite (checkRateLimit_rejects _ _ _ Hfull) in Hstate. cbn [fst] in Hstate.
    unfold call in Hanswer.
    rewrite (method_rejects rt _ _ _ _ env (JObject props) Hfull) in Hanswer.
    cbn [snd try_catch] in Hanswer.
    cbn [combine]. constructor.
    + cbn [snd fst]. rewrite Hanswer, Hquota. reflexivity.
    + change outcomes with (snd (o2, outcomes)). rewrite <- Hrec.
      apply (IH o1 _ (now env - 60000)); rewrite ?Hstate;
        rewrite ?with_bucket_apiClient, ?with_bucket_isMockMode, ?with_bucket_max;
        try assumption.
      intros w Hw. rewrite bucket_with_bucket. apply Hagree. lia.
Qed.

Lemma method_admits (rt : Runtime) (name : string) (fields : list string) (body : Body)
    (h : BaseToolHandler.t) (env : CallEnv) (args : JSValue) :
  Z.of_nat (length (recent (now env - 60000) (bucket h name))) < maxRequestsPerMinute h ->
  exists h',
    checkRateLimit h name (now env) = (h', Returned tt)
    /\ bucket h' name = (recent (now env - 60000) (bucket h name) ++ [now env])%list
    /\ method rt name fields body h env args
       = (h',
          try_catch
            (do params <- validateRequired args fields name ;;
             do result <- body h' env params ;;
             Returned (createSuccessResponse rt (fst result) (snd result)
                         (Some (generateRequestId (idTime env) (idRandom env)))))
            (fun error =>
               handleError error name
                 (Some (generateRequestId (idTime env) (idRandom env))))).
Proof.
  intros Hroom.
  destruct (checkRateLimit_admits _ _ _ Hroom) as (h' & Hcheck & Hbucket & _).
  exists h'. split; [exact Hcheck|]. split; [exact Hbucket|].
  unfold method. rewrite Hcheck. reflexivity.
Qed.

(** C2. Every operation admits exactly [maxRequestsPerMinute] calls per
    rolling window of 60000 ms.
    - A call that finds [maxRequestsPerMinute] or more admitted timestamps
      strictly inside its window returns the error envelope with code
      [RATE_LIMIT_EXCEEDED], whatever the body of the method is (the body is
      not run), and leaves the buckets as they were; so does the same call
      made through [handleToolCall].
    - A call that finds fewer is admitted: its timestamp joins the pruned
      bucket and the method goes on to validate the arguments and to run
      its body, whose result or failure decides the envelope.
    - Over successive calls of one operation through [handleToolCall], at
      clock readings that never go back and starting from an empty bucket,
      with arguments that pass validation and a body that returns, each
      call succeeds or is answered [RATE_LIMIT_EXCEEDED] exactly as the
      sliding-window rule of the specification decides: it is admitted if
      and only if fewer than the quota of the calls admitted before it are
      younger than 60000 ms. No window [T - 60000 < t <= T] then holds more
      than the quota of admitted calls.
    - The same holds of the limiter alone, [checkRateLimit].
    - A timestamp of age exactly 60000 ms has expired, one of age 59999 ms
      has not.
    - The orchestrator gives every handler the quota 60 (3 under
      [NODE_ENV=test]). *)
Theorem rate_limit_sliding_window :
  (forall (rt : Runtime) (tool : Tool) (body : Body) (h : BaseToolHandler.t)
          (env : CallEnv) (args : JSValue),
      maxRequestsPerMinute h
        <= Z.of_nat (length (recent (now env - 60000) (bucket h (toolName tool)))) ->
      exists h',
        method rt (toolName tool) (requiredFields tool) body h env args
        = (h', Returned (Response.error
                  (rate_limit_message (toolName tool) (maxRequestsPerMinute h))
                  RATE_LIMIT_EXCEEDED
                  (Some (generateRequestId (idTime env) (idRandom env)))))
        /\ (forall key, bucket h' key = bucket h key))
  /\ (forall (rt : Runtime) (business : Tool -> Body) (o : Orchestrator.t)
             (env : CallEnv) (tool : Tool) (props : list (string * JSValue)),
        maxRequestsPerMinute (handler_for o tool)
          <= Z.of_nat (length (recent (now env - 60000)
                                 (bucket (handler_for o tool) (toolName tool)))) ->
        snd (handleToolCall rt business o env
               {| name := toolName tool; arguments := Some props |})
        = Returned (Response.error
                      (rate_limit_message (toolName tool)
                         (maxRequestsPerMinute (handler_for o tool)))
                      RATE_LIMIT_EXCEEDED
                      (Some (generateRequestId (idTime env) (idRandom env)))))
  /\ (forall (rt : Runtime) (tool : Tool) (body : Body) (h : BaseToolHandler.t)
             (env : CallEnv) (args : JSValue),
        Z.of_nat (length (recent (now env - 60000) (bucket h (toolName tool))))
          < maxRequestsPerMinute h ->
        exists h',
          checkRateLimit h (toolName tool) (now env) = (h', Returned tt)
          /\ bucket h' (toolName tool)
             = (recent (now env - 60000) (bucket h (toolName tool)) ++ [now env])%list
          /\ method rt (toolName tool) (requiredFields tool) body h env args
             = (h',
                try_catch
                  (do params <- validateRequired args (requiredFields tool)
                                  (toolName tool) ;;
                   do result <- body h' env params ;;
                   Returned (createSuccessResponse rt (fst result) (snd result)
                               (Some (generateRequestId (idTime env) (idRandom env)))))
                  (fun error =>
                     handleError error (toolName tool)
                       (Some (generateRequestId (idTime env) (idRandom env))))))
  /\ (forall (rt : Runtime) (business : Tool -> Body) (o : Orchestrator.t) (tool : Tool)
             (props : list (string * JSValue)) (envs : list CallEnv),
        bucket (handler_for o tool) (toolName tool) = [] ->
        nondecreasing (map now envs) = true ->
        validateRequired (JObject props) (requiredFields tool) (toolName tool)
          = Returned (JObject props) ->
        (forall h env,
            apiClient h = apiClient (handler_for o tool) ->
            isMockMode h = isMockMode (handler_for o tool) ->
            exists result,
              body_of rt business tool h env (JObject props) = Returned result) ->
        let quota := maxRequestsPerMinute (handler_for o tool) in
        Forall2
          (fun (call : CallEnv * bool) (outcome : Outcome IToolResponse) =>
             if snd call
             then exists e,
                    outcome = Returned e /\ isError e = false /\ errorCode e = None
             else outcome
                  = Returned (Response.error (rate_limit_message (toolName tool) quota)
                                RATE_LIMIT_EXCEEDED
                                (Some (generateRequestId (idTime (fst call))
                                         (idRandom (fst call))))))
          (combine envs (verdicts quota [] (map now envs)))
          (snd (tool_calls rt business o
                  {| name := toolName tool; arguments := Some props |} envs)))
  /\ (forall (quota : Z) (times : list Z),
        length (verdicts quota [] times) = length times
        /\ map fst (List.filter snd (combine times (verdicts quota [] times)))
           = SlidingWindow.admitted quota [] times
        /\ (0 <= quota ->
            forall T,
              Z.of_nat (length (in_window T (SlidingWindow.admitted quota [] times)))
              <= quota))
  /\ (forall (h : BaseToolHandler.t) (toolName : string) (times : list Z),
        bucket h toolName = [] ->
        nondecreasing times = true ->
        snd (admitted_calls h toolName times)
        = SlidingWindow.admitted (maxRequestsPerMinute h) [] times
        /\ (0 <= maxRequestsPerMinute h ->
            forall T,
              Z.of_nat (length (in_window T (snd (admitted_calls h toolName times))))
              <= maxRequestsPerMinute h))
  /\ (forall now : Z,
        recent (now - 60000) [now - 60000] = []
        /\ recent (now - 60000) [now - 59999] = [now - 59999])
  /\ (forall (apiKey : option string) (tool : Tool),
        maxRequestsPerMinute (handler_for (Orchestrator.new false apiKey) tool) = 60
        /\ maxRequestsPerMinute (handler_for (Orchestrator.new true apiKey) tool) = 3).
Proof.
  split; [|split; [|split; [|split; [|split; [|split; [|split]]]]]].
  - intros rt tool body h env args Hfull.
    exists (with_bucket h (toolName tool)). split.
    + apply method_rejects, Hfull.
    + intros key. apply bucket_with_bucket.
  - intros rt business o env tool props Hfull.
    rewrite handleToolCall_registered. unfold call.
    rewrite (method_rejects rt _ _ _ _ env (JObject props) Hfull). reflexivity.
  - intros rt tool body h env args Hroom. apply method_admits, Hroom.
  - intros rt business o tool props envs Hfresh Hsorted Hvalid Hbody quota.
    destruct envs as [|env0 rest]; [constructor|].
    apply (tool_calls_refine rt business tool props
             (apiClient (handler_for o tool)) (isMockMode (handler_for o tool)) quota
             (env0 :: rest) Hvalid Hbody o [] (now env0 - 60000));
      try reflexivity; try assumption.
    + intros w _. rewrite Hfresh. reflexivity.
    + intros env Henv. injection Henv as <-. lia.
  - intros quota times. destruct (verdicts_admitted quota times []) as [Hlen Hmap].
    split; [exact Hlen|]. split; [exact Hmap|].
    intros Hquota T.
    apply (admitted_window_bound quota times []).
    intros T'. simpl. exact Hquota.
  - intros h toolName times Hfresh Hsorted.
    assert (Hrefine : snd (admitted_calls h toolName times)
                      = SlidingWindow.admitted (maxRequestsPerMinute h) [] times).
    { destruct times as [|t0 rest]; [reflexivity|].
      apply (admitted_calls_refine toolName (t0 :: rest) h [] (t0 - 60000)).
      - intros w _. rewrite Hfresh. reflexivity.
      - intros t Ht. injection Ht as <-. lia.
      - exact Hsorted. }
    split; [exact Hrefine|].
    intros Hquota T. rewrite Hrefine.
    apply (admitted_window_bound (maxRequestsPerMinute h) times []).
    intros T'. simpl. exact Hquota.
  - intros now. unfold recent. simpl.
    destruct (Z.ltb_spec (now - 60000) (now - 60000)); [lia|].
    destruct (Z.ltb_spec (now - 60000) (now - 59999)); [|lia].
    split; reflexivity.
  - intros apiKey tool. destruct tool; split; reflexivity.
Qed.

(** Sixty-one [search-leads] calls through [handleToolCall] within one
    window at the default quota, then one more once the first has
    expired. *)
Lemma rate_limit_sliding_window_witness :
  let envs := map Fixture.env (map Z.of_nat (seq 1 61) ++ [60001])%list in
  let request := {| name := "search-leads";
                    arguments := Some [("jobTitle", JString "CEO"); ("limit", JNumber 1)] |} in
  let outcomes := snd (tool_calls Fixture.runtime Fixture.business Fixture.orchestrator
                         request envs) in
  verdicts 60 [] (map now envs) = (repeat true 60 ++ [false; true])%list
  /\ Forall2
       (fun (call : CallEnv * bool) (outcome : Outcome IToolResponse) =>
          if snd call
          then exists e, outcome = Returned e /\ isError e = false /\ errorCode e = None
          else outcome
               = Returned (Response.error (rate_limit_message "search-leads" 60)
                             RATE_LIMIT_EXCEEDED
                             (Some (generateRequestId (idTime (fst call))
                                      (idRandom (fst call))))))
       (combine envs (verdicts 60 [] (map now envs))) outcomes
  /\ map (fun outcome => match outcome with
                         | Returned e => errorCode e
                         | Threw _ => Some "thrown"
                         end) outcomes
     = (repeat None 60 ++ [Some "RATE_LIMIT_EXCEEDED"; None])%list.
Proof.
  intros envs request outcomes.
  split; [vm_compute; reflexivity|]. split; [|vm_compute; reflexivity].
  apply (proj1 (proj2 (proj2 (proj2 rate_limit_sliding_window)))
           Fixture.runtime Fixture.business Fixture.orchestrator SearchLeads
           [("jobTitle", JString "CEO"); ("limit", JNumber 1)] envs).
  - reflexivity.
  - vm_compute. reflexivity.
  - reflexivity.
  - intros h env Hclient _. cbn [body_of]. unfold searchLeads_body.
    rewrite Hclient. eexists. reflexivity.
Defined.

(** ** Validation failures inside a handler *)

Lemma check_fields_first_missing (params : JSValue) (fields : list string) (name : string) :
  (exists field, In field fields /\ is_missing params field = true) ->
  exists missing,
    In missing fields /\ is_missing params missing = true
    /\ check_fields params fields name
       = Threw (ErrorObject ("Missing required parameter for " +:+ name +:+ ": " +:+ missing)).
Proof.
  induction fields as [|f rest IH]; intros (field & Hin & Hmiss); [destruct Hin|].
  simpl. fold (is_missing params f).
  destruct (is_missing params f) eqn:Hf.
  - exists f. repeat split; [left; reflexivity | exact Hf].
  - destruct Hin as [->|Hin]; [congruence|].
    destruct IH as (missing & Hin' & Hmiss' & Hcheck); [eauto|].
    exists missing. repeat split; [right; exact Hin' | exact Hmiss' | exact Hcheck].
Qed.

Lemma missing_field_is_api_error (tool : Tool) (missing : string)
    (requestId : option string) :
  In missing (requiredFields tool) ->
  handleError
    (ErrorObject ("Missing required parameter for " +:+ toolName tool +:+ ": " +:+ missing))
    (toolName tool) requestId
  = Returned (Response.error
                ("API error in " +:+ toolName tool +:+ ": " +:+
                 "Missing required parameter for " +:+ toolName tool +:+ ": " +:+ missing)
                API_ERROR requestId).
Proof.
  intros Hin.
  destruct tool; simpl in Hin;
    repeat match goal with
           | H : _ \/ _ |- _ => destruct H as [H|H]
           | H : False |- _ => destruct H
           | H : _ = missing |- _ => subst missing
           end; reflexivity.
Qed.

(** C5. A missing required field is reported with the code [API_ERROR],
    not [INVALID_PARAMETERS]: for a tool with required fields and an
    argument record in which one of them is absent, [null] or [undefined],
    a call the rate limiter admits returns the error envelope with code
    [API_ERROR], whose text
    [API error in <tool>: Missing required parameter for <tool>: <field>]
    names the first missing field. The method's own [catch] classifies the
    error of [validateRequired]; the [Missing required] case of
    [handleToolError], which would answer [INVALID_PARAMETERS], is never
    reached. *)
Theorem missing_required_field_is_api_error (rt : Runtime) (business : Tool -> Body)
    (o : Orchestrator.t) (env : CallEnv) (tool : Tool)
    (props : list (string * JSValue)) (field : string) :
  Z.of_nat (length (recent (now env - 60000)
                      (bucket (handler_for o tool) (toolName tool))))
    < maxRequestsPerMinute (handler_for o tool) ->
  In field (requiredFields tool) ->
  is_missing (JObject props) field = true ->
  exists missing,
    In missing (requiredFields tool)
    /\ is_missing (JObject props) missing = true
    /\ snd (handleToolCall rt business o env
              {| name := toolName tool; arguments := Some props |})
       = Returned (Response.error
                     ("API error in " +:+ toolName tool +:+ ": " +:+
                      "Missing required parameter for " +:+ toolName tool +:+ ": " +:+
                      missing)
                     API_ERROR
                     (Some (generateRequestId (idTime env) (idRandom env))))
    /\ includes ("API error in " +:+ toolName tool +:+ ": " +:+
                 "Missing required parameter for " +:+ toolName tool +:+ ": " +:+ missing)
         missing = true.
Proof.
  intros Hroom Hin Hmiss.
  destruct (check_fields_first_missing (JObject props) (requiredFields tool) (toolName tool))
    as (missing & Hin' & Hmiss' & Hcheck); [eauto|].
  exists missing. split; [exact Hin'|]. split; [exact Hmiss'|]. split.
  - rewrite handleToolCall_registered. unfold call, method.
    destruct (checkRateLimit_admits _ _ _ Hroom) as (h' & -> & _).
    unfold validateRequired. cbn [truthy typeof_object negb orb].
    rewrite Hcheck. cbn [bind try_catch snd].
    rewrite (missing_field_is_api_error tool missing _ Hin'). reflexivity.
  - repeat apply includes_prepend. apply includes_self.
Qed.

Lemma missing_required_field_is_api_error_witness :
  exists missing,
    In missing (requiredFields EnrichContact)
    /\ is_missing (JObject []) missing = true
    /\ snd (handleToolCall Fixture.runtime Fixture.business Fixture.orchestrator
              (Fixture.env 0) {| name := "enrich-contact"; arguments := Some [] |})
       = Returned (Response.error
                     ("API error in enrich-contact: " +:+
                      "Missing required parameter for enrich-contact: " +:+ missing)
                     API_ERROR (Some "req_0_k3v9x0q1z"))
    /\ includes ("API error in enrich-contact: " +:+
                 "Missing required parameter for enrich-contact: " +:+ missing)
         missing = true.
Proof.
  apply (missing_required_field_is_api_error Fixture.runtime Fixture.business
           Fixture.orchestrator (Fixture.env 0) EnrichContact [] "email").
  - vm_compute. reflexivity.
  - simpl. left. reflexivity.
  - reflexivity.
Defined.




(** ** Mock mode *)

Lemma method_success_envelope (rt : Runtime) (name : string) (fields : list string)
    (body : Body) (h : BaseToolHandler.t) (env : CallEnv) (args : JSValue)
    (e : IToolResponse) :
  snd (method rt name fields body h env args) = Returned e ->
  isError e = false ->
  exists data message,
    body (fst (checkRateLimit h name (now env))) env args = Returned (data, message)
    /\ e = createSuccessResponse rt data message
             (Some (generateRequestId (idTime env) (idRandom env))).
Proof.
  unfold method.
  destruct (checkRateLimit h name (now env)) as [h1 admitted]. simpl.
  destruct admitted as [[]|e1]; simpl.
  2:{ intros H Hok. apply handleError_is_error in H. congruence. }
  destruct (validateRequired args fields name) as [params|e2] eqn:Hvalid; simpl.
  2:{ intros H Hok. apply handleError_is_error in H. congruence. }
  apply validateRequired_returns in Hvalid. subst params.
  destruct (body h1 env args) as [[data message]|e3]; simpl.
  - intros H _. injection H as <-. exists data, message. split; reflexivity.
  - intros H Hok. apply handleError_is_error in H. congruence.
Qed.

Lemma searchLeads_body_message (rt : Runtime) (h : BaseToolHandler.t) (env : CallEnv)
    (params data : JSValue) (message : option string) :
  searchLeads_body rt h env params = Returned (data, message) ->
  exists summary, message = Some ("Found " +:+ summary).
Proof.
  unfold searchLeads_body.
  match goal with
  | |- (if ?c then _ else _) = _ -> _ => destruct c; [discriminate|]
  end.
  match goal with
  | |- bind ?c _ = _ -> _ => destruct c as [results|e]; [|discriminate]
  end.
  cbn [bind].
  match goal with
  | |- bind ?c _ = _ -> _ => destruct c as [count|e]; [|discriminate]
  end.
  cbn [bind].
  destruct (formatLeads results) as [formatted|e]; [|discriminate].
  cbn [bind]. intros H. injection H as _ <-. eexists. reflexivity.
Qed.

Lemma found_text (rt : Runtime) (data : JSValue) (summary : string)
    (rid : option string) :
  let e := createSuccessResponse rt data (Some ("Found " +:+ summary)) rid in
  String.prefix "Found " (first_text e) = true
  /\ String.prefix "[MOCK MODE] " (first_text e) = false.
Proof.
  cbv zeta.
  change (first_text (createSuccessResponse rt data (Some ("Found " +:+ summary)) rid))
    with ("Found " +:+ (summary +:+ LF +:+ LF +:+ JSON_stringify rt data)).
  split; [apply prefix_append | reflexivity].
Qed.

(** C10. No envelope that [handleToolCall] or a handler method
    returns carries the code [MOCK_MODE], although it is one of
    [ERROR_CODES]. The envelopes of the mock builders,
    [createMockResponse] and [mockResponse], are success envelopes
    ([isError] false, no [errorCode]) whose text starts with
    ["[MOCK MODE] "]; but every success envelope a method returns is the
    one [createSuccessResponse] builds from the data and the message of
    its body, with the request id of the call, and every success envelope
    of [search-leads], with or without API client, has no [errorCode] and
    a text that starts with ["Found "], not with ["[MOCK MODE] "]. *)
Theorem mock_mode_code_is_never_returned :
  (forall (rt : Runtime) (business : Tool -> Body) (o o' : Orchestrator.t) (env : CallEnv)
          (request : CallToolRequest) (e : IToolResponse),
      handleToolCall rt business o env request = (o', Returned e) ->
      errorCode e <> Some (ERROR_CODES MOCK_MODE))
  /\ (forall (rt : Runtime) (business : Tool -> Body) (tool : Tool)
             (h : BaseToolHandler.t) (env : CallEnv) (args : JSValue) (e : IToolResponse),
        snd (call rt business tool h env args) = Returned e ->
        errorCode e <> Some (ERROR_CODES MOCK_MODE))
  /\ (forall (rt : Runtime) (mockData : JSValue) (toolName : string)
             (requestId : option string),
        let e := createMockResponse rt mockData toolName requestId in
        isError e = false /\ errorCode e = None
        /\ String.prefix "[MOCK MODE] " (first_text e) = true)
  /\ (forall (mockData : string) (requestId : option string),
        let e := Response.mockResponse mockData requestId in
        isError e = false /\ errorCode e = None
        /\ String.prefix "[MOCK MODE] " (first_text e) = true)
  /\ (forall (rt : Runtime) (business : Tool -> Body) (tool : Tool)
             (h : BaseToolHandler.t) (env : CallEnv) (args : JSValue) (e : IToolResponse),
        snd (call rt business tool h env args) = Returned e ->
        isError e = false ->
        exists data message,
          body_of rt business tool (fst (checkRateLimit h (toolName tool) (now env)))
            env args
          = Returned (data, message)
          /\ e = createSuccessResponse rt data message
                   (Some (generateRequestId (idTime env) (idRandom env))))
  /\ (forall (rt : Runtime) (business : Tool -> Body) (o : Orchestrator.t) (env : CallEnv)
             (props : list (string * JSValue)) (e : IToolResponse),
        snd (handleToolCall rt business o env
               {| name := "search-leads"; arguments := Some props |}) = Returned e ->
        isError e = false ->
        errorCode e = None
        /\ String.prefix "Found " (first_text e) = true
        /\ String.prefix "[MOCK MODE] " (first_text e) = false).
Proof.
  split; [|split; [|split; [|split; [|split]]]].
  - intros rt business o o' env request e Hcall.
    destruct (handleToolCall_returns rt business o env request)
      as (o1 & e1 & Heq & Henv & _).
    rewrite Hcall in Heq. injection Heq as _ <-.
    apply (dispatch_envelope_closed e Henv).
  - intros rt business tool h env args e Hcall.
    pose proof (method_outcome rt (toolName tool) (requiredFields tool)
                  (body_of rt business tool) h env args) as Hout.
    unfold call in Hcall. rewrite Hcall in Hout.
    destruct Hout as [(text & rid & ->) | (text & code & rid & -> & Hc & _)];
      [discriminate|].
    simpl. destruct code; try discriminate. congruence.
  - intros rt mockData toolName requestId. cbv zeta.
    split; [reflexivity|]. split; [reflexivity|].
    unfold createMockResponse, Response.mockResponse, first_text.
    cbn [content text]. apply prefix_append.
  - intros mockData requestId. cbv zeta.
    split; [reflexivity|]. split; [reflexivity|].
    unfold Response.mockResponse, first_text.
    cbn [content text]. apply prefix_append.
  - intros rt business tool h env args e Hcall Hok.
    unfold call in Hcall. apply (method_success_envelope _ _ _ _ _ _ _ _ Hcall Hok).
  - intros rt business o env props e Hcall Hok.
    change "search-leads" with (toolName SearchLeads) in Hcall.
    rewrite handleToolCall_registered in Hcall. unfold call in Hcall.
    pose proof (method_outcome rt (toolName SearchLeads) (requiredFields SearchLeads)
                  (body_of rt business SearchLeads) (handler_for o SearchLeads) env
                  (JObject props)) as Hout.
    destruct (snd (method rt (toolName SearchLeads) (requiredFields SearchLeads)
                     (body_of rt business SearchLeads) (handler_for o SearchLeads) env
                     (JObject props))) as [e1|t] eqn:Hmethod.
    + cbn [try_catch] in Hcall. injection Hcall as ->.
      destruct (method_success_envelope _ _ _ _ _ _ _ _ Hmethod Hok)
        as (data & message & Hbody & ->).
      cbn [body_of] in Hbody.
      destruct (searchLeads_body_message _ _ _ _ _ _ Hbody) as [summary ->].
      split; [reflexivity|]. apply found_text.
    + subst t. exfalso.
      destruct (handleToolError_returns (toolName SearchLeads)
                  "Cannot convert object to primitive value") as (text & code & Heq & _).
      cbn [try_catch] in Hcall.
      unfold conversion_error, TypeError in Hcall. rewrite Heq in Hcall.
      injection Hcall as <-. discriminate.
Qed.

Lemma mock_mode_code_is_never_returned_witness :
  exists e,
    handleToolCall Fixture.runtime Fixture.business Fixture.orchestrator (Fixture.env 0)
      {| name := "get-api-usage"; arguments := Some [] |}
    = (fst (handleToolCall Fixture.runtime Fixture.business Fixture.orchestrator
              (Fixture.env 0) {| name := "get-api-usage"; arguments := Some [] |}),
       Returned e)
    /\ errorCode e <> Some (ERROR_CODES MOCK_MODE).
Proof.
  eexists. split; [vm_compute; reflexivity|].
  eapply (proj1 mock_mode_code_is_never_returned Fixture.runtime Fixture.business
            Fixture.orchestrator _ (Fixture.env 0)
            {| name := "get-api-usage"; arguments := Some [] |}).
  vm_compute. reflexivity.
Defined.

(** The offline path of [search-leads] (no API client, mock mode) answers
    with an ordinary success envelope whose text does not start with
    ["[MOCK MODE] "]: no method calls the mock builders. *)
Lemma offline_search_leads_is_not_prefixed :
  exists e,
    snd (handleToolCall Fixture.runtime Fixture.business Fixture.orchestrator (Fixture.env 0)
           {| name := "search-leads";
              arguments := Some [("jobTitle", JString "CEO"); ("limit", JNumber 1)] |})
    = Returned e
    /\ apiClient (leadTools Fixture.orchestrator) = None
    /\ isMockMode (leadTools Fixture.orchestrator) = true
    /\ isError e = false
    /\ errorCode e = None
    /\ first_text e
       = "Found 1 leads matching your criteria:" +:+ LF +:+ LF +:+
         "• Lead 1 - CEO at Company 1 (Various, 50-200 employees, United States)" +:+
         LF +:+ LF +:+ "{}"
    /\ String.prefix "[MOCK MODE] " (first_text e) = false.
Proof.
  eexists. split; [vm_compute; reflexivity|].
  repeat split.
Qed.

(** ** Sessions *)

(** C8. A POST whose [mcp-session-id] header is a non-empty id
    that the transport table does not store never changes the table; and
    when the lookup [transports[sessionId]] finds nothing at all, the answer
    is status 400 with the error [Bad Request: invalid session ID or
    method.] *)
Theorem unknown_session_is_rejected (transports : gmap string Transport) (env : PostEnv)
    (sessionId : string) (body : JSValue) :
  sessionId <> "" ->
  transports !! sessionId = None ->
  fst (handlePostRequest transports env (Some sessionId) body) = transports
  /\ (transports_get transports sessionId = Undefined ->
      handlePostRequest transports env (Some sessionId) body
      = (transports,
         Json 400 (createErrorResponse "Bad Request: invalid session ID or method."))).
Proof.
  intros Hne Hnone. unfold handlePostRequest.
  destruct (String.eqb_spec sessionId "") as [|_]; [contradiction|].
  cbn [negb andb]. unfold transports_get. rewrite Hnone.
  destruct (name_in Object_prototype_names sessionId); split; try reflexivity.
  discriminate.
Qed.

Lemma unknown_session_is_rejected_witness :
  let transports : gmap string Transport := {[ "6f1c2a9e-0b7d-4c55-9f0e-2d1a7b3c4e5f" := 1%nat ]} in
  let env := {| handleRequest := fun _ => Returned tt; created := 2%nat;
                connect := Returned tt; handleInitial := Returned tt;
                newSessionId := Some "0e8b9d1c-7a64-4f3b-8c2d-5e6f7a8b9c0d" |} in
  handlePostRequest transports env (Some "not-a-session")
    (JObject [("method", JString "initialize")])
  = (transports, Json 400 (createErrorResponse "Bad Request: invalid session ID or method.")).
Proof.
  intros transports env.
  apply (unknown_session_is_rejected transports env "not-a-session"
           (JObject [("method", JString "initialize")])).
  - discriminate.
  - reflexivity.
  - reflexivity.
Defined.

(** An [initialize] POST whose session-id header is the empty string, an id
    the table does not hold, is treated as carrying no id: a transport is
    created and stored. *)
Lemma empty_session_id_creates_a_session :
  let env := {| handleRequest := fun _ => Returned tt; created := 2%nat;
                connect := Returned tt; handleInitial := Returned tt;
                newSessionId := Some "0e8b9d1c-7a64-4f3b-8c2d-5e6f7a8b9c0d" |} in
  (∅ : gmap string Transport) !! "" = None
  /\ handlePostRequest ∅ env (Some "") (JObject [("method", JString "initialize")])
     = ({[ "0e8b9d1c-7a64-4f3b-8c2d-5e6f7a8b9c0d" := 2%nat ]}, HandledBy 2%nat)
  /\ fst (handlePostRequest ∅ env (Some "") (JObject [("method", JString "initialize")]))
     <> ∅.
Proof.
  intros env. split; [reflexivity|]. split; [reflexivity|].
  intros H. apply (f_equal (fun m => m !! "0e8b9d1c-7a64-4f3b-8c2d-5e6f7a8b9c0d")) in H.
  vm_compute in H. discriminate.
Qed.

(** ** The heartbeat timer *)

Lemma run_app (s : Stream) (a b : list Event) :
  run s (a ++ b) = match run s a with
                   | Some s1 => run s1 b
                   | None => None
                   end.
Proof.
  revert s. induction a as [|e a IH]; intros s; simpl; [reflexivity|].
  destruct (step s e); [apply IH | reflexivity].
Qed.

Lemma cancellations_app (s : Stream) (a b : list Event) :
  cancellations s (a ++ b)
  = (cancellations s a + match run s a with
                         | Some s1 => cancellations s1 b
                         | None => 0
                         end)%nat.
Proof.
  revert s. induction a as [|e a IH]; intros s; simpl; [reflexivity|].
  destruct (step s e) as [s1|]; [|reflexivity].
  rewrite IH. lia.
Qed.

Lemma step_facts (s s1 : Stream) (e : Event) :
  heartbeatInterval s <> NotSet ->
  step s e = Some s1 ->
  heartbeatInterval s1 <> NotSet
  /\ onCloseRegistered s1 = onCloseRegistered s
  /\ (clearIntervalCalls s <= clearIntervalCalls s1)%nat
  /\ ((match heartbeatInterval s, heartbeatInterval s1 with
       | Active, Cleared => 1
       | _, _ => 0
       end) + cleared_count s = cleared_count s1)%nat
  /\ (heartbeatInterval s = Cleared -> sent s1 = sent s /\ e <> TimerFires).
Proof.
  intros Hset Hstep. unfold cleared_count.
  destruct e as [|rejected|]; simpl in Hstep.
  - destruct (heartbeatInterval s) eqn:Hi; try discriminate.
    injection Hstep as <-. simpl.
    repeat split; try discriminate; try congruence; try lia.
  - destruct (pendingSends s) as [|n]; [discriminate|].
    injection Hstep as <-.
    destruct rejected; simpl; destruct (heartbeatInterval s) eqn:Hi;
      repeat split; try discriminate; try congruence; try lia.
  - injection Hstep as <-.
    destruct (onCloseRegistered s) eqn:Hreg; simpl;
      destruct (heartbeatInterval s) eqn:Hi;
      repeat split; try discriminate; try congruence; try lia.
Qed.

Lemma run_facts (events : list Event) :
  forall s s',
    heartbeatInterval s <> NotSet ->
    run s events = Some s' ->
    heartbeatInterval s' <> NotSet
    /\ onCloseRegistered s' = onCloseRegistered s
    /\ (clearIntervalCalls s <= clearIntervalCalls s')%nat
    /\ (cancellations s events + cleared_count s = cleared_count s')%nat
    /\ (heartbeatInterval s = Cleared ->
        heartbeatInterval s' = Cleared /\ sent s' = sent s /\ ~ In TimerFires events).
Proof.
  induction events as [|e rest IH]; intros s s' Hset Hrun; simpl in Hrun |- *.
  - injection Hrun as <-. repeat split; try assumption; try lia; tauto.
  - destruct (step s e) as [s1|] eqn:Hstep; [|discriminate].
    destruct (step_facts s s1 e Hset Hstep) as (Hset1 & Hreg1 & Hcalls1 & Hcount1 & Hclr1).
    destruct (IH s1 s' Hset1 Hrun) as (Hset' & Hreg' & Hcalls' & Hcount' & Hclr').
    assert (Hc1 : heartbeatInterval s = Cleared -> heartbeatInterval s1 = Cleared).
    { intros Hc. unfold cleared_count in Hcount1. rewrite Hc in Hcount1.
      destruct (heartbeatInterval s1); simpl in Hcount1; [lia | lia | reflexivity]. }
    split; [exact Hset'|]. split; [congruence|]. split; [lia|]. split; [lia|].
    intros Hc.
    destruct (Hclr' (Hc1 Hc)) as (Hfinal & Hsent' & Hno).
    destruct (Hclr1 Hc) as [Hsent1 Hne].
    split; [exact Hfinal|]. split; [congruence|].
    intros [Heq|Hin]; [congruence | exact (Hno Hin)].
Qed.

(** What a run sends and leaves pending. *)
Lemma run_log (events : list Event) :
  forall s s',
    run s events = Some s' ->
    sent s' = (sent s ++ repeat Heartbeat (timer_fires events))%list
    /\ (pendingSends s' + settled events = pendingSends s + timer_fires events)%nat.
Proof.
  induction events as [|e events IH]; intros s s'; cbn [run].
  - intros H. injection H as <-. cbn. rewrite app_nil_r. split; [reflexivity | lia].
  - destruct (step s e) as [s1|] eqn:Hstep; [|discriminate].
    intros Hrun. destruct (IH s1 s' Hrun) as [Hsent Hpending].
    rewrite Hsent. unfold timer_fires, settled in *.
    destruct e as [|rejected|]; cbn [step] in Hstep; cbn [List.filter length].
    + destruct (heartbeatInterval s); try discriminate.
      injection Hstep as <-. cbn [sent pendingSends] in *.
      rewrite <- app_assoc. cbn [repeat app]. split; [reflexivity | lia].
    + destruct (pendingSends s) as [|n] eqn:Hn; [discriminate|].
      injection Hstep as <-.
      destruct rejected; cbn [clearInterval sent pendingSends] in *;
        (split; [reflexivity | lia]).
    + injection Hstep as <-.
      destruct (onCloseRegistered s); cbn [clearInterval sent pendingSends] in *;
        (split; [reflexivity | lia]).
Qed.

(** Without a close callback only a rejected heartbeat clears the timer. *)
Lemma run_without_callback (events : list Event) :
  forall s s',
    onCloseRegistered s = false ->
    heartbeatInterval s = Active ->
    ~ In (SendSettles true) events ->
    run s events = Some s' ->
    onCloseRegistered s' = false
    /\ heartbeatInterval s' = Active
    /\ clearIntervalCalls s' = clearIntervalCalls s
    /\ cancellations s events = 0%nat.
Proof.
  induction events as [|e rest IH]; intros s s' Hreg Hactive Hno Hrun;
    cbn [run cancellations] in *.
  - injection Hrun as <-. auto.
  - destruct (step s e) as [s1|] eqn:Hstep; [|discriminate].
    assert (Hs1 : onCloseRegistered s1 = false /\ heartbeatInterval s1 = Active
                  /\ clearIntervalCalls s1 = clearIntervalCalls s).
    { destruct e as [|rejected|]; cbn [step] in Hstep.
      - rewrite Hactive in Hstep. injection Hstep as <-. auto.
      - destruct (pendingSends s); [discriminate|].
        destruct rejected; [exfalso; apply Hno; left; reflexivity|].
        injection Hstep as <-. auto.
      - rewrite Hreg in Hstep. injection Hstep as <-. auto. }
    destruct Hs1 as (Hreg1 & Hactive1 & Hcalls1).
    destruct (IH s1 s' Hreg1 Hactive1) as (Hreg' & Hactive' & Hcalls' & Hcancel);
      [intros Hin; apply Hno; right; exact Hin | exact Hrun |].
    rewrite Hactive, Hactive1, Hcancel.
    split; [exact Hreg'|]. split; [exact Hactive'|]. split; [congruence | reflexivity].
Qed.

(** C9. On the transport the server creates, the close of the channel does
    not stop the heartbeat. [streamMessages] starts the interval and then
    calls [transport.onClose], which a [StreamableHTTPServerTransport] does
    not have: the [catch] logs the TypeError and no callback is left to
    clear the interval. So in every run in which the channel reports
    closed and no heartbeat send is rejected, the timer is still active at
    the close and at the end, [clearInterval] has never run and the timer
    was cancelled zero times; every turn of the timer after the close
    sends one more heartbeat, and the timer can fire once more after the
    run. *)
Theorem close_does_not_stop_the_heartbeat (before after : list Event) (final : Stream) :
  let s0 := streamMessages (Returned tt) StreamableHTTPServerTransport_onClose in
  run s0 (before ++ ChannelCloses :: after) = Some final ->
  ~ In (SendSettles true) (before ++ after) ->
  exists closed next,
    run s0 (before ++ [ChannelCloses]) = Some closed
    /\ heartbeatInterval closed = Active
    /\ heartbeatInterval final = Active
    /\ clearIntervalCalls final = 0%nat
    /\ cancellations s0 (before ++ ChannelCloses :: after) = 0%nat
    /\ sent final = (sent closed ++ repeat Heartbeat (timer_fires after))%list
    /\ run s0 (before ++ ChannelCloses :: after ++ [TimerFires]) = Some next
    /\ sent next = (sent final ++ [Heartbeat])%list.
Proof.
  intros s0 Hrun Hno.
  assert (Hreg0 : onCloseRegistered s0 = false) by reflexivity.
  assert (Hactive0 : heartbeatInterval s0 = Active) by reflexivity.
  assert (Hno_all : ~ In (SendSettles true) (before ++ ChannelCloses :: after)).
  { intros Hin. apply in_app_or in Hin as [Hin|[Hin|Hin]];
      [apply Hno, in_or_app; left; exact Hin | discriminate
      | apply Hno, in_or_app; right; exact Hin]. }
  destruct (run_without_callback _ s0 final Hreg0 Hactive0 Hno_all Hrun)
    as (Hreg & Hactive & Hcalls & Hcancel).
  change (ChannelCloses :: after) with ([ChannelCloses] ++ after)%list in Hrun.
  rewrite app_assoc, run_app in Hrun.
  destruct (run s0 (before ++ [ChannelCloses])) as [closed|] eqn:Hclosed; [|discriminate].
  assert (Hno_closed : ~ In (SendSettles true) (before ++ [ChannelCloses])).
  { intros Hin. apply in_app_or in Hin as [Hin|[Hin|[]]];
      [apply Hno, in_or_app; left; exact Hin | discriminate]. }
  destruct (run_without_callback _ s0 closed Hreg0 Hactive0 Hno_closed Hclosed)
    as (_ & Hactive_closed & _ & _).
  destruct (run_log after closed final Hrun) as [Hsent _].
  pose (next := {| sent := (sent final ++ [Heartbeat])%list;
                   heartbeatInterval := Active;
                   onCloseRegistered := onCloseRegistered final;
                   pendingSends := S (pendingSends final);
                   clearIntervalCalls := clearIntervalCalls final |}).
  exists closed, next.
  split; [reflexivity|]. split; [exact Hactive_closed|]. split; [exact Hactive|].
  split; [exact Hcalls|]. split; [exact Hcancel|]. split; [exact Hsent|].
  split; [|reflexivity].
  change (ChannelCloses :: after ++ [TimerFires])
    with ([ChannelCloses] ++ (after ++ [TimerFires]))%list.
  rewrite app_assoc, run_app, Hclosed, run_app, Hrun.
  cbn [run step]. rewrite Hactive. reflexivity.
Qed.

Lemma close_does_not_stop_the_heartbeat_witness :
  let s0 := streamMessages (Returned tt) StreamableHTTPServerTransport_onClose in
  exists final closed next,
    run s0 [TimerFires; SendSettles false; ChannelCloses; TimerFires; SendSettles false;
            TimerFires] = Some final
    /\ run s0 [TimerFires; SendSettles false; ChannelCloses] = Some closed
    /\ sent closed = [ConnectionEstablished; Heartbeat]
    /\ sent final = [ConnectionEstablished; Heartbeat; Heartbeat; Heartbeat]
    /\ heartbeatInterval final = Active
    /\ sent next = (sent final ++ [Heartbeat])%list.
Proof.
  intros s0. eexists.
  destruct (close_does_not_stop_the_heartbeat
              [TimerFires; SendSettles false]
              [TimerFires; SendSettles false; TimerFires] _ eq_refl)
    as (closed & next & Hclosed & _ & Hactive & _ & _ & _ & _ & Hnext).
  { cbn [app In]. intros [H|[H|[H|[H|[H|[]]]]]]; discriminate. }
  exists closed, next.
  split; [reflexivity|]. split; [exact Hclosed|].
  split; [injection Hclosed as <-; reflexivity|].
  split; [reflexivity|]. split; [exact Hactive | exact Hnext].
Defined.

(* ===================================================================== *)
(** * Further properties of the code *)
(* ===================================================================== *)

(** ** The registry *)

Lemma registered_In (name : string) :
  registered name = true <-> In name getAvailableTools.
Proof.
  rewrite registered_names. unfold array_includes. rewrite existsb_exists. split.
  - intros (label & Hin & Heq). apply String.eqb_eq in Heq. subst label. exact Hin.
  - intros Hin. exists name. split; [exact Hin | apply String.eqb_refl].
Qed.

(** X1. The names [tools/list] advertises (those of [toolDefinitions]) are,
    in the same order, the names of [getAvailableTools] and of the 25
    handler methods; no name occurs twice; a name is listed exactly when
    one of the five [is*Tool] predicates accepts it; and [dispatchTool]
    sends every listed name to the method of that name on its handler
    group. *)
Theorem advertised_tools_are_dispatched :
  map ToolDefinitions.name ToolDefinitions.toolDefinitions = getAvailableTools
  /\ map toolName all_tools = getAvailableTools
  /\ NoDup getAvailableTools
  /\ (forall name, In name getAvailableTools <-> registered name = true)
  /\ (forall (rt : Runtime) (business : Tool -> Body) (o : Orchestrator.t) (env : CallEnv)
             (name : string) (args : JSValue),
        In name getAvailableTools ->
        exists tool,
          name = toolName tool
          /\ dispatchTool rt business o env name args
             = on_handler_for o tool (fun h => call rt business tool h env args)).
Proof.
  split; [reflexivity|]. split; [reflexivity|]. split; [|split].
  - apply (bool_decide_unpack _). vm_compute. exact I.
  - intros name. symmetry. apply registered_In.
  - intros rt business o env name args Hin.
    apply registered_In, registered_tool in Hin as [tool ->].
    exists tool. split; [reflexivity | apply dispatch_registered].
Qed.

Lemma advertised_tools_are_dispatched_witness :
  In "log-call" getAvailableTools
  /\ exists tool,
       "log-call" = toolName tool
       /\ dispatchTool Fixture.runtime Fixture.business Fixture.orchestrator (Fixture.env 0)
            "log-call" (JObject [])
          = on_handler_for Fixture.orchestrator tool
              (fun h => call Fixture.runtime Fixture.business tool h (Fixture.env 0)
                          (JObject [])).
Proof.
  assert (Hin : In "log-call" getAvailableTools) by (simpl; tauto).
  split; [exact Hin|].
  apply (proj2 (proj2 (proj2 (proj2 advertised_tools_are_dispatched)))
           Fixture.runtime Fixture.business Fixture.orchestrator (Fixture.env 0)
           "log-call" (JObject []) Hin).
Defined.

Lemma method_missing_field (rt : Runtime) (tool : Tool) (body : Body)
    (h : BaseToolHandler.t) (env : CallEnv) (props : list (string * JSValue))
    (field : string) :
  In field (requiredFields tool) ->
  is_missing (JObject props) field = true ->
  exists e,
    snd (method rt (toolName tool) (requiredFields tool) body h env (JObject props))
    = Returned e
    /\ isError e = true.
Proof.
  intros Hin Hmiss.
  destruct (Z.lt_ge_cases
              (Z.of_nat (length (recent (now env - 60000) (bucket h (toolName tool)))))
              (maxRequestsPerMinute h)) as [Hroom|Hfull].
  - destruct (check_fields_first_missing (JObject props) (requiredFields tool)
                (toolName tool)) as (missing & Hin' & _ & Hcheck); [eauto|].
    unfold method.
    destruct (checkRateLimit_admits _ _ _ Hroom) as (h' & -> & _).
    unfold validateRequired. cbn [truthy typeof_object negb orb].
    rewrite Hcheck. cbn [bind try_catch snd].
    rewrite (missing_field_is_api_error tool missing _ Hin').
    eexists. split; reflexivity.
  - rewrite (method_rejects rt _ _ body h env (JObject props) Hfull).
    eexists. split; reflexivity.
Qed.

(** X2. The [required] list of every tool definition is, tool by tool, the
    list the method of that name passes to [validateRequired]; every
    required field is one of the declared properties; and a call of an
    advertised tool whose arguments lack a field the schema requires
    (absent, [null] or [undefined]) ends in an error envelope. *)
Theorem schema_required_fields_are_enforced :
  map (fun d => (ToolDefinitions.name d, ToolDefinitions.required d))
    ToolDefinitions.toolDefinitions
  = map (fun tool => (toolName tool, requiredFields tool)) all_tools
  /\ (forall d field,
        In d ToolDefinitions.toolDefinitions ->
        In field (ToolDefinitions.required d) ->
        In field (ToolDefinitions.properties d))
  /\ (forall (rt : Runtime) (business : Tool -> Body) (o : Orchestrator.t) (env : CallEnv)
             (d : ToolDefinitions.ToolDefinition) (props : list (string * JSValue))
             (field : string),
        In d ToolDefinitions.toolDefinitions ->
        In field (ToolDefinitions.required d) ->
        is_missing (JObject props) field = true ->
        exists e,
          snd (handleToolCall rt business o env
                 {| name := ToolDefinitions.name d; arguments := Some props |})
          = Returned e
          /\ isError e = true).
Proof.
  assert (Halign :
    map (fun d => (ToolDefinitions.name d, ToolDefinitions.required d))
      ToolDefinitions.toolDefinitions
    = map (fun tool => (toolName tool, requiredFields tool)) all_tools) by reflexivity.
  split; [exact Halign|]. split.
  - intros d field Hd Hfield.
    assert (Hall : forallb (fun d =>
                      forallb (fun f => existsb (String.eqb f) (ToolDefinitions.properties d))
                        (ToolDefinitions.required d))
                     ToolDefinitions.toolDefinitions = true) by reflexivity.
    rewrite forallb_forall in Hall. specialize (Hall d Hd).
    rewrite forallb_forall in Hall. specialize (Hall field Hfield).
    apply existsb_exists in Hall as (p & Hp & Heq).
    apply String.eqb_eq in Heq. subst p. exact Hp.
  - intros rt business o env d props field Hd Hfield Hmiss.
    assert (Hpair : In (ToolDefinitions.name d, ToolDefinitions.required d)
                      (map (fun tool => (toolName tool, requiredFields tool)) all_tools)).
    { rewrite <- Halign.
      apply (in_map (fun d => (ToolDefinitions.name d, ToolDefinitions.required d))).
      exact Hd. }
    apply in_map_iff in Hpair as (tool & Heq & _).
    injection Heq as Hname Hreq. rewrite <- Hname, <- Hreq in *.
    rewrite handleToolCall_registered. unfold call.
    destruct (method_missing_field rt tool (body_of rt business tool) (handler_for o tool)
                env props field Hfield Hmiss) as (e & -> & He).
    exists e. split; [reflexivity | exact He].
Qed.

Lemma schema_required_fields_are_enforced_witness :
  let d := {| ToolDefinitions.name := "create-deal";
              ToolDefinitions.properties :=
                ["name"; "value"; "stage"; "contactId"; "accountId"; "closeDate";
                 "probability"; "description"];
              ToolDefinitions.required := ["name"; "value"; "stage"] |} in
  exists e,
    snd (handleToolCall Fixture.runtime Fixture.business Fixture.orchestrator (Fixture.env 0)
           {| name := "create-deal";
              arguments := Some [("name", JString "Renewal"); ("value", JNull)] |})
    = Returned e
    /\ isError e = true.
Proof.
  intros d.
  apply (proj2 (proj2 schema_required_fields_are_enforced) Fixture.runtime Fixture.business
           Fixture.orchestrator (Fixture.env 0) d
           [("name", JString "Renewal"); ("value", JNull)] "value").
  - unfold ToolDefinitions.toolDefinitions, d. simpl. tauto.
  - simpl. tauto.
  - reflexivity.
Defined.

(** ** Rate-limit accounting *)

Lemma checkRateLimit_frame (h : BaseToolHandler.t) (toolName : string) (now : Z) :
  let h' := fst (checkRateLimit h toolName now) in
  (forall key, key <> toolName -> bucket h' key = bucket h key)
  /\ maxRequestsPerMinute h' = maxRequestsPerMinute h
  /\ apiClient h' = apiClient h
  /\ isMockMode h' = isMockMode h.
Proof.
  cbv zeta.
  destruct (Z.lt_ge_cases
              (Z.of_nat (length (recent (now - 60000) (bucket h toolName))))
              (maxRequestsPerMinute h)) as [Hroom|Hfull].
  - destruct (checkRateLimit_admits h toolName now Hroom)
      as (h' & -> & _ & Hothers & Hmax & Hclient & Hmock).
    repeat split; assumption.
  - rewrite (checkRateLimit_rejects h toolName now Hfull). simpl.
    split; [intros key _; apply bucket_with_bucket|].
    split; [apply with_bucket_max|].
    split; [apply with_bucket_apiClient | apply with_bucket_isMockMode].
Qed.

Lemma handler_for_after (o : Orchestrator.t) (called tool : Tool)
    (m : BaseToolHandler.t -> BaseToolHandler.t * Outcome IToolResponse) :
  handler_for (fst (on_handler_for o called m)) tool = handler_for o tool
  \/ (handler_for o tool = handler_for o called
      /\ handler_for (fst (on_handler_for o called m)) tool = fst (m (handler_for o called))).
Proof.
  destruct called, tool; simpl;
    unfold on_leadTools, on_contactTools, on_sequenceTools, on_dealTools,
      on_analyticsTools;
    match goal with |- context [m ?h] => destruct (m h) end; simpl; auto.
Qed.

(** X3. A call of a registered tool that the rate limiter admits leaves
    the bucket of that tool as the pruned bucket followed by the clock
    reading, whatever the method does afterwards (validation failure,
    business failure or success); a request without arguments leaves the
    orchestrator as it was. *)
Theorem admitted_call_consumes_a_slot (rt : Runtime) (business : Tool -> Body)
    (o : Orchestrator.t) (env : CallEnv) (tool : Tool) (props : list (string * JSValue)) :
  Z.of_nat (length (recent (now env - 60000)
                      (bucket (handler_for o tool) (toolName tool))))
    < maxRequestsPerMinute (handler_for o tool) ->
  let o' := fst (handleToolCall rt business o env
                   {| name := toolName tool; arguments := Some props |}) in
  bucket (handler_for o' tool) (toolName tool)
  = (recent (now env - 60000) (bucket (handler_for o tool) (toolName tool))
       ++ [now env])%list
  /\ fst (handleToolCall rt business o env
            {| name := toolName tool; arguments := None |}) = o.
Proof.
  intros Hroom. cbv zeta. split; [|reflexivity].
  rewrite handleToolCall_fst_registered, handler_for_called.
  unfold call. rewrite method_fst.
  destruct (checkRateLimit_admits _ _ _ Hroom) as (h' & -> & Hbucket & _).
  exact Hbucket.
Qed.

Lemma admitted_call_consumes_a_slot_witness :
  let o' := fst (handleToolCall Fixture.runtime Fixture.business Fixture.orchestrator
                   (Fixture.env 5) {| name := "create-contact"; arguments := Some [] |}) in
  bucket (contactTools o') "create-contact" = [5]
  /\ exists e,
       snd (handleToolCall Fixture.runtime Fixture.business Fixture.orchestrator
              (Fixture.env 5) {| name := "create-contact"; arguments := Some [] |})
       = Returned e /\ isError e = true.
Proof.
  intros o'. split.
  - apply (proj1 (admitted_call_consumes_a_slot Fixture.runtime Fixture.business
                    Fixture.orchestrator (Fixture.env 5) CreateContact []
                    ltac:(vm_compute; reflexivity))).
  - eexists. split; [vm_compute; reflexivity | reflexivity].
Defined.

(** X4. One [handleToolCall] changes no bucket other than that of the
    requested name: in every handler group the bucket of every other key,
    the quota and the mock flag are what they were. *)
Theorem call_touches_one_bucket (rt : Runtime) (business : Tool -> Body)
    (o : Orchestrator.t) (env : CallEnv) (request : CallToolRequest)
    (tool : Tool) (key : string) :
  key <> name request ->
  let h := handler_for o tool in
  let h' := handler_for (fst (handleToolCall rt business o env request)) tool in
  bucket h' key = bucket h key
  /\ maxRequestsPerMinute h' = maxRequestsPerMinute h
  /\ isMockMode h' = isMockMode h.
Proof.
  intros Hkey. cbv zeta.
  destruct request as [requested arguments]. cbn [name] in Hkey.
  destruct arguments as [props|]; [|repeat split].
  destruct (registered requested) eqn:Hreg.
  - apply registered_tool in Hreg as [called ->].
    rewrite handleToolCall_fst_registered.
    destruct (handler_for_after o called tool
                (fun h => call rt business called h env (JObject props)))
      as [-> | [Hsame ->]]; [repeat split|].
    unfold call. rewrite method_fst, Hsame.
    destruct (checkRateLimit_frame (handler_for o called) (toolName called) (now env))
      as (Hothers & Hmax & _ & Hmock).
    split; [apply Hothers, Hkey | split; assumption].
  - unfold handleToolCall. cbn [Orchestrator.arguments name].
    rewrite dispatch_unregistered by exact Hreg. repeat split.
Qed.

Lemma call_touches_one_bucket_witness :
  let request := {| name := "search-leads"; arguments := Some [] |} in
  let first := fst (handleToolCall Fixture.runtime Fixture.business
                      (Orchestrator.new true None) (Fixture.env 1) request) in
  let second := fst (handleToolCall Fixture.runtime Fixture.business first
                       (Fixture.env 2) request) in
  bucket (handler_for second SearchLeads) "search-leads" = [1; 2]
  /\ bucket (handler_for second SearchOrganizations) "search-organizations"
     = bucket (handler_for first SearchOrganizations) "search-organizations".
Proof.
  intros request first second. split; [reflexivity|].
  apply (call_touches_one_bucket Fixture.runtime Fixture.business first (Fixture.env 2)
           request SearchOrganizations "search-organizations").
  discriminate.
Defined.

(** ** Validation and classification *)

Lemma check_fields_complete (params : JSValue) (fields : list string) (name : string) :
  check_fields params fields name = Returned tt
  <-> forall field, In field fields -> is_missing params field = false.
Proof.
  induction fields as [|f rest IH]; simpl.
  - split; [intros _ field [] | reflexivity].
  - destruct (is_missing params f) eqn:Hf.
    + split; [discriminate|]. intros H. specialize (H f (or_introl eq_refl)). congruence.
    + rewrite IH. split.
      * intros H field [<-|Hin]; [exact Hf | apply H, Hin].
      * intros H field Hin. apply H. right. exact Hin.
Qed.

(** X5. [validateRequired] returns exactly when [params] is an object or
    an array (not [null]) none of whose required fields is absent, [null]
    or [undefined], and it then returns [params] itself; when it throws,
    the error is 'Invalid parameters for <tool>: expected object' or
    'Missing required parameter for <tool>: <field>' for a required field
    that is missing. *)
Theorem validateRequired_accepts_exactly (params : JSValue) (fields : list string)
    (name : string) :
  (validateRequired params fields name = Returned params
   <-> truthy params = true /\ typeof_object params = true
       /\ forall field, In field fields -> is_missing params field = false)
  /\ (forall p, validateRequired params fields name = Returned p -> p = params)
  /\ (forall e, validateRequired params fields name = Threw e ->
        e = ErrorObject ("Invalid parameters for " +:+ name +:+ ": expected object")
        \/ exists field,
             In field fields /\ is_missing params field = true
             /\ e = ErrorObject ("Missing required parameter for " +:+ name +:+ ": "
                                 +:+ field)).
Proof.
  split; [|split].
  - unfold validateRequired.
    destruct (truthy params), (typeof_object params); simpl;
      try (split; [discriminate | intros (? & ? & _); discriminate]).
    pose proof (check_fields_complete params fields name) as Hcheck.
    destruct (check_fields params fields name) as [[]|e]; simpl.
    + split; [intros _; repeat split; apply Hcheck; reflexivity | reflexivity].
    + split; [discriminate|]. intros (_ & _ & H). apply Hcheck in H. discriminate.
  - intros p. apply validateRequired_returns.
  - intros e. unfold validateRequired.
    destruct (negb (truthy params) || negb (typeof_object params)).
    + intros H. injection H as <-. left. reflexivity.
    + destruct (check_fields params fields name) as [[]|e'] eqn:Hcheck; simpl;
        [discriminate|].
      intros H. injection H as ->. right.
      destruct (check_fields_first_missing params fields name)
        as (missing & Hin & Hmiss & Heq).
      * destruct (forallb (fun f => negb (is_missing params f)) fields) eqn:Hall.
        -- rewrite forallb_forall in Hall.
           assert (Hok : check_fields params fields name = Returned tt).
           { apply check_fields_complete. intros f Hf. specialize (Hall f Hf).
             destruct (is_missing params f); [discriminate | reflexivity]. }
           congruence.
        -- assert (Hex : existsb (is_missing params) fields = true).
           { clear -Hall. induction fields as [|f rest IH]; simpl in *; [discriminate|].
             destruct (is_missing params f); simpl in *; [reflexivity | apply IH, Hall]. }
           apply existsb_exists in Hex as (f & Hf & Hm). eauto.
      * exists missing. rewrite Heq in Hcheck. injection Hcheck as <-. auto.
Qed.

Lemma validateRequired_accepts_exactly_witness :
  validateRequired (JArray []) [] "search-news" = Returned (JArray [])
  /\ validateRequired (JObject [("email", JString "a@b.c")]) ["email"] "enrich-contact"
     = Returned (JObject [("email", JString "a@b.c")]).
Proof.
  split.
  - apply (proj1 (validateRequired_accepts_exactly (JArray []) [] "search-news")).
    repeat split. intros field [].
  - apply (proj1 (validateRequired_accepts_exactly
                    (JObject [("email", JString "a@b.c")]) ["email"] "enrich-contact")).
    repeat split. intros field [<-|[]]. reflexivity.
Defined.

(** X6. For an [Error], [handleError] always returns an error envelope
    that carries the given request id and whose text contains the message
    of the error; 'Rate limit exceeded' wins over every other keyword and
    leaves the message as it is, 'authentication' comes next; the code is
    API_ERROR exactly when the message contains none of 'Rate limit
    exceeded', 'authentication', 'network' and 'fetch'. *)
Theorem handleError_keeps_the_message (message toolName : string)
    (requestId : option string) :
  exists text code,
    handleError (ErrorObject message) toolName requestId
    = Returned (Response.error text code requestId)
    /\ includes text message = true
    /\ (includes message "Rate limit exceeded" = true ->
        code = RATE_LIMIT_EXCEEDED /\ text = message)
    /\ (includes message "Rate limit exceeded" = false ->
        includes message "authentication" = true ->
        code = AUTHENTICATION_FAILED)
    /\ (code = API_ERROR <->
        includes message "Rate limit exceeded" = false
        /\ includes message "authentication" = false
        /\ includes message "network" = false
        /\ includes message "fetch" = false).
Proof.
  unfold handleError.
  destruct (includes message "Rate limit exceeded") eqn:Hrate.
  { do 2 eexists. split; [reflexivity|]. split; [apply includes_self|].
    repeat split; try discriminate; auto; intros (? & _); discriminate. }
  destruct (includes message "authentication") eqn:Hauth.
  { do 2 eexists. split; [reflexivity|].
    split; [repeat apply includes_prepend; apply includes_self|].
    repeat split; try discriminate; auto; intros (_ & ? & _); discriminate. }
  destruct (includes message "network") eqn:Hnet; simpl.
  { do 2 eexists. split; [reflexivity|].
    split; [repeat apply includes_prepend; apply includes_self|].
    repeat split; try discriminate; auto; intros (_ & _ & ? & _); discriminate. }
  destruct (includes message "fetch") eqn:Hfetch.
  { do 2 eexists. split; [reflexivity|].
    split; [repeat apply includes_prepend; apply includes_self|].
    repeat split; try discriminate; auto; intros (_ & _ & _ & ?); discriminate. }
  do 2 eexists. split; [reflexivity|].
  split; [repeat apply includes_prepend; apply includes_self|].
  repeat split; try discriminate; auto.
Qed.

Lemma handleError_keeps_the_message_witness :
  handleError (ErrorObject "Rate limit exceeded after authentication") "search-news" None
  = Returned (Response.error "Rate limit exceeded after authentication"
                RATE_LIMIT_EXCEEDED None).
Proof.
  destruct (handleError_keeps_the_message "Rate limit exceeded after authentication"
              "search-news" None) as (text & code & Heq & _ & Hrate & _).
  destruct (Hrate eq_refl) as [-> ->]. exact Heq.
Defined.

(** ** The bucket *)

Lemma recent_all (w : Z) (l : list Z) :
  Forall (fun t => w < t) (recent w l).
Proof.
  unfold recent. induction l as [|t l IH]; simpl; [constructor|].
  destruct (Z.ltb_spec w t); [constructor; assumption | exact IH].
Qed.

Lemma recent_none (w : Z) (l : list Z) :
  Forall (fun t => t <= w) l -> recent w l = [].
Proof.
  unfold recent. induction 1 as [|t l Ht _ IH]; simpl; [reflexivity|].
  destruct (Z.ltb_spec w t); [lia | exact IH].
Qed.

(** X7. After an admitted call the bucket of the tool holds at most
    quota timestamps, all of them younger than 60000 ms, the last one
    being the reading of this call; and over any sequence of calls a
    bucket that holds at most quota timestamps keeps doing so. *)
Theorem bucket_stays_within_quota (h : BaseToolHandler.t) (toolName : string) :
  (forall now h',
      checkRateLimit h toolName now = (h', Returned tt) ->
      Z.of_nat (length (bucket h' toolName)) <= maxRequestsPerMinute h
      /\ Forall (fun t => now - 60000 < t) (bucket h' toolName)
      /\ last (bucket h' toolName) = Some now)
  /\ (forall times,
        Z.of_nat (length (bucket h toolName)) <= maxRequestsPerMinute h ->
        Z.of_nat (length (bucket (fst (admitted_calls h toolName times)) toolName))
        <= maxRequestsPerMinute h).
Proof.
  split.
  - intros now h' Hcall.
    destruct (Z.lt_ge_cases
                (Z.of_nat (length (recent (now - 60000) (bucket h toolName))))
                (maxRequestsPerMinute h)) as [Hroom|Hfull].
    + destruct (checkRateLimit_admits h toolName now Hroom) as (h1 & Heq & Hbucket & _).
      rewrite Hcall in Heq. injection Heq as <-. rewrite Hbucket.
      split; [rewrite length_app; simpl; lia|]. split.
      * apply Forall_app. split; [apply recent_all|]. constructor; [lia | constructor].
      * apply last_snoc.
    + rewrite (checkRateLimit_rejects h toolName now Hfull) in Hcall. discriminate.
  - intros times. revert h. induction times as [|now rest IH]; intros h Hle; [exact Hle|].
    simpl.
    destruct (Z.lt_ge_cases
                (Z.of_nat (length (recent (now - 60000) (bucket h toolName))))
                (maxRequestsPerMinute h)) as [Hroom|Hfull].
    + destruct (checkRateLimit_admits h toolName now Hroom)
        as (h1 & -> & Hbucket & _ & Hmax & _).
      specialize (IH h1). rewrite Hmax in IH.
      destruct (admitted_calls h1 toolName rest) as [h2 log]. simpl in *.
      apply IH. rewrite Hbucket, length_app. simpl. lia.
    + rewrite (checkRateLimit_rejects h toolName now Hfull).
      specialize (IH (with_bucket h toolName)).
      rewrite with_bucket_max, bucket_with_bucket in IH.
      destruct (admitted_calls (with_bucket h toolName) toolName rest) as [h2 log].
      simpl in *. apply IH, Hle.
Qed.

Lemma bucket_stays_within_quota_witness :
  let h := BaseToolHandler.new true None None in
  let times := [0; 1; 2; 3; 70000; 70001; 70002; 70003; 140000] in
  bucket (fst (admitted_calls h "log-call" times)) "log-call" = [140000]
  /\ Z.of_nat (length (bucket (fst (admitted_calls h "log-call" times)) "log-call")) <= 3.
Proof.
  intros h times. split; [reflexivity|].
  apply (proj2 (bucket_stays_within_quota h "log-call") times).
  vm_compute. discriminate.
Defined.

(** X8. With a positive quota, once every timestamp of the bucket is at
    least 60000 ms old the next call is admitted and leaves the bucket
    holding that call alone. *)
Theorem quiet_minute_readmits (h : BaseToolHandler.t) (toolName : string) (now : Z) :
  0 < maxRequestsPerMinute h ->
  Forall (fun t => t <= now - 60000) (bucket h toolName) ->
  exists h',
    checkRateLimit h toolName now = (h', Returned tt)
    /\ bucket h' toolName = [now].
Proof.
  intros Hpos Hold.
  assert (Hnone : recent (now - 60000) (bucket h toolName) = []) by (apply recent_none, Hold).
  destruct (checkRateLimit_admits h toolName now) as (h' & Hcall & Hbucket & _).
  { rewrite Hnone. simpl. exact Hpos. }
  exists h'. split; [exact Hcall|]. rewrite Hbucket, Hnone. reflexivity.
Qed.

Lemma quiet_minute_readmits_witness :
  let h := fst (admitted_calls (BaseToolHandler.new true None None) "log-call" [0; 1; 2]) in
  snd (checkRateLimit h "log-call" 59999) <> Returned tt
  /\ exists h', checkRateLimit h "log-call" 60002 = (h', Returned tt)
                /\ bucket h' "log-call" = [60002].
Proof.
  intros h. split; [vm_compute; discriminate|].
  apply (quiet_minute_readmits h "log-call" 60002).
  - vm_compute. reflexivity.
  - replace (bucket h "log-call") with [0; 1; 2] by reflexivity.
    repeat constructor; lia.
Defined.

(** ** Searching leads *)

Lemma Math_min_cap (rt : Runtime) (limit : JSValue) (count : option Z) :
  Math_min rt limit 10 = Returned count ->
  (match count with
   | Some c => Z.to_nat c
   | None => 0%nat
   end <= 10)%nat.
Proof.
  unfold Math_min. destruct (ToNumber rt limit) as [[x|]|e]; simpl; try discriminate.
  - intros H. injection H as <-. lia.
  - intros H. injection H as <-. lia.
Qed.

(** X9. [generateMockLeads] yields at most 10 leads for every limit of
    the embedding; for a limit that is an integer [n] it yields
    min(n, 10) of them (none when [n] is not positive) and 10 without a
    limit; every lead carries the given title, industry, size and
    location, or the default where the criterion is falsy. *)
Theorem mock_leads_are_capped (rt : Runtime)
    (jobTitle industry companySize location : JSValue) :
  (forall limit leads,
      generateMockLeads rt jobTitle industry companySize location limit = Returned leads ->
      (length leads <= 10)%nat
      /\ Forall (fun lead =>
                   own_value lead "title" = or_else jobTitle (JString "Executive")
                   /\ own_value lead "industry" = or_else industry (JString "Various")
                   /\ own_value lead "size" = or_else companySize (JString "50-200")
                   /\ own_value lead "location"
                      = or_else location (JString "United States")) leads)
  /\ (forall n, exists leads,
        generateMockLeads rt jobTitle industry companySize location (JNumber n)
        = Returned leads
        /\ length leads = Z.to_nat (Z.min n 10))
  /\ (exists leads,
        generateMockLeads rt jobTitle industry companySize location JUndefined
        = Returned leads
        /\ length leads = 10%nat).
Proof.
  split; [|split].
  - intros limit leads. unfold generateMockLeads.
    destruct (Math_min rt _ 10) as [count|e] eqn:Hmin; simpl; [|discriminate].
    intros H. injection H as <-. split.
    + rewrite length_map, length_seq. exact (Math_min_cap rt _ count Hmin).
    + apply Forall_map, Forall_forall. intros i _. repeat split.
  - intros n. eexists. split; [reflexivity|].
    rewrite length_map, length_seq. reflexivity.
  - eexists. split; [reflexivity|]. rewrite length_map, length_seq. reflexivity.
Qed.

Lemma mock_leads_are_capped_witness :
  exists leads,
    generateMockLeads Fixture.runtime (JString "CTO") JUndefined JUndefined JUndefined
      (JNumber 500) = Returned leads
    /\ (length leads <= 10)%nat.
Proof.
  eexists. split; [reflexivity|].
  apply (proj1 (mock_leads_are_capped Fixture.runtime (JString "CTO") JUndefined JUndefined
                  JUndefined) (JNumber 500) _ eq_refl).
Defined.

(** X10. When every [searchPeople] request of the API client fails,
    [searchLeads] swallows the failure: the result is that of the same
    call on a handler without API client, the mock leads. *)
Theorem failed_api_search_falls_back_to_mock (rt : Runtime) (h offline : BaseToolHandler.t)
    (env : CallEnv) (params : JSValue) (client : ApolloAPIClient) :
  apiClient h = Some client ->
  apiClient offline = None ->
  (forall searchParams, exists e, searchPeople client searchParams = Threw e) ->
  searchLeads_body rt h env params = searchLeads_body rt offline env params.
Proof.
  intros Hclient Hoffline Hfails. unfold searchLeads_body.
  rewrite Hclient, Hoffline.
  match goal with
  | |- (if ?c then _ else _) = _ => destruct c; [reflexivity|]
  end.
  destruct (negb (isMockMode h)); [|reflexivity].
  match goal with
  | |- context [searchPeople client ?p] => destruct (Hfails p) as [e ->]
  end.
  reflexivity.
Qed.

Lemma failed_api_search_falls_back_to_mock_witness :
  let client := {| searchPeople := fun _ => Threw (ErrorObject "fetch failed") |} in
  let online := BaseToolHandler.new false (Some client) None in
  let offline := BaseToolHandler.new false None None in
  searchLeads_body Fixture.runtime online (Fixture.env 0)
    (JObject [("industry", JString "Aviation")])
  = searchLeads_body Fixture.runtime offline (Fixture.env 0)
      (JObject [("industry", JString "Aviation")]).
Proof.
  intros client online offline.
  apply (failed_api_search_falls_back_to_mock Fixture.runtime online offline (Fixture.env 0)
           (JObject [("industry", JString "Aviation")]) client).
  - reflexivity.
  - reflexivity.
  - intros searchParams. exists (ErrorObject "fetch failed"). reflexivity.
Defined.

Lemma ToString_primitive (v : JSValue) :
  primitive v = true -> exists s, ToString v = Returned s.
Proof. destruct v as [| |[]| | | |]; simpl; try discriminate; eauto. Qed.

Lemma or_else_primitive (v : JSValue) (s : string) :
  primitive v = true -> primitive (or_else v (JString s)) = true.
Proof. unfold or_else. destruct (truthy v); auto. Qed.

Lemma map_outcome_all {A B : Type} (f : A -> Outcome B) (l : list A) :
  Forall (fun a => exists b, f a = Returned b) l ->
  exists bs, map_outcome f l = Returned bs.
Proof.
  induction 1 as [|a l [b Hb] _ [bs Hbs]]; simpl; [eauto|].
  rewrite Hb. simpl. rewrite Hbs. simpl. eauto.
Qed.

Lemma formatLead_primitive (name title company industry size location email : JSValue) :
  primitive name = true -> primitive title = true -> primitive company = true ->
  primitive industry = true -> primitive size = true -> primitive location = true ->
  exists line,
    formatLead (JObject [("name", name); ("title", title); ("company", company);
                         ("industry", industry); ("size", size);
                         ("location", location); ("email", email)])
    = Returned line.
Proof.
  intros Hn Ht Hc Hi Hs Hl. unfold formatLead. cbn [read own_value own_property String.eqb
    Ascii.eqb Bool.eqb bind].
  destruct (ToString_primitive _ Hn) as [? ->].
  destruct (ToString_primitive _ Ht) as [? ->].
  destruct (ToString_primitive _ Hc) as [? ->].
  destruct (ToString_primitive _ Hi) as [? ->].
  destruct (ToString_primitive _ Hs) as [? ->].
  destruct (ToString_primitive _ Hl) as [? ->].
  cbn [bind]. eauto.
Qed.

Lemma ToNumber_primitive (rt : Runtime) (v : JSValue) :
  primitive v = true -> exists n, ToNumber rt v = Returned n.
Proof. destruct v; simpl; try discriminate; eauto. Qed.

Lemma generateMockLeads_formats (rt : Runtime)
    (jobTitle industry companySize location limit : JSValue) (leads : list JSValue) :
  primitive jobTitle = true -> primitive industry = true ->
  primitive companySize = true -> primitive location = true ->
  generateMockLeads rt jobTitle industry companySize location limit = Returned leads ->
  exists formatted, formatLeads (JArray leads) = Returned formatted.
Proof.
  intros Hj Hi Hc Hl. unfold generateMockLeads.
  destruct (Math_min rt _ 10) as [count|e]; simpl; [|discriminate].
  intros H. injection H as <-. unfold formatLeads.
  match goal with
  | |- context [map_outcome formatLead ?l] =>
      destruct (map_outcome_all formatLead l) as [lines ->]
  end.
  - apply Forall_map, Forall_forall. intros i _. cbv zeta.
    apply formatLead_primitive; try reflexivity; apply or_else_primitive; assumption.
  - cbn [bind]. eauto.
Qed.

Lemma generateMockLeads_primitive (rt : Runtime)
    (jobTitle industry companySize location limit : JSValue) :
  primitive limit = true ->
  exists leads,
    generateMockLeads rt jobTitle industry companySize location limit = Returned leads.
Proof.
  intros Hlimit. unfold generateMockLeads, Math_min.
  destruct (ToNumber_primitive rt
              (match limit with JUndefined => JNumber 25 | _ => limit end)) as [n ->].
  { destruct limit; auto. }
  cbn [bind]. eauto.
Qed.

Lemma found_summary (rt : Runtime) (data : JSValue) (s : string) (rid : option string) :
  exists text,
    createSuccessResponse rt data (Some ("Found " +:+ s)) rid = Response.success text rid
    /\ String.prefix "Found " text = true.
Proof.
  exists ("Found " +:+ (s +:+ LF +:+ LF +:+ JSON_stringify rt data)). split.
  - reflexivity.
  - exact (prefix_append "Found " (s +:+ LF +:+ LF +:+ JSON_stringify rt data)).
Qed.

(** X11. Without an API client, an admitted [searchLeads] call whose
    criteria and limit are primitive values, one criterion at least being
    truthy, returns a success envelope with the request id of the call and
    a text that begins with 'Found '. *)
Theorem offline_search_leads_succeeds (rt : Runtime) (h : BaseToolHandler.t)
    (env : CallEnv) (props : list (string * JSValue)) :
  apiClient h = None ->
  Z.of_nat (length (recent (now env - 60000) (bucket h "search-leads")))
    < maxRequestsPerMinute h ->
  primitive (own_value (JObject props) "jobTitle") = true ->
  primitive (own_value (JObject props) "industry") = true ->
  primitive (own_value (JObject props) "companySize") = true ->
  primitive (own_value (JObject props) "location") = true ->
  primitive (own_value (JObject props) "limit") = true ->
  truthy (own_value (JObject props) "jobTitle")
  || truthy (own_value (JObject props) "industry")
  || truthy (own_value (JObject props) "companySize")
  || truthy (own_value (JObject props) "location") = true ->
  exists text,
    snd (searchLeads rt h env (JObject props))
    = Returned (Response.success text
                  (Some (generateRequestId (idTime env) (idRandom env))))
    /\ String.prefix "Found " text = true.
Proof.
  intros Hclient Hroom Hj Hi Hc Hl Hlimit Hsome.
  unfold searchLeads, method.
  destruct (checkRateLimit_admits _ _ _ Hroom) as (h' & -> & _ & _ & _ & Hclient' & _).
  unfold validateRequired. cbn [truthy typeof_object negb orb check_fields bind].
  unfold searchLeads_body. rewrite Hclient', Hclient.
  assert (Hcheck : negb (truthy (own_value (JObject props) "jobTitle"))
                   && negb (truthy (own_value (JObject props) "industry"))
                   && negb (truthy (own_value (JObject props) "companySize"))
                   && negb (truthy (own_value (JObject props) "location")) = false).
  { destruct (truthy (own_value (JObject props) "jobTitle")),
             (truthy (own_value (JObject props) "industry")),
             (truthy (own_value (JObject props) "companySize")),
             (truthy (own_value (JObject props) "location")); simpl in *; congruence. }
  rewrite Hcheck.
  destruct (generateMockLeads_primitive rt
              (own_value (JObject props) "jobTitle") (own_value (JObject props) "industry")
              (own_value (JObject props) "companySize")
              (own_value (JObject props) "location")
              (match own_value (JObject props) "limit" with
               | JUndefined => JNumber 25
               | v => v
               end)) as (leads & Hleads).
  { destruct (own_value (JObject props) "limit"); auto. }
  destruct (generateMockLeads_formats rt _ _ _ _ _ leads Hj Hi Hc Hl Hleads)
    as (formatted & Hformat).
  rewrite Hleads.
  cbn [bind get_property]. cbn [String.eqb Ascii.eqb Bool.eqb ToString bind].
  rewrite Hformat. cbn [bind try_catch snd fst].
  match goal with
  | |- context [createSuccessResponse ?r ?d (Some ("Found " +:+ ?m)) ?i] =>
      destruct (found_summary r d m i) as (text & -> & Hprefix)
  end.
  exists text. split; [reflexivity | exact Hprefix].
Qed.

Lemma offline_search_leads_succeeds_witness :
  exists text,
    snd (searchLeads Fixture.runtime (BaseToolHandler.new false None None) (Fixture.env 7)
           (JObject [("location", JString "Lyon"); ("limit", JNumber 3)]))
    = Returned (Response.success text (Some "req_7_k3v9x0q1z"))
    /\ String.prefix "Found " text = true.
Proof.
  apply (offline_search_leads_succeeds Fixture.runtime (BaseToolHandler.new false None None)
           (Fixture.env 7) [("location", JString "Lyon"); ("limit", JNumber 3)]);
    reflexivity.
Defined.

(** ** Searching organizations *)

Lemma formatOrganization_primitive (name industry employeeCount revenue location domain : JSValue) :
  primitive name = true -> primitive industry = true -> primitive employeeCount = true ->
  primitive revenue = true -> primitive location = true ->
  exists line,
    formatOrganization (JObject [("name", name); ("industry", industry);
                                 ("employeeCount", employeeCount); ("revenue", revenue);
                                 ("location", location); ("domain", domain)])
    = Returned line.
Proof.
  intros Hn Hi He Hr Hl. unfold formatOrganization.
  cbn [read own_value own_property String.eqb Ascii.eqb Bool.eqb bind].
  destruct (ToString_primitive _ Hn) as [? ->].
  destruct (ToString_primitive _ Hi) as [? ->].
  destruct (ToString_primitive _ He) as [? ->].
  destruct (ToString_primitive _ Hr) as [? ->].
  destruct (ToString_primitive _ Hl) as [? ->].
  cbn [bind]. eauto.
Qed.

Lemma generateMockOrganizations_facts (rt : Runtime)
    (industry size revenue location limit : JSValue) (orgs : list JSValue) :
  generateMockOrganizations rt industry size revenue location limit = Returned orgs ->
  (length orgs <= 10)%nat
  /\ Forall (fun org =>
               own_value org "industry" = or_else industry (JString "Various")
               /\ own_value org "employeeCount" = or_else size (JString "50-200")
               /\ own_value org "revenue" = or_else revenue (JString "$1M-$10M")
               /\ own_value org "location" = or_else location (JString "United States"))
       orgs
  /\ (primitive industry = true -> primitive size = true -> primitive revenue = true ->
      primitive location = true ->
      exists formatted, formatOrganizations orgs = Returned formatted).
Proof.
  unfold generateMockOrganizations.
  destruct (Math_min rt _ 10) as [count|e] eqn:Hmin; simpl; [|discriminate].
  intros H. injection H as <-. split; [|split].
  - rewrite length_map, length_seq. exact (Math_min_cap rt _ count Hmin).
  - apply Forall_map, Forall_forall. intros i _. repeat split.
  - intros Hi Hs Hr Hl. unfold formatOrganizations.
    match goal with
    | |- context [map_outcome formatOrganization ?l] =>
        destruct (map_outcome_all formatOrganization l) as [lines ->]
    end.
    + apply Forall_map, Forall_forall. intros i _. cbv zeta.
      apply formatOrganization_primitive; try reflexivity;
        apply or_else_primitive; assumption.
    + cbn [bind]. eauto.
Qed.

Lemma generateMockOrganizations_primitive (rt : Runtime)
    (industry size revenue location limit : JSValue) :
  primitive limit = true ->
  exists orgs,
    generateMockOrganizations rt industry size revenue location limit = Returned orgs.
Proof.
  intros Hlimit. unfold generateMockOrganizations, Math_min.
  destruct (ToNumber_primitive rt
              (match limit with JUndefined => JNumber 25 | _ => limit end)) as [n ->].
  { destruct limit; auto. }
  cbn [bind]. eauto.
Qed.

Lemma validateRequired_no_fields (props : list (string * JSValue)) (name : string) :
  validateRequired (JObject props) [] name = Returned (JObject props).
Proof. reflexivity. Qed.

(** X12. An admitted [searchOrganizations] call in which industry,
    employeeCount, revenue and location are falsy and technologies is
    missing or empty returns the error envelope 'API error in
    search-organizations: At least one search parameter is required', with
    code API_ERROR. *)
Theorem search_organizations_needs_a_criterion (rt : Runtime) (h : BaseToolHandler.t)
    (env : CallEnv) (props : list (string * JSValue)) :
  Z.of_nat (length (recent (now env - 60000) (bucket h "search-organizations")))
    < maxRequestsPerMinute h ->
  truthy (own_value (JObject props) "industry") = false ->
  truthy (own_value (JObject props) "employeeCount") = false ->
  truthy (own_value (JObject props) "revenue") = false ->
  truthy (own_value (JObject props) "location") = false ->
  no_technologies (own_value (JObject props) "technologies") = true ->
  snd (searchOrganizations rt h env (JObject props))
  = Returned (Response.error
                "API error in search-organizations: At least one search parameter is required"
                API_ERROR
                (Some (generateRequestId (idTime env) (idRandom env)))).
Proof.
  intros Hroom Hi He Hr Hl Ht.
  destruct (checkRateLimit_admits _ _ _ Hroom) as (h' & Hcheck & _).
  unfold searchOrganizations.
  rewrite (method_body_throws rt _ _ _ h h' env _
             (ErrorObject "At least one search parameter is required") Hcheck
             (validateRequired_no_fields props _)).
  - reflexivity.
  - unfold searchOrganizations_body. rewrite Hi, He, Hr, Hl, Ht. reflexivity.
Qed.

Lemma search_organizations_needs_a_criterion_witness :
  snd (searchOrganizations Fixture.runtime (BaseToolHandler.new false None None)
         (Fixture.env 0)
         (JObject [("technologies", JArray []); ("industry", JString ""); ("limit", JNumber 5)]))
  = Returned (Response.error
                "API error in search-organizations: At least one search parameter is required"
                API_ERROR (Some "req_0_k3v9x0q1z")).
Proof.
  apply (search_organizations_needs_a_criterion Fixture.runtime
           (BaseToolHandler.new false None None) (Fixture.env 0)
           [("technologies", JArray []); ("industry", JString ""); ("limit", JNumber 5)]);
    reflexivity.
Defined.

Lemma printable_primitive (v : JSValue) : printable v = true -> primitive v = true.
Proof. unfold printable. intros H. apply andb_true_iff in H. tauto. Qed.

(** X13. An admitted [searchOrganizations] call with at least one
    criterion (a non-empty technologies list counts), whose criteria are
    primitive values other than numbers beyond the safe integers and whose
    limit is a primitive value, returns the success envelope built from
    the mock organizations: at most 10 of them, each carrying the given
    industry, employee count, revenue and location or the default, under
    the summary 'Found <n> organizations matching your criteria:'
    followed by their formatted lines. *)
Theorem search_organizations_returns_mock_data (rt : Runtime) (h : BaseToolHandler.t)
    (env : CallEnv) (props : list (string * JSValue)) :
  let industry := own_value (JObject props) "industry" in
  let employeeCount := own_value (JObject props) "employeeCount" in
  let revenue := own_value (JObject props) "revenue" in
  let location := own_value (JObject props) "location" in
  Z.of_nat (length (recent (now env - 60000) (bucket h "search-organizations")))
    < maxRequestsPerMinute h ->
  printable industry = true -> printable employeeCount = true ->
  printable revenue = true -> printable location = true ->
  primitive (own_value (JObject props) "limit") = true ->
  truthy industry || truthy employeeCount || truthy revenue || truthy location
  || negb (no_technologies (own_value (JObject props) "technologies")) = true ->
  exists orgs formatted,
    snd (searchOrganizations rt h env (JObject props))
    = Returned (createSuccessResponse rt (JArray orgs)
                  (Some ("Found " +:+ pretty (Z.of_nat (length orgs)) +:+
                         " organizations matching your criteria:" +:+ LF +:+ LF +:+
                         formatted))
                  (Some (generateRequestId (idTime env) (idRandom env))))
    /\ formatOrganizations orgs = Returned formatted
    /\ (length orgs <= 10)%nat
    /\ Forall (fun org =>
                 own_value org "industry" = or_else industry (JString "Various")
                 /\ own_value org "employeeCount" = or_else employeeCount (JString "50-200")
                 /\ own_value org "revenue" = or_else revenue (JString "$1M-$10M")
                 /\ own_value org "location" = or_else location (JString "United States"))
         orgs.
Proof.
  intros industry employeeCount revenue location Hroom Hi He Hr Hl Hlimit Hsome.
  destruct (checkRateLimit_admits _ _ _ Hroom) as (h' & Hcheck & _).
  destruct (generateMockOrganizations_primitive rt industry employeeCount revenue location
              (match own_value (JObject props) "limit" with
               | JUndefined => JNumber 25
               | v => v
               end)) as (orgs & Horgs).
  { destruct (own_value (JObject props) "limit"); auto. }
  destruct (generateMockOrganizations_facts rt _ _ _ _ _ orgs Horgs)
    as (Hlen & Hall & Hformat).
  destruct (Hformat (printable_primitive _ Hi) (printable_primitive _ He)
              (printable_primitive _ Hr) (printable_primitive _ Hl))
    as (formatted & Hformatted).
  exists orgs, formatted. split; [|auto].
  unfold searchOrganizations.
  rewrite (method_returns rt _ _ _ h h' env _
             (JArray orgs,
              Some ("Found " +:+ pretty (Z.of_nat (length orgs)) +:+
                    " organizations matching your criteria:" +:+ LF +:+ LF +:+ formatted))
             Hcheck (validateRequired_no_fields props _)).
  - reflexivity.
  - unfold searchOrganizations_body.
    fold industry employeeCount revenue location.
    assert (Hguard : negb (truthy industry) && negb (truthy employeeCount)
                     && negb (truthy revenue) && negb (truthy location)
                     && no_technologies (own_value (JObject props) "technologies") = false).
    { destruct (truthy industry), (truthy employeeCount), (truthy revenue),
               (truthy location), (no_technologies _); simpl in *; congruence. }
    rewrite Hguard, Horgs. cbn [bind]. rewrite Hformatted. reflexivity.
Qed.

Lemma search_organizations_returns_mock_data_witness :
  exists orgs formatted,
    snd (searchOrganizations Fixture.runtime (BaseToolHandler.new false None None)
           (Fixture.env 0)
           (JObject [("technologies", JArray [JString "Rocq"]); ("limit", JNumber 2)]))
    = Returned (createSuccessResponse Fixture.runtime (JArray orgs)
                  (Some ("Found " +:+ pretty (Z.of_nat (length orgs)) +:+
                         " organizations matching your criteria:" +:+ LF +:+ LF +:+
                         formatted))
                  (Some "req_0_k3v9x0q1z"))
    /\ (length orgs <= 10)%nat.
Proof.
  destruct (search_organizations_returns_mock_data Fixture.runtime
              (BaseToolHandler.new false None None) (Fixture.env 0)
              [("technologies", JArray [JString "Rocq"]); ("limit", JNumber 2)])
    as (orgs & formatted & Hcall & _ & Hlen & _); try reflexivity.
  exists orgs, formatted. split; assumption.
Defined.

(** X14. [searchOrganizations] does not filter by technologies: putting
    any other non-empty technologies list in the place of a non-empty one
    leaves the result of the search as it is. *)
Theorem technologies_do_not_filter (rt : Runtime) (h : BaseToolHandler.t) (env : CallEnv)
    (props : list (string * JSValue)) (technologies : JSValue) :
  no_technologies technologies = false ->
  no_technologies (own_value (JObject props) "technologies") = false ->
  searchOrganizations_body rt h env (JObject (("technologies", technologies) :: props))
  = searchOrganizations_body rt h env (JObject props).
Proof.
  intros Hnew Hold. unfold searchOrganizations_body.
  change (own_value (JObject (("technologies", technologies) :: props)) "technologies")
    with technologies.
  change (own_value (JObject (("technologies", technologies) :: props)) "industry")
    with (own_value (JObject props) "industry").
  change (own_value (JObject (("technologies", technologies) :: props)) "employeeCount")
    with (own_value (JObject props) "employeeCount").
  change (own_value (JObject (("technologies", technologies) :: props)) "revenue")
    with (own_value (JObject props) "revenue").
  change (own_value (JObject (("technologies", technologies) :: props)) "location")
    with (own_value (JObject props) "location").
  change (own_value (JObject (("technologies", technologies) :: props)) "limit")
    with (own_value (JObject props) "limit").
  rewrite Hnew, Hold. reflexivity.
Qed.

Lemma technologies_do_not_filter_witness :
  searchOrganizations_body Fixture.runtime (BaseToolHandler.new false None None)
    (Fixture.env 0)
    (JObject [("technologies", JArray [JString "Salesforce"]);
              ("technologies", JArray [JString "SAP"; JString "Oracle"]);
              ("limit", JNumber 3)])
  = searchOrganizations_body Fixture.runtime (BaseToolHandler.new false None None)
      (Fixture.env 0)
      (JObject [("technologies", JArray [JString "SAP"; JString "Oracle"]);
                ("limit", JNumber 3)]).
Proof.
  apply (technologies_do_not_filter Fixture.runtime (BaseToolHandler.new false None None)
           (Fixture.env 0)
           [("technologies", JArray [JString "SAP"; JString "Oracle"]); ("limit", JNumber 3)]
           (JArray [JString "Salesforce"])); reflexivity.
Defined.

(** ** Contacts *)

Lemma validateRequired_one_field (props : list (string * JSValue)) (field name : string)
    (v : JSValue) :
  own_property props field = Some v ->
  v <> JUndefined -> v <> JNull ->
  validateRequired (JObject props) [field] name = Returned (JObject props).
Proof.
  intros Hown Hu Hn. unfold validateRequired. cbn [truthy typeof_object negb orb check_fields].
  unfold is_missing, has_property. cbn [get_property]. rewrite Hown.
  destruct v; try congruence; reflexivity.
Qed.

(** X15. An admitted [enrichContact] call whose [email] is neither
    [null] nor [undefined] (the empty string included) always returns a
    success envelope: for 'nonexistent@example.com' the data is [null] and
    the summary 'Contact not found in Apollo.io database'; for every other
    value the data echoes the email, names John Doe and takes the LinkedIn
    address from [linkedinUrl] when that is truthy. *)
Theorem enrich_contact_always_succeeds (rt : Runtime) (h : BaseToolHandler.t)
    (env : CallEnv) (props : list (string * JSValue)) (email : JSValue) :
  Z.of_nat (length (recent (now env - 60000) (bucket h "enrich-contact")))
    < maxRequestsPerMinute h ->
  own_property props "email" = Some email ->
  email <> JUndefined -> email <> JNull ->
  exists data message,
    snd (enrichContact rt h env (JObject props))
    = Returned (createSuccessResponse rt data (Some message)
                  (Some (generateRequestId (idTime env) (idRandom env))))
    /\ (email = JString "nonexistent@example.com" ->
        data = JNull /\ message = "Contact not found in Apollo.io database")
    /\ (email <> JString "nonexistent@example.com" ->
        message = "Successfully enriched contact data"
        /\ own_value data "email" = email
        /\ own_value data "name" = JString "John Doe"
        /\ own_value data "linkedIn"
           = or_else (own_value (JObject props) "linkedinUrl")
               (JString "https://linkedin.com/in/johndoe")).
Proof.
  intros Hroom Hown Hu Hn.
  destruct (checkRateLimit_admits _ _ _ Hroom) as (h' & Hcheck & _).
  pose proof (validateRequired_one_field props "email" "enrich-contact" email Hown Hu Hn)
    as Hvalid.
  assert (Hemail : own_value (JObject props) "email" = email).
  { cbn [own_value]. rewrite Hown. reflexivity. }
  unfold enrichContact.
  destruct (is_nonexistent email) eqn:Hne.
  - exists JNull, "Contact not found in Apollo.io database". split; [|split].
    + rewrite (method_returns rt _ _ _ h h' env _
                 (JNull, Some "Contact not found in Apollo.io database") Hcheck Hvalid).
      * reflexivity.
      * unfold enrichContact_body. rewrite Hemail, Hne. reflexivity.
    + auto.
    + intros Hother. exfalso. apply Hother.
      destruct email; try discriminate. simpl in Hne.
      apply String.eqb_eq in Hne. congruence.
  - assert (Hbody : exists data,
              enrichContact_body h' env (JObject props)
              = Returned (data, Some "Successfully enriched contact data")
              /\ own_value data "email" = email
              /\ own_value data "name" = JString "John Doe"
              /\ own_value data "linkedIn"
                 = or_else (own_value (JObject props) "linkedinUrl")
                     (JString "https://linkedin.com/in/johndoe")).
    { unfold enrichContact_body. rewrite Hemail, Hne. eexists. split; [reflexivity|].
      repeat split. }
    destruct Hbody as (data & Hbody & Hfields).
    exists data, "Successfully enriched contact data". split; [|split].
    + rewrite (method_returns rt _ _ _ h h' env _ _ Hcheck Hvalid Hbody). reflexivity.
    + intros ->. discriminate.
    + intros _. split; [reflexivity | exact Hfields].
Qed.

Lemma enrich_contact_always_succeeds_witness :
  exists data message,
    snd (enrichContact Fixture.runtime (BaseToolHandler.new false None None) (Fixture.env 0)
           (JObject [("email", JString "")]))
    = Returned (createSuccessResponse Fixture.runtime data (Some message)
                  (Some "req_0_k3v9x0q1z"))
    /\ message = "Successfully enriched contact data"
    /\ own_value data "email" = JString "".
Proof.
  destruct (enrich_contact_always_succeeds Fixture.runtime
              (BaseToolHandler.new false None None) (Fixture.env 0)
              [("email", JString "")] (JString ""))
    as (data & message & Hcall & _ & Hother); try reflexivity; try discriminate.
  destruct Hother as (Hmessage & Hemail & _); [discriminate|].
  exists data, message. repeat split; assumption.
Defined.

Lemma rest_without_absent (key : string) (props : list (string * JSValue)) :
  own_property (List.filter (fun p => negb (String.eqb (fst p) key)) props) key = None.
Proof.
  induction props as [|[k v] props IH]; [reflexivity|].
  cbn [List.filter fst]. destruct (String.eqb k key) eqn:Hk; cbn [negb]; [exact IH|].
  cbn [own_property]. rewrite Hk. exact IH.
Qed.

Lemma rest_without_others (key other : string) (props : list (string * JSValue)) :
  other <> key ->
  own_property (List.filter (fun p => negb (String.eqb (fst p) key)) props) other
  = own_property props other.
Proof.
  intros Hother. induction props as [|[k v] props IH]; [reflexivity|].
  cbn [List.filter fst own_property]. destruct (String.eqb k key) eqn:Hk; cbn [negb].
  - apply String.eqb_eq in Hk. subst k.
    destruct (String.eqb key other) eqn:Hko; [|exact IH].
    apply String.eqb_eq in Hko. congruence.
  - cbn [own_property]. rewrite IH. reflexivity.
Qed.

(** X16. An admitted [updateContact] call whose [contactId] is a
    primitive value other than [null], [undefined] and the numbers beyond
    the safe integers returns a success envelope whose data holds no
    [contactId], holds every other own property of the arguments with its
    value, and holds nothing else; the summary names the contact. *)
Theorem update_contact_strips_the_id (rt : Runtime) (h : BaseToolHandler.t)
    (env : CallEnv) (props : list (string * JSValue)) (contactId : JSValue) :
  Z.of_nat (length (recent (now env - 60000) (bucket h "update-contact")))
    < maxRequestsPerMinute h ->
  own_property props "contactId" = Some contactId ->
  contactId <> JUndefined -> contactId <> JNull ->
  printable contactId = true ->
  exists id updateData,
    ToString contactId = Returned id
    /\ snd (updateContact rt h env (JObject props))
       = Returned (createSuccessResponse rt (JObject updateData)
                     (Some ("Contact " +:+ id +:+ " updated successfully"))
                     (Some (generateRequestId (idTime env) (idRandom env))))
    /\ own_property updateData "contactId" = None
    /\ (forall key, key <> "contactId" ->
          own_property updateData key = own_property props key)
    /\ (forall key value, In (key, value) updateData -> In (key, value) props).
Proof.
  intros Hroom Hown Hu Hn Hprim.
  destruct (checkRateLimit_admits _ _ _ Hroom) as (h' & Hcheck & _).
  pose proof (validateRequired_one_field props "contactId" "update-contact" contactId
                Hown Hu Hn) as Hvalid.
  destruct (ToString_primitive contactId (printable_primitive _ Hprim)) as (id & Hid).
  exists id, (rest_without "contactId" (JObject props)).
  split; [exact Hid|]. split; [|split; [|split]].
  - unfold updateContact.
    rewrite (method_returns rt _ _ _ h h' env _
               (JObject (rest_without "contactId" (JObject props)),
                Some ("Contact " +:+ id +:+ " updated successfully")) Hcheck Hvalid).
    + reflexivity.
    + unfold updateContact_body. cbn [own_value]. rewrite Hown, Hid. reflexivity.
  - apply rest_without_absent.
  - intros key Hkey. apply rest_without_others. exact Hkey.
  - intros key value Hin. cbn [rest_without] in Hin.
    apply List.filter_In in Hin. tauto.
Qed.

Lemma update_contact_strips_the_id_witness :
  exists id updateData,
    ToString (JNumber 42) = Returned id
    /\ snd (updateContact Fixture.runtime (BaseToolHandler.new false None None)
              (Fixture.env 0)
              (JObject [("title", JString "CTO"); ("contactId", JNumber 42);
                        ("phone", JNull)]))
       = Returned (createSuccessResponse Fixture.runtime (JObject updateData)
                     (Some ("Contact " +:+ id +:+ " updated successfully"))
                     (Some "req_0_k3v9x0q1z"))
    /\ own_property updateData "contactId" = None.
Proof.
  destruct (update_contact_strips_the_id Fixture.runtime
              (BaseToolHandler.new false None None) (Fixture.env 0)
              [("title", JString "CTO"); ("contactId", JNumber 42); ("phone", JNull)]
              (JNumber 42))
    as (id & updateData & Hid & Hcall & Hnone & _); try reflexivity; try discriminate.
  exists id, updateData. repeat split; assumption.
Defined.

(** ** The catch of the orchestrator *)


Lemma conversion_error_is_internal (toolName : string) :
  handleToolError toolName conversion_error
  = Returned (Response.error
                ("Internal error in " +:+ toolName +:+
                 ": Cannot convert object to primitive value")
                INTERNAL_ERROR None).
Proof. reflexivity. Qed.

Lemma dispatchTool_throws (rt : Runtime) (business : Tool -> Body) (o : Orchestrator.t)
    (env : CallEnv) (name : string) (args : JSValue) (t : Thrown) :
  snd (dispatchTool rt business o env name args) = Threw t ->
  t = conversion_error /\ registered name = true.
Proof.
  destruct (registered name) eqn:Hreg.
  - destruct (registered_tool name Hreg) as [tool ->].
    rewrite dispatch_registered, on_handler_for_snd. unfold call.
    intros H.
    pose proof (method_outcome rt (toolName tool) (requiredFields tool)
                  (body_of rt business tool) (handler_for o tool) env args) as Hout.
    rewrite H in Hout. auto.
  - rewrite (dispatch_unregistered rt business o env name args Hreg). discriminate.
Qed.

(** X18. The only failure [dispatchTool] can end in is the TypeError of
    converting a thrown value to a string, for a registered tool; the
    [catch] of [handleToolCall] then answers 'Internal error in <tool>:
    Cannot convert object to primitive value' with code INTERNAL_ERROR. *)
Theorem orchestrator_catch_is_internal_error (rt : Runtime) (business : Tool -> Body)
    (o : Orchestrator.t) (env : CallEnv) (name : string)
    (args : list (string * JSValue)) (t : Thrown) :
  snd (dispatchTool rt business o env name (JObject args)) = Threw t ->
  t = conversion_error
  /\ registered name = true
  /\ snd (handleToolCall rt business o env {| name := name; arguments := Some args |})
     = Returned (Response.error
                   ("Internal error in " +:+ name +:+
                    ": Cannot convert object to primitive value")
                   INTERNAL_ERROR None).
Proof.
  intros Hthrow.
  destruct (dispatchTool_throws rt business o env name (JObject args) t Hthrow)
    as [-> Hreg].
  split; [reflexivity|]. split; [exact Hreg|].
  unfold handleToolCall. cbn [arguments Orchestrator.name].
  destruct (dispatchTool rt business o env name (JObject args)) as [o1 outcome].
  cbn [snd] in *. rewrite Hthrow. cbn [try_catch]. apply conversion_error_is_internal.
Qed.

Lemma orchestrator_catch_is_internal_error_witness :
  let business : Tool -> Body :=
    fun _ _ _ _ => Threw (NonError (JArray [JObject []; JObject [("toString", JNull)]])) in
  snd (handleToolCall Fixture.runtime business Fixture.orchestrator (Fixture.env 0)
         {| name := "search-deals"; arguments := Some [] |})
  = Returned (Response.error
                "Internal error in search-deals: Cannot convert object to primitive value"
                INTERNAL_ERROR None).
Proof.
  intros business.
  apply (orchestrator_catch_is_internal_error Fixture.runtime business Fixture.orchestrator
           (Fixture.env 0) "search-deals" [] conversion_error).
  reflexivity.
Defined.

(** X19. [handleToolCall] answers INVALID_PARAMETERS only before a
    handler is reached, when the arguments are missing or the tool is
    unknown; the orchestrator is then unchanged and the envelope carries
    no request id. *)
Theorem invalid_parameters_only_before_dispatch (rt : Runtime) (business : Tool -> Body)
    (o o' : Orchestrator.t) (env : CallEnv) (request : CallToolRequest)
    (e : IToolResponse) :
  handleToolCall rt business o env request = (o', Returned e) ->
  errorCode e = Some (ERROR_CODES INVALID_PARAMETERS) ->
  o' = o
  /\ requestId e = None
  /\ (arguments request = None \/ registered (name request) = false).
Proof.
  destruct request as [name [args|]]; cbn [arguments Orchestrator.name].
  - destruct (registered name) eqn:Hreg.
    + intros Hcall Hcode. exfalso.
      destruct (registered_tool name Hreg) as [tool ->].
      pose proof (f_equal snd Hcall) as Hsnd. cbn [snd] in Hsnd.
      rewrite handleToolCall_registered in Hsnd. unfold call in Hsnd.
      pose proof (method_outcome rt (toolName tool) (requiredFields tool)
                    (body_of rt business tool) (handler_for o tool) env (JObject args))
        as Hout.
      destruct (snd (method rt (toolName tool) (requiredFields tool)
                       (body_of rt business tool) (handler_for o tool) env (JObject args)))
        as [e1|t].
      * cbn [try_catch] in Hsnd. injection Hsnd as ->.
        destruct Hout as [(text & rid & ->)|(text & code & rid & -> & _ & Hcode')].
        -- discriminate.
        -- destruct code; try discriminate; congruence.
      * subst t. cbn [try_catch] in Hsnd. rewrite conversion_error_is_internal in Hsnd.
        injection Hsnd as <-. discriminate.
    + intros Hcall _. unfold handleToolCall in Hcall. cbn [arguments Orchestrator.name] in Hcall.
      rewrite (dispatch_unregistered rt business o env name (JObject args) Hreg) in Hcall.
      cbn [try_catch] in Hcall. injection Hcall as <- <-. auto.
  - intros Hcall _. unfold handleToolCall in Hcall. cbn [arguments] in Hcall.
    injection Hcall as <- <-. auto.
Qed.

Lemma invalid_parameters_only_before_dispatch_witness :
  let request := {| name := "search-leeds"; arguments := Some [] |} in
  registered (name request) = false
  /\ fst (handleToolCall Fixture.runtime Fixture.business Fixture.orchestrator
            (Fixture.env 0) request) = Fixture.orchestrator.
Proof.
  intros request. split; [reflexivity|].
  destruct (handleToolCall Fixture.runtime Fixture.business Fixture.orchestrator
              (Fixture.env 0) request) as [o' outcome] eqn:Hcall.
  assert (Houtcome : outcome = Returned (Response.error "Unknown tool: search-leeds"
                                           INVALID_PARAMETERS None)).
  { vm_compute in Hcall. injection Hcall as _ <-. reflexivity. }
  subst outcome.
  exact (proj1 (invalid_parameters_only_before_dispatch Fixture.runtime Fixture.business
                  Fixture.orchestrator o' (Fixture.env 0) request _ Hcall eq_refl)).
Defined.

(** X20. The five [is*Tool] predicates are disjoint: a name is accepted
    by at most one of them, and by exactly one when it is one of
    [getAvailableTools]. *)
Theorem tool_groups_are_disjoint (name : string) :
  let groups := (Nat.b2n (isLeadTool name) + Nat.b2n (isContactTool name)
                 + Nat.b2n (isSequenceTool name) + Nat.b2n (isDealTool name)
                 + Nat.b2n (isAnalyticsTool name))%nat in
  (groups <= 1)%nat /\ (groups = 1%nat <-> In name getAvailableTools).
Proof.
  cbv zeta. destruct (registered name) eqn:Hreg.
  - destruct (registered_tool name Hreg) as [tool ->].
    split; [destruct tool; exact (le_n 1)|].
    split; [intros _ | intros _; destruct tool; reflexivity].
    destruct tool; cbn [toolName getAvailableTools In]; tauto.
  - pose proof Hreg as Hnone. unfold registered in Hnone.
    apply orb_false_iff in Hnone. destruct Hnone as [Hnone ->].
    apply orb_false_iff in Hnone. destruct Hnone as [Hnone ->].
    apply orb_false_iff in Hnone. destruct Hnone as [Hnone ->].
    apply orb_false_iff in Hnone. destruct Hnone as [-> ->].
    cbn [Nat.b2n Nat.add]. split; [lia|]. split; [discriminate|].
    intros Hin. exfalso.
    rewrite registered_names in Hreg. unfold array_includes in Hreg.
    assert (Hex : existsb (String.eqb name) getAvailableTools = true).
    { apply existsb_exists. exists name. split; [exact Hin | apply String.eqb_refl]. }
    congruence.
Qed.

(** ** Sessions *)

Lemma transports_get_stored (transports : gmap string Transport) (id : string)
    (transport : Transport) :
  transports !! id = Some transport -> transports_get transports id = Stored transport.
Proof. intros H. unfold transports_get. rewrite H. reflexivity. Qed.

Lemma eqb_empty (s : string) : s <> "" -> String.eqb s "" = false.
Proof. intros H. apply String.eqb_neq. exact H. Qed.

(** X21. A POST without session id (or with an empty one) whose body is
    an initialize request, when the transport connects, handles the
    request and carries a non-empty session id, stores the new transport
    under that id and leaves every other entry alone; a later POST and a
    later GET bearing that id are then handled by this transport, also
    when the id is the name of a property objects inherit. *)
Theorem initialize_then_reuse (transports : gmap string Transport) (env : PostEnv)
    (header : option string) (body : JSValue) (id : string) :
  header = None \/ header = Some "" ->
  isInitializeRequest body = true ->
  connect env = Returned tt ->
  handleInitial env = Returned tt ->
  newSessionId env = Some id ->
  id <> "" ->
  let table := <[id := created env]> transports in
  handlePostRequest transports env header body = (table, HandledBy (created env))
  /\ (forall key, key <> id -> table !! key = transports !! key)
  /\ (forall (next : PostEnv) (body' : JSValue),
        handleRequest next (created env) = Returned tt ->
        handlePostRequest table next (Some id) body' = (table, HandledBy (created env)))
  /\ (forall get : GetEnv,
        handleStream get (created env) = Returned tt ->
        handleGetRequest table get (Some id)
        = Returned (HandledBy (created env),
                    Some (streamMessages (firstSend get (created env))
                            StreamableHTTPServerTransport_onClose))).
Proof.
  intros Hheader Hinit Hconnect Hhandle Hid Hne table.
  pose proof (eqb_empty id Hne) as Hempty.
  assert (Hstored : transports_get table id = Stored (created env)).
  { apply transports_get_stored. apply lookup_insert_eq. }
  split; [|split; [|split]].
  - unfold handlePostRequest.
    destruct Hheader as [-> | ->]; cbn [String.eqb negb andb];
      rewrite Hinit, Hconnect, Hhandle, Hid, Hempty; reflexivity.
  - intros key Hkey. apply lookup_insert_ne. congruence.
  - intros next body' Hnext. unfold handlePostRequest.
    rewrite Hempty. cbn [negb]. rewrite Hstored, Hnext. reflexivity.
  - intros get Hget. unfold handleGetRequest.
    rewrite Hempty, Hstored, Hget. reflexivity.
Qed.

Lemma initialize_then_reuse_witness :
  let env := {| handleRequest := fun _ => Returned tt; created := 7%nat;
                connect := Returned tt; handleInitial := Returned tt;
                newSessionId := Some "constructor" |} in
  let table : gmap string Transport := {[ "constructor" := 7%nat ]} in
  handlePostRequest ∅ env None (JObject [("method", JString "initialize")])
  = (table, HandledBy 7%nat)
  /\ handlePostRequest table env (Some "constructor") JUndefined = (table, HandledBy 7%nat).
Proof.
  intros env table.
  destruct (initialize_then_reuse ∅ env None (JObject [("method", JString "initialize")])
              "constructor") as (Hfirst & _ & Hnext & _);
    try reflexivity; try discriminate; [left; reflexivity|].
  split; [exact Hfirst|]. apply (Hnext env JUndefined). reflexivity.
Defined.

(** X22. Whatever the request, [handlePostRequest] removes no session:
    every stored id stays stored (with a new transport only when the
    session just created has that id). A JSON reply is either status 400,
    'Bad Request: invalid session ID or method.', or status 500, 'Internal
    server error.', both with code -32603, and leaves the table unchanged;
    a request a transport answered was either routed to the stored
    transport of its non-empty session id, or was an initialize request
    without session id answered by the new transport, which is the only
    entry that may have been added. *)
Theorem post_replies_and_table (transports : gmap string Transport) (env : PostEnv)
    (sessionId : option string) (body : JSValue) :
  let (table, reply) := handlePostRequest transports env sessionId body in
  (forall key transport,
      transports !! key = Some transport ->
      table !! key = Some transport \/ (newSessionId env = Some key /\ key <> ""
                                        /\ table !! key = Some (created env)))
  /\ match reply with
     | Json status response =>
         table = transports
         /\ error_code response = -32603
         /\ ((status = 400
              /\ error_message response = "Bad Request: invalid session ID or method.")
             \/ (status = 500 /\ error_message response = "Internal server error."))
     | HandledBy transport =>
         (exists id, sessionId = Some id /\ id <> ""
                     /\ transports !! id = Some transport /\ table = transports)
         \/ (transport = created env
             /\ isInitializeRequest body = true
             /\ (sessionId = None \/ sessionId = Some "")
             /\ (table = transports
                 \/ exists id, newSessionId env = Some id /\ id <> ""
                               /\ table = <[id := transport]> transports))
     end.
Proof.
  unfold handlePostRequest.
  destruct sessionId as [s|].
  - destruct (String.eqb s "") eqn:Hs; cbn [negb andb].
    + apply String.eqb_eq in Hs. subst s.
      destruct (isInitializeRequest body) eqn:Hinit.
      * destruct (connect env); cbn [bind];
          [|split; [auto | split; [reflexivity|]; split; [reflexivity|]; right; auto]].
        destruct (handleInitial env); cbn [bind];
          [|split; [auto | split; [reflexivity|]; split; [reflexivity|]; right; auto]].
        destruct (newSessionId env) as [id|] eqn:Hid.
        -- destruct (String.eqb id "") eqn:Hempty.
           ++ split; [auto|]. right. auto.
           ++ apply String.eqb_neq in Hempty. split.
              ** intros key transport Hkey.
                 destruct (decide (key = id)) as [->|Hne].
                 --- right. rewrite lookup_insert_eq. auto.
                 --- left. rewrite lookup_insert_ne by congruence. exact Hkey.
              ** right. split; [reflexivity|]. split; [reflexivity|].
                 split; [auto|]. right. exists id. auto.
        -- split; [auto|]. right. auto.
      * split; [auto|]. split; [reflexivity|]. split; [reflexivity|]. left. auto.
    + apply String.eqb_neq in Hs. unfold transports_get.
      destruct (transports !! s) as [transport|] eqn:Hlookup.
      * destruct (handleRequest env transport); cbn [bind].
        -- split; [auto|]. left. exists s. auto.
        -- split; [auto|]. split; [reflexivity|]. split; [reflexivity|]. right. auto.
      * destruct (name_in Object_prototype_names s).
        -- split; [auto|]. split; [reflexivity|]. split; [reflexivity|]. right. auto.
        -- split; [auto|]. split; [reflexivity|]. split; [reflexivity|]. left. auto.
  - cbn [negb andb].
    destruct (isInitializeRequest body) eqn:Hinit.
    + destruct (connect env); cbn [bind];
        [|split; [auto | split; [reflexivity|]; split; [reflexivity|]; right; auto]].
      destruct (handleInitial env); cbn [bind];
        [|split; [auto | split; [reflexivity|]; split; [reflexivity|]; right; auto]].
      destruct (newSessionId env) as [id|] eqn:Hid.
      * destruct (String.eqb id "") eqn:Hempty.
        -- split; [auto|]. right. auto.
        -- apply String.eqb_neq in Hempty. split.
           ++ intros key transport Hkey.
              destruct (decide (key = id)) as [->|Hne].
              ** right. rewrite lookup_insert_eq. auto.
              ** left. rewrite lookup_insert_ne by congruence. exact Hkey.
           ++ right. split; [reflexivity|]. split; [reflexivity|].
              split; [auto|]. right. exists id. auto.
      * split; [auto|]. right. auto.
    + split; [auto|]. split; [reflexivity|]. split; [reflexivity|]. left. auto.
Qed.

(** X23. [handleGetRequest] ends in one of three ways: the reply 400
    'Bad Request: invalid session ID or method.' without any stream, when
    the session id is absent, empty or names nothing; the transport stored
    under the non-empty id handling the request, followed by the stream of
    [streamMessages] on it; or an exception, that of the transport or the
    TypeError for an id that only names an inherited property. It never
    replies 500. *)
Theorem get_request_outcomes (transports : gmap string Transport) (env : GetEnv)
    (sessionId : option string) :
  match handleGetRequest transports env sessionId with
  | Returned (Json status response, stream) =>
      status = 400
      /\ response = createErrorResponse "Bad Request: invalid session ID or method."
      /\ stream = None
      /\ (sessionId = None \/ sessionId = Some ""
          \/ exists id, sessionId = Some id /\ transports_get transports id = Undefined)
  | Returned (HandledBy transport, stream) =>
      exists id,
        sessionId = Some id /\ id <> ""
        /\ transports !! id = Some transport
        /\ handleStream env transport = Returned tt
        /\ stream = Some (streamMessages (firstSend env transport)
                            StreamableHTTPServerTransport_onClose)
  | Threw e =>
      exists id,
        sessionId = Some id /\ id <> ""
        /\ (transports_get transports id = Inherited
            \/ exists transport, transports !! id = Some transport
                                 /\ handleStream env transport = Threw e)
  end.
Proof.
  unfold handleGetRequest. destruct sessionId as [s|]; [|auto 10].
  destruct (String.eqb s "") eqn:Hs.
  - apply String.eqb_eq in Hs. subst s. auto 10.
  - apply String.eqb_neq in Hs.
    destruct (transports_get transports s) eqn:Hget.
    + assert (Hlookup : transports !! s = Some transport).
      { unfold transports_get in Hget. destruct (transports !! s); [congruence|].
        destruct (name_in _ _); discriminate. }
      destruct (handleStream env transport) as [[]|e] eqn:Hstream; cbn [bind].
      * exists s. auto.
      * exists s. split; [reflexivity|]. split; [exact Hs|]. right. eauto.
    + exists s. auto.
    + split; [reflexivity|]. split; [reflexivity|]. split; [reflexivity|].
      right. right. eauto.
Qed.

(** X24. When the stored transport fails to handle a request, a POST
    answers status 500 'Internal server error.' and keeps the table, while
    a GET lets the exception escape. *)
Theorem failing_transport_post_500_get_throws (transports : gmap string Transport)
    (post : PostEnv) (get : GetEnv) (id : string) (transport : Transport)
    (body : JSValue) (e e' : Thrown) :
  id <> "" ->
  transports !! id = Some transport ->
  handleRequest post transport = Threw e ->
  handleStream get transport = Threw e' ->
  handlePostRequest transports post (Some id) body
  = (transports, Json 500 (createErrorResponse "Internal server error."))
  /\ handleGetRequest transports get (Some id) = Threw e'.
Proof.
  intros Hne Hlookup Hpost Hget.
  pose proof (eqb_empty id Hne) as Hempty.
  pose proof (transports_get_stored transports id transport Hlookup) as Hstored.
  split.
  - unfold handlePostRequest. rewrite Hempty. cbn [negb]. rewrite Hstored, Hpost. reflexivity.
  - unfold handleGetRequest. rewrite Hempty, Hstored, Hget. reflexivity.
Qed.

Lemma failing_transport_post_500_get_throws_witness :
  let transports : gmap string Transport := {[ "a1" := 1%nat ]} in
  let post := {| handleRequest := fun _ => Threw (ErrorObject "socket hang up");
                 created := 2%nat; connect := Returned tt; handleInitial := Returned tt;
                 newSessionId := None |} in
  let get := {| handleStream := fun _ => Threw (ErrorObject "socket hang up");
                firstSend := fun _ => Returned tt |} in
  handlePostRequest transports post (Some "a1") JNull
  = (transports, Json 500 (createErrorResponse "Internal server error."))
  /\ handleGetRequest transports get (Some "a1") = Threw (ErrorObject "socket hang up").
Proof.
  intros transports post get.
  apply (failing_transport_post_500_get_throws transports post get "a1" 1%nat JNull
           (ErrorObject "socket hang up") (ErrorObject "socket hang up"));
    [discriminate | reflexivity | reflexivity | reflexivity].
Defined.

(** ** The stream *)

Lemma heartbeats_repeat (n : nat) : heartbeats (repeat Heartbeat n) = n.
Proof.
  unfold heartbeats. induction n as [|n IH]; [reflexivity|].
  cbn [repeat List.filter length]. rewrite IH. reflexivity.
Qed.

(** X26. On an established stream the notifications sent are the
    connection message followed by one heartbeat per turn of the timer,
    and the heartbeat sends still pending are those turns less the sends
    that settled. *)
Theorem one_heartbeat_per_timer_turn (onClose : Outcome unit) (events : list Event)
    (final : Stream) :
  run (streamMessages (Returned tt) onClose) events = Some final ->
  sent final = ConnectionEstablished :: repeat Heartbeat (timer_fires events)
  /\ heartbeats (sent final) = timer_fires events
  /\ (pendingSends final + settled events = timer_fires events)%nat.
Proof.
  intros Hrun. destruct (run_log events _ _ Hrun) as [Hsent Hpending].
  cbn [streamMessages sent pendingSends app] in *.
  split; [exact Hsent|]. split; [|exact Hpending].
  rewrite Hsent. unfold heartbeats. cbn [List.filter].
  exact (heartbeats_repeat (timer_fires events)).
Qed.

Lemma one_heartbeat_per_timer_turn_witness :
  exists final,
    run (streamMessages (Returned tt) StreamableHTTPServerTransport_onClose)
      [TimerFires; SendSettles false; TimerFires; TimerFires; SendSettles true]
    = Some final
    /\ sent final = [ConnectionEstablished; Heartbeat; Heartbeat; Heartbeat]
    /\ pendingSends final = 1%nat.
Proof.
  eexists. split; [reflexivity|].
  destruct (one_heartbeat_per_timer_turn StreamableHTTPServerTransport_onClose
              [TimerFires; SendSettles false; TimerFires; TimerFires; SendSettles true]
              _ eq_refl) as (Hsent & _ & Hpending).
  split; [exact Hsent | reflexivity].
Defined.

(** X27. Once a heartbeat send is rejected the timer is cleared: it never
    fires again, nothing more is sent, and in the whole run the timer goes
    from active to cleared exactly once. *)
Theorem rejected_heartbeat_stops_the_timer (onClose : Outcome unit)
    (before after : list Event) (final : Stream) :
  run (streamMessages (Returned tt) onClose) (before ++ SendSettles true :: after)
    = Some final ->
  exists failed,
    run (streamMessages (Returned tt) onClose) (before ++ [SendSettles true]) = Some failed
    /\ heartbeatInterval failed = Cleared
    /\ heartbeatInterval final = Cleared
    /\ sent final = sent failed
    /\ ~ In TimerFires after
    /\ timer_fires (before ++ SendSettles true :: after) = timer_fires before
    /\ cancellations (streamMessages (Returned tt) onClose)
         (before ++ SendSettles true :: after)
       = 1%nat.
Proof.
  intros Hrun. rewrite run_app in Hrun.
  destruct (run (streamMessages (Returned tt) onClose) before) as [s|] eqn:Hbefore;
    [|discriminate].
  assert (Hset : heartbeatInterval (streamMessages (Returned tt) onClose) <> NotSet)
    by discriminate.
  destruct (run_facts before _ _ Hset Hbefore) as (Hs & _ & _ & Hcount & _).
  cbn [run] in Hrun.
  destruct (step s (SendSettles true)) as [failed|] eqn:Hstep; [|discriminate].
  assert (Hfailed : heartbeatInterval failed = Cleared).
  { cbn [step] in Hstep. destruct (pendingSends s); [discriminate|].
    injection Hstep as <-. cbn [clearInterval heartbeatInterval].
    destruct (heartbeatInterval s); [congruence | reflexivity | reflexivity]. }
  destruct (step_facts s failed _ Hs Hstep) as (Hf & _ & _ & Hone & _).
  assert (Hf' : heartbeatInterval failed <> NotSet) by congruence.
  destruct (run_facts after _ _ Hf' Hrun) as (_ & _ & _ & Hafter & Hcleared).
  destruct (Hcleared Hfailed) as (Hfinal & Hsent & Hno).
  exists failed. split.
  { rewrite run_app, Hbefore. cbn [run]. rewrite Hstep. reflexivity. }
  split; [exact Hfailed|]. split; [exact Hfinal|]. split; [exact Hsent|].
  split; [exact Hno|]. split.
  - unfold timer_fires. rewrite List.filter_app, length_app. cbn [List.filter].
    assert (Hnil : List.filter (fun e => match e with TimerFires => true | _ => false end)
                     after = []).
    { clear - Hno. induction after as [|[|r|] after IH]; cbn [List.filter].
      - reflexivity.
      - exfalso. apply Hno. left. reflexivity.
      - apply IH. intros H. apply Hno. right. exact H.
      - apply IH. intros H. apply Hno. right. exact H. }
    rewrite Hnil. cbn [length]. lia.
  - rewrite cancellations_app, Hbefore. cbn [cancellations]. rewrite Hstep.
    unfold cleared_count in *. rewrite Hfailed in *. rewrite Hfinal in *.
    change (heartbeatInterval (streamMessages (Returned tt) onClose)) with Active in Hcount.
    cbv iota in Hcount.
    destruct (heartbeatInterval s); lia.
Qed.

Lemma rejected_heartbeat_stops_the_timer_witness :
  exists final failed,
    run (streamMessages (Returned tt) StreamableHTTPServerTransport_onClose)
      [TimerFires; TimerFires; SendSettles true; SendSettles false; ChannelCloses]
    = Some final
    /\ run (streamMessages (Returned tt) StreamableHTTPServerTransport_onClose)
         [TimerFires; TimerFires; SendSettles true]
       = Some failed
    /\ sent final = sent failed
    /\ heartbeatInterval final = Cleared.
Proof.
  eexists.
  destruct (rejected_heartbeat_stops_the_timer StreamableHTTPServerTransport_onClose
              [TimerFires; TimerFires] [SendSettles false; ChannelCloses] _ eq_refl)
    as (failed & Hfailed & _ & Hfinal & Hsent & _).
  exists failed. split; [reflexivity|]. split; [exact Hfailed|]. split; assumption.
Defined.
